(** * The setup codec of auriga-setup-ai (packages/setup-parser)

    A shallow embedding of [parser.ts], [types.ts], the two dialect tables
    ([car-mappings/ferrari-488-gt3.ts], [car-mappings/porsche-911-gt3r.ts])
    and the string entry points of [index.ts], followed by the properties of
    the codec.  The entry points that read or write a file ([parseFile],
    [saveToFile] and their wrappers in [index.ts]) are not embedded.

    Conventions of the embedding.
    - A JavaScript number is an IEEE binary64 value: Rocq's primitive [float].
    - A JavaScript value is a tree of [value]: objects are association lists
      kept in property order, arrays are lists.
    - A method that may throw returns a [result].
    - Property access is access to own properties (plus index and [length] of
      arrays and strings).  The members that every JavaScript value inherits
      from the built-in prototypes ([toString], [constructor], [__proto__],
      ...) are not modelled; neither dialect table nor any canonical path
      names one, and the properties stated for an arbitrary path take its
      segments outside [prototype_members].
    - The module is strict-mode code (an ES module, and a class body): an
      assignment to a property of a primitive throws a TypeError. *)

From Stdlib Require Import ZArith List String Ascii Bool Lia Floats DecimalString
  DecimalNat.
From stdpp Require Import base strings gmap.
Import ListNotations.

Local Open Scope string_scope.
Local Open Scope list_scope.

(** ** Outcomes *)

Inductive exn : Type :=
| TypeError (message : string)
| RangeError (message : string)
| Error (message : string).

Definition message (e : exn) : string :=
  match e with
  | TypeError m => m
  | RangeError m => m
  | Error m => m
  end.

(** [Unmodelled] marks the two behaviours left outside the embedding: the
    conversion of an object or array to a primitive (ToPrimitive), and the
    assignment of a named property of an array (or of a [length] that
    resizes it). *)
Inductive result (A : Type) : Type :=
| Ok (a : A)
| Throw (e : exn)
| Unmodelled.

Arguments Ok {A} a.
Arguments Throw {A} e.
Arguments Unmodelled {A}.

#[global] Instance result_ret : MRet result := fun A a => Ok a.
#[global] Instance result_bind : MBind result := fun A B f m =>
  match m with
  | Ok a => f a
  | Throw e => Throw e
  | Unmodelled => Unmodelled
  end.

Definition is_ok {A} (r : result A) : bool :=
  match r with Ok _ => true | _ => false end.

Definition throws {A} (r : result A) : bool :=
  match r with Throw _ => true | _ => false end.

(** ** Values *)

#[local] Unset Elimination Schemes.

Inductive value : Type :=
| VUndefined
| VNull
| VBool (b : bool)
| VNum (x : float)
| VStr (s : string)
| VObj (props : list (string * value))
| VArr (items : list value).

#[local] Set Elimination Schemes.

Abbreviation obj := (list (string * value)).

Definition is_undefined (v : value) : bool :=
  match v with VUndefined => true | _ => false end.

(** [typeof v === 'object'] *)
Definition typeof_object (v : value) : bool :=
  match v with VNull | VObj _ | VArr _ => true | _ => false end.

(** [typeof v === 'string'] *)
Definition typeof_string (v : value) : bool :=
  match v with VStr _ => true | _ => false end.

Definition is_nan (x : float) : bool := negb (PrimFloat.eqb x x).

(** ToBoolean *)
Definition truthy (v : value) : bool :=
  match v with
  | VUndefined | VNull => false
  | VBool b => b
  | VNum x => negb (PrimFloat.eqb x 0) && negb (is_nan x)
  | VStr s => negb (String.eqb s "")
  | VObj _ | VArr _ => true
  end.

(** [a || b], with [b] evaluated only when [a] is falsy *)
Definition or_else (a : value) (b : result value) : result value :=
  if truthy a then Ok a else b.

(** ** Numbers and numeric strings *)

Module JsNumber.

(** The Number value of an integer: round to nearest, ties to even. *)
Definition of_Z (z : Z) : float := SF2Prim (binary_normalize prec emax z 0 false).

Definition of_nat (n : nat) : float := of_Z (Z.of_nat n).

(** The Number value of [m * 10^e] for [m > 0], correctly rounded.  For a
    negative exponent the quotient is computed to more than 64 bits, with
    the remainder kept as a sticky bit below them. *)
Definition of_decimal (m e : Z) : float :=
  if (0 <=? e)%Z then of_Z (m * 10 ^ e)
  else
    let d := (10 ^ (- e))%Z in
    let k := (Z.log2 d + 64)%Z in
    let q := ((m * 2 ^ k) / d)%Z in
    let sticky := if ((m * 2 ^ k) mod d =? 0)%Z then 0%Z else 1%Z in
    SF2Prim (binary_normalize prec emax (2 * q + sticky) (- k - 1) false).

Definition code (c : ascii) : N := N_of_ascii c.

(** StrWhiteSpaceChar, on code units below 256 *)
Definition is_ws (c : ascii) : bool :=
  let n := code c in
  ((9 <=? n) && (n <=? 13) || (n =? 32) || (n =? 160))%N.

Definition is_digit (c : ascii) : bool :=
  let n := code c in ((48 <=? n) && (n <=? 57))%N.

Definition digit_val (c : ascii) : Z := Z.of_N (code c) - 48.

(** value of a hexadecimal, octal or binary digit, if it is one in [base] *)
Definition digit_in (base : Z) (c : ascii) : option Z :=
  let n := Z.of_N (code c) in
  let d :=
    if ((48 <=? n) && (n <=? 57))%Z then Some (n - 48)%Z
    else if ((97 <=? n) && (n <=? 102))%Z then Some (n - 87)%Z
    else if ((65 <=? n) && (n <=? 70))%Z then Some (n - 55)%Z
    else None in
  match d with
  | Some x => if (x <? base)%Z then Some x else None
  | None => None
  end.

Fixpoint read_digits (s : list ascii) : list ascii * list ascii :=
  match s with
  | c :: r => if is_digit c then let (ds, r') := read_digits r in (c :: ds, r')
              else ([], s)
  | [] => ([], [])
  end.

Definition digits_to_Z (ds : list ascii) : Z :=
  fold_left (fun acc c => (10 * acc + digit_val c)%Z) ds 0%Z.

Fixpoint drop_ws (s : list ascii) : list ascii :=
  match s with
  | c :: r => if is_ws c then drop_ws r else s
  | [] => []
  end.

Definition trim (s : list ascii) : list ascii :=
  rev (drop_ws (rev (drop_ws s))).

Fixpoint strip_prefix (p s : list ascii) : option (list ascii) :=
  match p, s with
  | [], _ => Some s
  | a :: p', b :: s' => if Ascii.eqb a b then strip_prefix p' s' else None
  | _ :: _, [] => None
  end.

(** The mathematical value of a StrUnsignedDecimalLiteral *)
Inductive literal : Type :=
| LInfinity
| LDecimal (m e : Z).

(** ExponentPart, if one follows: [e] or [E], an optional sign, digits *)
Definition scan_exponent (s : list ascii) : Z * list ascii :=
  match s with
  | c :: r =>
      if (Ascii.eqb c "e" || Ascii.eqb c "E")%char then
        let '(neg, r1) :=
          match r with
          | "+"%char :: r1 => (false, r1)
          | "-"%char :: r1 => (true, r1)
          | _ => (false, r)
          end in
        let (ds, r2) := read_digits r1 in
        match ds with
        | [] => (0%Z, s)
        | _ => ((if neg then - digits_to_Z ds else digits_to_Z ds)%Z, r2)
        end
      else (0%Z, s)
  | [] => (0%Z, s)
  end.

(** The longest prefix of [s] that is a StrUnsignedDecimalLiteral *)
Definition scan_unsigned (s : list ascii) : option (literal * list ascii) :=
  match strip_prefix (list_ascii_of_string "Infinity") s with
  | Some r => Some (LInfinity, r)
  | None =>
      let (ip, r1) := read_digits s in
      match r1 with
      | "."%char :: r2 =>
          let (fp, r3) := read_digits r2 in
          match ip, fp with
          | [], [] => None
          | _, _ =>
              let (ex, r4) := scan_exponent r3 in
              Some (LDecimal (digits_to_Z (ip ++ fp)) (ex - Z.of_nat (length fp)), r4)
          end
      | _ =>
          match ip with
          | [] => None
          | _ => let (ex, r4) := scan_exponent r1 in
                 Some (LDecimal (digits_to_Z ip) ex, r4)
          end
      end
  end.

(** StrDecimalLiteral: an optional sign and an unsigned literal *)
Definition scan_signed (s : list ascii) : option (bool * literal * list ascii) :=
  let '(neg, r) :=
    match s with
    | "+"%char :: r => (false, r)
    | "-"%char :: r => (true, r)
    | _ => (false, s)
    end in
  match scan_unsigned r with
  | Some (l, r') => Some (neg, l, r')
  | None => None
  end.

Definition literal_value (neg : bool) (l : literal) : float :=
  let x :=
    match l with
    | LInfinity => infinity
    | LDecimal m e => if (m =? 0)%Z then zero else of_decimal m e
    end in
  if neg then (- x)%float else x.

Fixpoint digits_in (base : Z) (s : list ascii) (acc : Z) : option Z :=
  match s with
  | [] => Some acc
  | c :: r => match digit_in base c with
              | Some d => digits_in base r (base * acc + d)%Z
              | None => None
              end
  end.

(** NonDecimalIntegerLiteral: [0x], [0o] or [0b] and at least one digit *)
Definition non_decimal (s : list ascii) : option Z :=
  match s with
  | "0"%char :: p :: d :: r =>
      let base :=
        if (Ascii.eqb p "x" || Ascii.eqb p "X")%char then Some 16%Z
        else if (Ascii.eqb p "o" || Ascii.eqb p "O")%char then Some 8%Z
        else if (Ascii.eqb p "b" || Ascii.eqb p "B")%char then Some 2%Z
        else None in
      match base with
      | Some b => digits_in b (d :: r) 0%Z
      | None => None
      end
  | _ => None
  end.

(** [parseFloat(s)] for a string [s] *)
Definition parseFloat_string (s : string) : float :=
  match scan_signed (drop_ws (list_ascii_of_string s)) with
  | Some (neg, l, _) => literal_value neg l
  | None => nan
  end.

(** [Number(s)] for a string [s] (StringToNumber) *)
Definition Number_string (s : string) : float :=
  let t := trim (list_ascii_of_string s) in
  match t with
  | [] => zero
  | _ =>
      match non_decimal t with
      | Some n => of_Z n
      | None =>
          match scan_signed t with
          | Some (neg, l, []) => literal_value neg l
          | _ => nan
          end
      end
  end.

(** The decimal numeral of a natural number, as a template literal prints
    a small integer ([`GEAR_${i}`]) *)
Definition nat_to_string (n : nat) : string :=
  NilEmpty.string_of_uint (Nat.to_uint n).

End JsNumber.

Example parseFloat_3_0 : JsNumber.parseFloat_string "3.0" = 3%float.
Proof. vm_compute. reflexivity. Qed.


Example parseFloat_prefix : JsNumber.parseFloat_string " -172.5e2xyz" = (-17250)%float.
Proof. vm_compute. reflexivity. Qed.

Example parseFloat_not_numeric : JsNumber.parseFloat_string "abc" = nan.
Proof. vm_compute. reflexivity. Qed.

Example Number_whole_string : JsNumber.Number_string "12px" = nan.
Proof. vm_compute. reflexivity. Qed.

Example Number_empty : JsNumber.Number_string "" = 0%float.
Proof. vm_compute. reflexivity. Qed.

(** ** Conversions *)

(** ToNumber.  The conversion of an object goes through ToPrimitive. *)
Definition ToNumber (v : value) : result float :=
  match v with
  | VUndefined => Ok nan
  | VNull => Ok zero
  | VBool b => Ok (if b then one else zero)
  | VNum x => Ok x
  | VStr s => Ok (JsNumber.Number_string s)
  | VObj _ | VArr _ => Unmodelled
  end.

(** [parseFloat(v)]: the argument is converted to a string and the longest
    numeric prefix is read.  A number prints as the shortest numeral that
    reads back as itself (both zeros print as "0", NaN and the infinities by
    name), so [parseFloat] of a number is that number, with [-0] read as
    [+0]. *)
Definition parseFloat (v : value) : result float :=
  match v with
  | VUndefined | VNull | VBool _ => Ok nan
  | VNum x => Ok (if PrimFloat.eqb x 0 then zero else x)
  | VStr s => Ok (JsNumber.parseFloat_string s)
  | VObj _ | VArr _ => Unmodelled
  end.

(** ** Objects: own properties in property order *)

(** An array index is a canonical numeral below 2^32 - 1. *)
Definition array_index (k : string) : option N :=
  let cs := list_ascii_of_string k in
  match cs with
  | [] => None
  | c :: rest =>
      if forallb JsNumber.is_digit cs
         && (negb (Ascii.eqb c "0") || match rest with [] => true | _ => false end)
      then
        let n := Z.to_N (JsNumber.digits_to_Z cs) in
        if (n <? 4294967295)%N then Some n else None
      else None
  end.

Fixpoint obj_get (ps : obj) (k : string) : value :=
  match ps with
  | [] => VUndefined
  | (k', v) :: t => if String.eqb k' k then v else obj_get t k
  end.

Fixpoint obj_has (ps : obj) (k : string) : bool :=
  match ps with
  | [] => false
  | (k', _) :: t => String.eqb k' k || obj_has t k
  end.

Fixpoint obj_update (ps : obj) (k : string) (v : value) : obj :=
  match ps with
  | [] => []
  | (k', v') :: t =>
      if String.eqb k' k then (k', v) :: t else (k', v') :: obj_update t k v
  end.

(** A new index key goes among the index keys, in ascending order. *)
Fixpoint obj_insert_index (ps : obj) (i : N) (k : string) (v : value) : obj :=
  match ps with
  | [] => [(k, v)]
  | (k', v') :: t =>
      match array_index k' with
      | Some j => if (j <? i)%N then (k', v') :: obj_insert_index t i k v
                  else (k, v) :: ps
      | None => (k, v) :: ps
      end
  end.

(** A new key is enumerated after the existing ones, except that index keys
    come first (OrdinaryOwnPropertyKeys). *)
Definition obj_add (ps : obj) (k : string) (v : value) : obj :=
  match array_index k with
  | Some i => obj_insert_index ps i k v
  | None => ps ++ [(k, v)]
  end.

(** [o[k] = v] on an ordinary object *)
Definition obj_set (ps : obj) (k : string) (v : value) : obj :=
  if obj_has ps k then obj_update ps k v else obj_add ps k v.

(** [delete o[k]] *)
Definition obj_delete (ps : obj) (k : string) : obj :=
  List.filter (fun p => negb (String.eqb (fst p) k)) ps.

Definition obj_keys (ps : obj) : list string := map fst ps.

(** [a[i] = v] on an array: an index past the end extends the array, the
    skipped elements read as undefined. *)
Definition arr_set (xs : list value) (i : nat) (v : value) : list value :=
  if (i <? length xs)%nat then firstn i xs ++ v :: skipn (S i) xs
  else xs ++ repeat VUndefined (i - length xs) ++ [v].

Definition string_index (s : string) (i : nat) : value :=
  match String.get i s with
  | Some c => VStr (String c EmptyString)
  | None => VUndefined
  end.

(** The property [k] of a value that is neither undefined nor null *)
Definition own_prop (v : value) (k : string) : value :=
  match v with
  | VUndefined | VNull | VBool _ | VNum _ => VUndefined
  | VStr s =>
      match array_index k with
      | Some i => string_index s (N.to_nat i)
      | None => if String.eqb k "length"
                then VNum (JsNumber.of_nat (String.length s)) else VUndefined
      end
  | VObj ps => obj_get ps k
  | VArr xs =>
      match array_index k with
      | Some i => nth (N.to_nat i) xs VUndefined
      | None => if String.eqb k "length"
                then VNum (JsNumber.of_nat (length xs)) else VUndefined
      end
  end.

Definition nullish (v : value) : bool :=
  match v with VUndefined | VNull => true | _ => false end.

(** [v[k]] *)
Definition getProp (v : value) (k : string) : result value :=
  if nullish v then Throw (TypeError "Cannot read properties of undefined or null")
  else Ok (own_prop v k).

(** [v?.[k]] *)
Definition getPropOpt (v : value) (k : string) : value :=
  if nullish v then VUndefined else own_prop v k.

(** [v[k] = x], returning the container after the assignment.  In strict
    mode the assignment throws when [v] is a primitive.  The [length] of an
    array takes an integer from 0 to 2^32 - 1 only: a value that converts to
    NaN or to a negative number throws a RangeError (ArraySetLength). *)
Definition setProp (v : value) (k : string) (x : value) : result value :=
  match v with
  | VUndefined | VNull => Throw (TypeError "Cannot set properties of undefined or null")
  | VBool _ | VNum _ | VStr _ => Throw (TypeError "Cannot create property on a primitive value")
  | VObj ps => Ok (VObj (obj_set ps k x))
  | VArr xs =>
      match array_index k with
      | Some i => Ok (VArr (arr_set xs (N.to_nat i) x))
      | None =>
          if String.eqb k "length" then
            n ← ToNumber x;
            if is_nan n || (n <? 0)%float
            then Throw (RangeError "Invalid array length")
            else Unmodelled
          else Unmodelled
      end
  end.

(** ** Dotted paths *)

(** [s.split('.')] *)
Fixpoint split_dot (s : string) : list string :=
  match s with
  | EmptyString => [""]
  | String c r =>
      if Ascii.eqb c "." then "" :: split_dot r
      else match split_dot r with
           | p :: ps => String c p :: ps
           | [] => [String c ""]
           end
  end.

(** The loop of [setNestedProperty] over the segments, and its last
    assignment.  The object [current] is mutated in place in the source; here
    the updated child is stored back into its parent.  Each [current[part]]
    is read and written as an own property, which is what the code does at
    every segment that does not name an inherited member (the segments
    outside [prototype_members], below). *)
Fixpoint set_parts (current : value) (parts : list string) (v : value) : result value :=
  match parts with
  | [] => Ok current
  | [last] => setProp current last v
  | part :: rest =>
      child ← getProp current part;
      if is_undefined child then
        current' ← setProp current part (VObj []);
        child' ← set_parts (VObj []) rest v;
        setProp current' part child'
      else
        child' ← set_parts child rest v;
        setProp current part child'
  end.

Definition setNestedProperty (o : value) (path : string) (v : value) : result value :=
  set_parts o (split_dot path) v.

(** The loop of [getNestedProperty]; [current[part]] is read as an own
    property, as in [set_parts]. *)
Fixpoint get_parts (current : value) (parts : list string) : value :=
  match parts with
  | [] => current
  | part :: rest =>
      if nullish current then VUndefined
      else get_parts (own_prop current part) rest
  end.

Definition getNestedProperty (o : value) (path : string) : value :=
  get_parts o (split_dot path).

(** [o.k1.k2...kn = v]: the member chain is read, then the last property is
    assigned; the updated child is stored back as in [set_parts]. *)
Fixpoint assign_path (current : value) (ks : list string) (v : value) : result value :=
  match ks with
  | [] => Ok current
  | [k] => setProp current k v
  | k :: rest =>
      child ← getProp current k;
      child' ← assign_path child rest v;
      setProp current k child'
  end.

(** [o.k1.k2...kn] *)
Fixpoint read_path (current : value) (ks : list string) : result value :=
  match ks with
  | [] => Ok current
  | k :: rest => child ← getProp current k; read_path child rest
  end.

(** ** types.ts *)

(** [SetupFile]: the header and the sections of a raw table.  The sections
    object maps a section name to whatever the INI reader stored under it. *)
Record Header : Type := {
  version : value;
  carIdentifier : value;
  trackIdentifier : value;
  name : value;
  timestamp : value
}.

Record SetupFile : Type := {
  header : Header;
  sections : obj
}.

(** A pair of [valueTransformations]: [(value: any) => any] both ways *)
Record Transformation : Type := {
  fromRaw : value -> result value;
  toRaw : value -> result value
}.

(** [CarMappingConfig].  [fieldMappings] lists the sections, and each section
    its [targetField -> sourceField] entries, in enumeration order. *)
Record CarMappingConfig : Type := {
  carId : string;
  carName : string;
  fieldMappings : list (string * list (string * string));
  valueTransformations : option (list (string * Transformation))
}.

Fixpoint assoc {A} (l : list (string * A)) (k : string) : option A :=
  match l with
  | [] => None
  | (k', a) :: t => if String.eqb k' k then Some a else assoc t k
  end.

(** [mapping.valueTransformations?.[targetField]] *)
Definition transformation_of (mapping : CarMappingConfig) (targetField : string)
  : option Transformation :=
  match valueTransformations mapping with
  | Some ts => assoc ts targetField
  | None => None
  end.

(** ** car-mappings *)

(** [(value) => -parseFloat(value)] *)
Definition negate_parsed (v : value) : result value :=
  x ← parseFloat v; Ok (VNum (- x)%float).

(** [(value) => -value] *)
Definition negate (v : value) : result value :=
  x ← ToNumber v; Ok (VNum (- x)%float).

(** [(value) => parseFloat(value) * 1000] *)
Definition times_1000_parsed (v : value) : result value :=
  x ← parseFloat v; Ok (VNum (x * 1000)%float).

(** [(value) => value / 1000] *)
Definition div_1000 (v : value) : result value :=
  x ← ToNumber v; Ok (VNum (x / 1000)%float).

Definition sign_flip : Transformation :=
  {| fromRaw := negate_parsed; toRaw := negate |}.

Definition rescale_1000 : Transformation :=
  {| fromRaw := times_1000_parsed; toRaw := div_1000 |}.

Definition ferrari488GT3Mapping : CarMappingConfig := {|
  carId := "ferrari_488_gt3";
  carName := "Ferrari 488 GT3";
  fieldMappings := [
    ("TIRE", [
      ("tirePressures.frontLeft", "PRESSURE_LF");
      ("tirePressures.frontRight", "PRESSURE_RF");
      ("tirePressures.rearLeft", "PRESSURE_LR");
      ("tirePressures.rearRight", "PRESSURE_RR") ]);
    ("SUSPENSION", [
      ("suspension.front.springRate", "SPRING_RATE_LF");
      ("suspension.front.rideHeight", "RIDE_HEIGHT_LF");
      ("suspension.front.camber", "CAMBER_LF");
      ("suspension.front.toe", "TOE_LF");
      ("suspension.front.antiRollBar", "ARB_FRONT");
      ("suspension.rear.springRate", "SPRING_RATE_LR");
      ("suspension.rear.rideHeight", "RIDE_HEIGHT_LR");
      ("suspension.rear.camber", "CAMBER_LR");
      ("suspension.rear.toe", "TOE_LR");
      ("suspension.rear.antiRollBar", "ARB_REAR");
      ("dampers.front.bump", "BUMP_LF");
      ("dampers.front.rebound", "REBOUND_LF");
      ("dampers.rear.bump", "BUMP_LR");
      ("dampers.rear.rebound", "REBOUND_LR") ]);
    ("AERO", [ ("aero.rearWing", "WING_REAR") ]);
    ("BRAKE", [ ("brakeBias", "BIAS") ]);
    ("DIFFERENTIAL", [
      ("differential.preload", "PRELOAD");
      ("differential.powerRamp", "POWER_RAMP");
      ("differential.coastRamp", "COAST_RAMP") ]) ];
  valueTransformations := Some [
    ("suspension.front.camber", sign_flip);
    ("suspension.rear.camber", sign_flip) ]
|}.

Definition porsche911GT3RMapping : CarMappingConfig := {|
  carId := "porsche_911_gt3r";
  carName := "Porsche 911 GT3 R";
  fieldMappings := [
    ("TIRE", [
      ("tirePressures.frontLeft", "LEFT_FRONT");
      ("tirePressures.frontRight", "RIGHT_FRONT");
      ("tirePressures.rearLeft", "LEFT_REAR");
      ("tirePressures.rearRight", "RIGHT_REAR") ]);
    ("SUSPENSION", [
      ("suspension.front.springRate", "FRONT_SPRING_RATE");
      ("suspension.front.rideHeight", "FRONT_RIDE_HEIGHT");
      ("suspension.front.camber", "FRONT_CAMBER");
      ("suspension.front.toe", "FRONT_TOE");
      ("suspension.front.antiRollBar", "FRONT_ARB");
      ("suspension.rear.springRate", "REAR_SPRING_RATE");
      ("suspension.rear.rideHeight", "REAR_RIDE_HEIGHT");
      ("suspension.rear.camber", "REAR_CAMBER");
      ("suspension.rear.toe", "REAR_TOE");
      ("suspension.rear.antiRollBar", "REAR_ARB");
      ("dampers.front.bump", "FRONT_BUMP");
      ("dampers.front.rebound", "FRONT_REBOUND");
      ("dampers.rear.bump", "REAR_BUMP");
      ("dampers.rear.rebound", "REAR_REBOUND") ]);
    ("AERO", [ ("aero.rearWing", "REAR_WING") ]);
    ("BRAKE", [ ("brakeBias", "BRAKE_BIAS") ]);
    ("DIFFERENTIAL", [
      ("differential.preload", "DIFF_PRELOAD");
      ("differential.powerRamp", "DIFF_ENTRY");
      ("differential.coastRamp", "DIFF_EXIT") ]) ];
  valueTransformations := Some [
    ("suspension.front.springRate", rescale_1000);
    ("suspension.rear.springRate", rescale_1000);
    ("suspension.front.camber", sign_flip);
    ("suspension.rear.camber", sign_flip) ]
|}.

(** ** parser.ts: the registry *)

(** [class SetupParser], whose only field is the map [carMappings] *)
Record SetupParser : Type := {
  carMappings : gmap string CarMappingConfig
}.

(** [constructor(carMappingsArray = [])] *)
Definition new_SetupParser (carMappingsArray : list CarMappingConfig) : SetupParser :=
  {| carMappings :=
       fold_left (fun m mapping => <[carId mapping := mapping]> m) carMappingsArray ∅ |}.

(** [registerCarMapping(mapping)]: one [Map.set], no check of any kind *)
Definition registerCarMapping (mapping : CarMappingConfig) (p : SetupParser)
  : result SetupParser :=
  Ok {| carMappings := <[carId mapping := mapping]> (carMappings p) |}.

(** [this.carMappings.get(key)]; the keys of the map are strings *)
Definition get_mapping (p : SetupParser) (key : value) : option CarMappingConfig :=
  match key with
  | VStr s => carMappings p !! s
  | _ => None
  end.

(** index.ts: [createDefaultParser()] *)
Definition createDefaultParser : SetupParser :=
  new_SetupParser [ferrari488GT3Mapping; porsche911GT3RMapping].

(** ** parser.ts: decoding *)

(** [parseNumber(value)] *)
Definition parseNumber (v : value) : float :=
  match v with
  | VUndefined | VNull => zero
  | VNum x => x
  | VStr s =>
      let parsed := JsNumber.parseFloat_string s in
      if is_nan parsed then zero else parsed
  | _ => zero
  end.

(** The conversion of [applyCarMapping] for a field without transformation:
    [Number(rawValue)] when the raw value is a string that reads as a number,
    the raw value itself otherwise. *)
Definition default_conversion (rawValue : value) : value :=
  match rawValue with
  | VStr s =>
      if negb (is_nan (JsNumber.Number_string s))
      then VNum (JsNumber.Number_string s) else rawValue
  | _ => rawValue
  end.

Definition convert_field (mapping : CarMappingConfig) (targetField : string)
    (rawValue : value) : result value :=
  match transformation_of mapping targetField with
  | Some transformation => fromRaw transformation rawValue
  | None => Ok (default_conversion rawValue)
  end.

(** The inner loop of [applyCarMapping], over the entries of one section *)
Fixpoint apply_section_mapping (mapping : CarMappingConfig) (rawSection : value)
    (sectionMapping : list (string * string)) (setup : value) : result value :=
  match sectionMapping with
  | [] => Ok setup
  | (targetField, sourceField) :: rest =>
      rawValue ← getProp rawSection sourceField;
      if is_undefined rawValue then
        apply_section_mapping mapping rawSection rest setup
      else
        v ← convert_field mapping targetField rawValue;
        setup' ← setNestedProperty setup targetField v;
        apply_section_mapping mapping rawSection rest setup'
  end.

(** The outer loop of [applyCarMapping], over the sections of the mapping *)
Fixpoint apply_field_mappings (mapping : CarMappingConfig) (rawSections : obj)
    (fm : list (string * list (string * string))) (setup : value) : result value :=
  match fm with
  | [] => Ok setup
  | (sectionName, sectionMapping) :: rest =>
      let rawSection := obj_get rawSections sectionName in
      if negb (truthy rawSection) then
        apply_field_mappings mapping rawSections rest setup
      else
        setup' ← apply_section_mapping mapping rawSection sectionMapping setup;
        apply_field_mappings mapping rawSections rest setup'
  end.

Definition applyCarMapping (setup : value) (rawSetup : SetupFile)
    (mapping : CarMappingConfig) : result value :=
  apply_field_mappings mapping (sections rawSetup) (fieldMappings mapping) setup.

(** [section[k1] || section[k2]] *)
Definition probe2 (section : value) (k1 k2 : string) : result value :=
  a ← getProp section k1;
  or_else a (getProp section k2).

(** [section[k1] || section[k2] || d] *)
Definition probe3 (section : value) (k1 k2 : string) (d : value) : result value :=
  a ← getProp section k1;
  or_else a (b ← getProp section k2; or_else b (Ok d)).

(** [target = this.parseNumber(section[k1] || section[k2])] *)
Definition assign_number (setup : value) (target : list string) (section : value)
    (k1 k2 : string) : result value :=
  a ← probe2 section k1 k2;
  assign_path setup target (VNum (parseNumber a)).

(** [Object.keys(v).length] for a value that is neither undefined nor null *)
Definition own_keys_count (v : value) : nat :=
  match v with
  | VObj ps => length ps
  | VArr xs => length xs
  | VStr s => String.length s
  | _ => 0
  end.

Definition gear_key (i : nat) : string := "GEAR_" ++ JsNumber.nat_to_string i.

(** One turn of the gear loop: [if (gearSection[gearKey] !== undefined)
    gearRatios.push(this.parseNumber(gearSection[gearKey]))] *)
Definition gear_step (gearSection : value) (acc : result (list value)) (i : nat)
  : result (list value) :=
  gearRatios ← acc;
  g ← getProp gearSection (gear_key i);
  if is_undefined g then Ok gearRatios
  else Ok (gearRatios ++ [VNum (parseNumber g)]).

(** [for (let i = 1; i <= 8; i++) ...] *)
Definition collect_gears (gearSection : value) : result (list value) :=
  fold_left (gear_step gearSection) (seq 1 8) (Ok []).

Definition known_sections : list string :=
  ["TIRE"; "SUSPENSION"; "DAMPER"; "AERO"; "BRAKE"; "DIFFERENTIAL"; "GEARS"].

Definition includes (l : list string) (s : string) : bool :=
  existsb (String.eqb s) l.

(** The loop that stores the remaining sections under [additionalSettings] *)
Fixpoint store_additional (rawSections : obj) (names : list string) (setup : value)
  : result value :=
  match names with
  | [] => Ok setup
  | sectionName :: rest =>
      if includes known_sections sectionName then
        store_additional rawSections rest setup
      else
        setup' ← assign_path setup ["additionalSettings"; sectionName]
                   (obj_get rawSections sectionName);
        store_additional rawSections rest setup'
  end.

Definition applyGenericMapping (setup : value) (rawSetup : SetupFile) : result value :=
  let secs := sections rawSetup in
  (* Tire pressures *)
  tirePressureSection ← or_else (obj_get secs "TIRE") (Ok (VObj []));
  setup ← assign_number setup ["tirePressures"; "frontLeft"] tirePressureSection "LEFT_FRONT" "PRESSURE_LF";
  setup ← assign_number setup ["tirePressures"; "frontRight"] tirePressureSection "RIGHT_FRONT" "PRESSURE_RF";
  setup ← assign_number setup ["tirePressures"; "rearLeft"] tirePressureSection "LEFT_REAR" "PRESSURE_LR";
  setup ← assign_number setup ["tirePressures"; "rearRight"] tirePressureSection "RIGHT_REAR" "PRESSURE_RR";
  (* Suspension *)
  suspensionSection ← or_else (obj_get secs "SUSPENSION") (Ok (VObj []));
  setup ← assign_number setup ["suspension"; "front"; "springRate"] suspensionSection "SPRING_RATE_LF" "FRONT_SPRING_RATE";
  setup ← assign_number setup ["suspension"; "front"; "rideHeight"] suspensionSection "RIDE_HEIGHT_LF" "FRONT_RIDE_HEIGHT";
  setup ← assign_number setup ["suspension"; "front"; "camber"] suspensionSection "CAMBER_LF" "FRONT_CAMBER";
  setup ← assign_number setup ["suspension"; "front"; "toe"] suspensionSection "TOE_IN_LF" "FRONT_TOE";
  setup ← assign_number setup ["suspension"; "front"; "antiRollBar"] suspensionSection "FRONT_ANTI_ROLL_BAR" "ARB_FRONT";
  setup ← assign_number setup ["suspension"; "rear"; "springRate"] suspensionSection "SPRING_RATE_LR" "REAR_SPRING_RATE";
  setup ← assign_number setup ["suspension"; "rear"; "rideHeight"] suspensionSection "RIDE_HEIGHT_LR" "REAR_RIDE_HEIGHT";
  setup ← assign_number setup ["suspension"; "rear"; "camber"] suspensionSection "CAMBER_LR" "REAR_CAMBER";
  setup ← assign_number setup ["suspension"; "rear"; "toe"] suspensionSection "TOE_IN_LR" "REAR_TOE";
  setup ← assign_number setup ["suspension"; "rear"; "antiRollBar"] suspensionSection "REAR_ANTI_ROLL_BAR" "ARB_REAR";
  (* Dampers *)
  damperSection ← or_else (obj_get secs "DAMPER") (Ok suspensionSection);
  setup ← assign_number setup ["dampers"; "front"; "bump"] damperSection "BUMP_LF" "FRONT_BUMP";
  setup ← assign_number setup ["dampers"; "front"; "rebound"] damperSection "REBOUND_LF" "FRONT_REBOUND";
  setup ← assign_number setup ["dampers"; "rear"; "bump"] damperSection "BUMP_LR" "REAR_BUMP";
  setup ← assign_number setup ["dampers"; "rear"; "rebound"] damperSection "REBOUND_LR" "REAR_REBOUND";
  (* Aero *)
  aeroSection ← or_else (obj_get secs "AERO") (Ok (VObj []));
  setup ← assign_number setup ["aero"; "frontWing"] aeroSection "FRONT_WING" "WING_FRONT";
  setup ← assign_number setup ["aero"; "rearWing"] aeroSection "REAR_WING" "WING_REAR";
  (* Brake bias *)
  brakeSection ← or_else (obj_get secs "BRAKE") (Ok (VObj []));
  bias ← probe3 brakeSection "BIAS" "BRAKE_BIAS" (VNum 50);
  setup ← assign_path setup ["brakeBias"] (VNum (parseNumber bias));
  (* Differential *)
  diffSection ← or_else (obj_get secs "DIFFERENTIAL") (Ok (VObj []));
  setup ←
    (if (0 <? own_keys_count diffSection)%nat then
       preload ← probe3 diffSection "PRELOAD" "DIFF_PRELOAD" (VNum 0);
       powerRamp ← probe3 diffSection "POWER_RAMP" "DIFF_POWER" (VNum 0);
       coastRamp ← probe3 diffSection "COAST_RAMP" "DIFF_COAST" (VNum 0);
       assign_path setup ["differential"]
         (VObj [("preload", VNum (parseNumber preload));
                ("powerRamp", VNum (parseNumber powerRamp));
                ("coastRamp", VNum (parseNumber coastRamp))])
     else Ok setup);
  (* Gear ratios *)
  gearSection ← or_else (obj_get secs "GEARS") (Ok (VObj []));
  gearRatios ← collect_gears gearSection;
  setup ←
    (if (0 <? length gearRatios)%nat
     then assign_path setup ["gearRatios"] (VArr gearRatios)
     else Ok setup);
  (* Additional sections *)
  setup ← assign_path setup ["additionalSettings"] (VObj []);
  store_additional secs (obj_keys secs) setup.

(** ** parser.ts: encoding *)

(** The inner loop of [applyCarMappingReverse] *)
Fixpoint reverse_section_mapping (mapping : CarMappingConfig) (setup : value)
    (sectionName : string) (sectionMapping : list (string * string))
    (rawSetup : value) : result value :=
  match sectionMapping with
  | [] => Ok rawSetup
  | (targetField, sourceField) :: rest =>
      let v := getNestedProperty setup targetField in
      if is_undefined v then
        reverse_section_mapping mapping setup sectionName rest rawSetup
      else
        rawValue ←
          match transformation_of mapping targetField with
          | Some transformation => toRaw transformation v
          | None => Ok v
          end;
        rawSetup' ← assign_path rawSetup [sectionName; sourceField] rawValue;
        reverse_section_mapping mapping setup sectionName rest rawSetup'
  end.

(** The outer loop of [applyCarMappingReverse] *)
Fixpoint reverse_field_mappings (mapping : CarMappingConfig) (setup : value)
    (fm : list (string * list (string * string))) (rawSetup : value) : result value :=
  match fm with
  | [] => Ok rawSetup
  | (sectionName, sectionMapping) :: rest =>
      existing ← getProp rawSetup sectionName;
      rawSetup ← (if negb (truthy existing)
                  then setProp rawSetup sectionName (VObj [])
                  else Ok rawSetup);
      rawSetup ← reverse_section_mapping mapping setup sectionName sectionMapping rawSetup;
      reverse_field_mappings mapping setup rest rawSetup
  end.

Definition applyCarMappingReverse (setup rawSetup : value) (mapping : CarMappingConfig)
  : result value :=
  reverse_field_mappings mapping setup (fieldMappings mapping) rawSetup.

(** [rawSetup.S.K = setup.k1...kn] *)
Definition copy_field (setup : value) (source : list string) (target : list string)
    (rawSetup : value) : result value :=
  v ← read_path setup source;
  assign_path rawSetup target v.

(** The gear loop of [applyGenericMappingReverse], over the elements of an
    array: [rawSetup.GEARS[`GEAR_${i + 1}`] = setup.gearRatios[i]] *)
Fixpoint emit_gears (items : list value) (i : nat) (rawSetup : value) : result value :=
  match items with
  | [] => Ok rawSetup
  | g :: rest =>
      rawSetup' ← assign_path rawSetup ["GEARS"; gear_key (S i)] g;
      emit_gears rest (S i) rawSetup'
  end.

Definition characters (s : string) : list value :=
  map (fun c => VStr (String c EmptyString)) (list_ascii_of_string s).

Definition applyGenericMappingReverse (setup rawSetup : value) : result value :=
  rawSetup ← setProp rawSetup "TIRE" (VObj []);
  rawSetup ← setProp rawSetup "SUSPENSION" (VObj []);
  rawSetup ← setProp rawSetup "AERO" (VObj []);
  rawSetup ← setProp rawSetup "BRAKE" (VObj []);
  (* Tire pressures *)
  rawSetup ← copy_field setup ["tirePressures"; "frontLeft"] ["TIRE"; "LEFT_FRONT"] rawSetup;
  rawSetup ← copy_field setup ["tirePressures"; "frontRight"] ["TIRE"; "RIGHT_FRONT"] rawSetup;
  rawSetup ← copy_field setup ["tirePressures"; "rearLeft"] ["TIRE"; "LEFT_REAR"] rawSetup;
  rawSetup ← copy_field setup ["tirePressures"; "rearRight"] ["TIRE"; "RIGHT_REAR"] rawSetup;
  (* Suspension *)
  rawSetup ← copy_field setup ["suspension"; "front"; "springRate"] ["SUSPENSION"; "SPRING_RATE_LF"] rawSetup;
  rawSetup ← copy_field setup ["suspension"; "front"; "rideHeight"] ["SUSPENSION"; "RIDE_HEIGHT_LF"] rawSetup;
  rawSetup ← copy_field setup ["suspension"; "front"; "camber"] ["SUSPENSION"; "CAMBER_LF"] rawSetup;
  rawSetup ← copy_field setup ["suspension"; "front"; "toe"] ["SUSPENSION"; "TOE_IN_LF"] rawSetup;
  rawSetup ← copy_field setup ["suspension"; "front"; "antiRollBar"] ["SUSPENSION"; "FRONT_ANTI_ROLL_BAR"] rawSetup;
  rawSetup ← copy_field setup ["suspension"; "rear"; "springRate"] ["SUSPENSION"; "SPRING_RATE_LR"] rawSetup;
  rawSetup ← copy_field setup ["suspension"; "rear"; "rideHeight"] ["SUSPENSION"; "RIDE_HEIGHT_LR"] rawSetup;
  rawSetup ← copy_field setup ["suspension"; "rear"; "camber"] ["SUSPENSION"; "CAMBER_LR"] rawSetup;
  rawSetup ← copy_field setup ["suspension"; "rear"; "toe"] ["SUSPENSION"; "TOE_IN_LR"] rawSetup;
  rawSetup ← copy_field setup ["suspension"; "rear"; "antiRollBar"] ["SUSPENSION"; "REAR_ANTI_ROLL_BAR"] rawSetup;
  (* Dampers *)
  rawSetup ← copy_field setup ["dampers"; "front"; "bump"] ["SUSPENSION"; "BUMP_LF"] rawSetup;
  rawSetup ← copy_field setup ["dampers"; "front"; "rebound"] ["SUSPENSION"; "REBOUND_LF"] rawSetup;
  rawSetup ← copy_field setup ["dampers"; "rear"; "bump"] ["SUSPENSION"; "BUMP_LR"] rawSetup;
  rawSetup ← copy_field setup ["dampers"; "rear"; "rebound"] ["SUSPENSION"; "REBOUND_LR"] rawSetup;
  (* Aero *)
  frontWing ← read_path setup ["aero"; "frontWing"];
  rawSetup ← (if negb (is_undefined frontWing)
              then assign_path rawSetup ["AERO"; "FRONT_WING"] frontWing else Ok rawSetup);
  rearWing ← read_path setup ["aero"; "rearWing"];
  rawSetup ← (if negb (is_undefined rearWing)
              then assign_path rawSetup ["AERO"; "REAR_WING"] rearWing else Ok rawSetup);
  (* Brake bias *)
  rawSetup ← copy_field setup ["brakeBias"] ["BRAKE"; "BIAS"] rawSetup;
  (* Differential *)
  differential ← getProp setup "differential";
  rawSetup ←
    (if truthy differential then
       preload ← getProp differential "preload";
       rawSetup ← setProp rawSetup "DIFFERENTIAL" (VObj [("PRELOAD", preload)]);
       powerRamp ← getProp differential "powerRamp";
       rawSetup ← (if negb (is_undefined powerRamp)
                   then assign_path rawSetup ["DIFFERENTIAL"; "POWER_RAMP"] powerRamp
                   else Ok rawSetup);
       coastRamp ← getProp differential "coastRamp";
       (if negb (is_undefined coastRamp)
        then assign_path rawSetup ["DIFFERENTIAL"; "COAST_RAMP"] coastRamp
        else Ok rawSetup)
     else Ok rawSetup);
  (* Gear ratios: [gearRatios] is a [number[]]; a string is indexed the same
     way, a boolean or a number has no [length], and the loop over an object
     that merely has a [length] property is not modelled. *)
  gearRatios ← getProp setup "gearRatios";
  rawSetup ←
    (if truthy gearRatios then
       match gearRatios with
       | VArr items =>
           if (0 <? length items)%nat then
             rawSetup ← setProp rawSetup "GEARS" (VObj []);
             emit_gears items 0 rawSetup
           else Ok rawSetup
       | VStr s =>
           rawSetup ← setProp rawSetup "GEARS" (VObj []);
           emit_gears (characters s) 0 rawSetup
       | VObj _ => Unmodelled
       | _ => Ok rawSetup
       end
     else Ok rawSetup);
  (* Additional settings *)
  additionalSettings ← getProp setup "additionalSettings";
  if truthy additionalSettings then
    match additionalSettings with
    | VObj ps =>
        fold_left (fun acc sectionName =>
                     rawSetup ← acc;
                     setProp rawSetup sectionName (obj_get ps sectionName))
                  (obj_keys ps) (Ok rawSetup)
    | VArr xs =>
        fold_left (fun acc i =>
                     rawSetup ← acc;
                     setProp rawSetup (JsNumber.nat_to_string i) (nth i xs VUndefined))
                  (seq 0 (length xs)) (Ok rawSetup)
    | VStr s =>
        fold_left (fun acc i =>
                     rawSetup ← acc;
                     setProp rawSetup (JsNumber.nat_to_string i) (string_index s i))
                  (seq 0 (String.length s)) (Ok rawSetup)
    | _ => Ok rawSetup
    end
  else Ok rawSetup.

Section Parser.

(** The collaborators of the parser: the INI reader and writer of the
    [ini] package, and the clock ([new Date().toISOString()], one reading
    for each place of the source that asks for it). *)
Variable ini_parse : string -> result obj.
Variable ini_stringify : value -> result string.
Variable clock : nat -> string.

(** The loop [for (const key in parsed) if (typeof parsed[key] ===
    'object') sections[key] = parsed[key]] *)
Fixpoint collect_sections (parsed : obj) (keys : list string) (secs : obj) : obj :=
  match keys with
  | [] => secs
  | key :: rest =>
      if typeof_object (obj_get parsed key)
      then collect_sections parsed rest (obj_set secs key (obj_get parsed key))
      else collect_sections parsed rest secs
  end.

(** What [parseIniString] does with the object the INI reader returned;
    nothing here can throw. *)
Definition extract_setup (parsed : obj) : SetupFile :=
  let header := {|
    version := if truthy (obj_get parsed "VERSION") then obj_get parsed "VERSION" else VStr "1.0";
    carIdentifier := if truthy (obj_get parsed "CAR") then obj_get parsed "CAR" else VStr "";
    trackIdentifier := if truthy (obj_get parsed "TRACK") then obj_get parsed "TRACK" else VStr "";
    name :=
      (let active := getPropOpt (obj_get parsed "SETUPS") "ACTIVE" in
       if truthy active then active else VStr "Unnamed Setup");
    timestamp := if truthy (obj_get parsed "TIMESTAMP") then obj_get parsed "TIMESTAMP" else VStr (clock 0)
  |} in
  let parsed :=
    obj_delete (obj_delete (obj_delete (obj_delete parsed "VERSION") "CAR") "TRACK") "TIMESTAMP" in
  {| header := header; sections := collect_sections parsed (obj_keys parsed) [] |}.

(** [parseIniString(content)]: whatever the [try] block throws is thrown
    again as an [Error] with a prefixed message. *)
Definition parseIniString (content : string) : result SetupFile :=
  match ini_parse content with
  | Ok parsed => Ok (extract_setup parsed)
  | Throw error => Throw (Error ("Failed to parse .sto file: " ++ message error))
  | Unmodelled => Unmodelled
  end.

(** The object literal with which [convertToStructured] starts *)
Definition initial_setup (rawSetup : SetupFile) : value :=
  let h := header rawSetup in
  let stamp (i : nat) := if truthy (timestamp h) then timestamp h else VStr (clock i) in
  VObj [
    ("carId", carIdentifier h);
    ("trackId", trackIdentifier h);
    ("name", name h);
    ("suspension", VObj [
       ("front", VObj [("springRate", VNum 0); ("rideHeight", VNum 0);
                       ("camber", VNum 0); ("toe", VNum 0); ("antiRollBar", VNum 0)]);
       ("rear", VObj [("springRate", VNum 0); ("rideHeight", VNum 0);
                      ("camber", VNum 0); ("toe", VNum 0); ("antiRollBar", VNum 0)]) ]);
    ("dampers", VObj [
       ("front", VObj [("bump", VNum 0); ("rebound", VNum 0)]);
       ("rear", VObj [("bump", VNum 0); ("rebound", VNum 0)]) ]);
    ("tirePressures", VObj [("frontLeft", VNum 0); ("frontRight", VNum 0);
                            ("rearLeft", VNum 0); ("rearRight", VNum 0)]);
    ("aero", VObj []);
    ("brakeBias", VNum 50);
    ("metadata", VObj [("created", stamp 1); ("modified", stamp 2);
                       ("version", version h)]) ].

Variable parser : SetupParser.

(** [convertToStructured(rawSetup)] *)
Definition convertToStructured (rawSetup : SetupFile) : result value :=
  let setup := initial_setup rawSetup in
  match get_mapping parser (carIdentifier (header rawSetup)) with
  | Some carMapping => applyCarMapping setup rawSetup carMapping
  | None => applyGenericMapping setup rawSetup
  end.


(** The object that [convertToSto] hands to the INI writer *)
Definition convertToSto_rawSetup (setup : value) : result value :=
  metadata ← getProp setup "metadata";
  let version := getPropOpt metadata "version" in
  let modified := getPropOpt metadata "modified" in
  let rawSetup := VObj [
    ("VERSION", if truthy version then version else VStr "1.0");
    ("CAR", own_prop setup "carId");
    ("TRACK", own_prop setup "trackId");
    ("TIMESTAMP", if truthy modified then modified else VStr (clock 3));
    ("SETUPS", VObj [("ACTIVE", own_prop setup "name")]) ] in
  match get_mapping parser (own_prop setup "carId") with
  | Some carMapping => applyCarMappingReverse setup rawSetup carMapping
  | None => applyGenericMappingReverse setup rawSetup
  end.

(** [convertToSto(setup)] *)
Definition convertToSto (setup : value) : result string :=
  rawSetup ← convertToSto_rawSetup setup;
  ini_stringify rawSetup.

End Parser.

(** ** index.ts: the entry points over the default parser *)

Module Index.

Section Index.

Variable ini_parse : string -> result obj.
Variable ini_stringify : value -> result string.
Variable clock : nat -> string.


(** [convertToSto(setup)] *)
Definition convertToSto (setup : value) : result string :=
  let parser := createDefaultParser in
  convertToSto ini_stringify clock parser setup.

End Index.

End Index.

(** * Properties *)

(** ** The result monad *)

Lemma bind_Ok {A B} (f : A -> result B) (a : A) : (Ok a ≫= f) = f a.
Proof. reflexivity. Qed.

Lemma bind_Ok_inv {A B} (f : A -> result B) (m : result A) (b : B) :
  (m ≫= f) = Ok b -> exists a, m = Ok a /\ f a = Ok b.
Proof. destruct m as [a| |]; cbn; intros H; try discriminate. eauto. Qed.

(** ** Own properties of ordinary objects *)

Lemma obj_has_get_update ps k v : obj_has ps k = true -> obj_get (obj_update ps k v) k = v.
Proof.
  induction ps as [|[k' v'] t IH]; cbn; [discriminate|].
  destruct (String.eqb k' k) eqn:E; cbn; rewrite E; auto.
Qed.

Lemma obj_get_update_ne ps k k' v :
  k <> k' -> obj_get (obj_update ps k v) k' = obj_get ps k'.
Proof.
  intros Hne. induction ps as [|[k0 v0] t IH]; cbn; [reflexivity|].
  destruct (String.eqb k0 k) eqn:E; cbn.
  - apply String.eqb_eq in E. subst k0.
    destruct (String.eqb k k') eqn:E'; [apply String.eqb_eq in E'; contradiction|reflexivity].
  - destruct (String.eqb k0 k'); auto.
Qed.

Lemma obj_get_insert_index_same ps i k v :
  obj_has ps k = false -> obj_get (obj_insert_index ps i k v) k = v.
Proof.
  induction ps as [|[k0 v0] t IH]; cbn; intros H.
  - now rewrite String.eqb_refl.
  - apply orb_false_iff in H as [H0 Ht].
    destruct (array_index k0) as [j|]; [destruct (j <? i)%N|]; cbn;
      rewrite ?String.eqb_refl, ?H0; auto.
Qed.

Lemma obj_get_insert_index_ne ps i k v k' :
  k <> k' -> obj_get (obj_insert_index ps i k v) k' = obj_get ps k'.
Proof.
  intros Hne. apply String.eqb_neq in Hne.
  induction ps as [|[k0 v0] t IH]; cbn.
  - now rewrite Hne.
  - destruct (array_index k0) as [j|]; [destruct (j <? i)%N|]; cbn;
      rewrite ?Hne; auto.
    now rewrite IH.
Qed.

Lemma obj_get_app ps qs k :
  obj_get (ps ++ qs) k = if obj_has ps k then obj_get ps k else obj_get qs k.
Proof.
  induction ps as [|[k0 v0] t IH]; cbn; [reflexivity|].
  destruct (String.eqb k0 k); cbn; auto.
Qed.

Lemma obj_get_add_same ps k v : obj_has ps k = false -> obj_get (obj_add ps k v) k = v.
Proof.
  intros H. unfold obj_add. destruct (array_index k).
  - now apply obj_get_insert_index_same.
  - rewrite obj_get_app, H. cbn. now rewrite String.eqb_refl.
Qed.

Lemma obj_get_absent ps k : obj_has ps k = false -> obj_get ps k = VUndefined.
Proof.
  induction ps as [|[k0 v0] t IH]; cbn; [reflexivity|].
  destruct (String.eqb k0 k); cbn; [discriminate|auto].
Qed.

Lemma obj_get_add_ne ps k k' v : k <> k' -> obj_get (obj_add ps k v) k' = obj_get ps k'.
Proof.
  intros Hne. unfold obj_add. destruct (array_index k).
  - now apply obj_get_insert_index_ne.
  - rewrite obj_get_app. destruct (obj_has ps k') eqn:E; [reflexivity|].
    cbn. apply String.eqb_neq in Hne. rewrite Hne. now rewrite obj_get_absent.
Qed.

Lemma obj_get_set_same ps k v : obj_get (obj_set ps k v) k = v.
Proof.
  unfold obj_set. destruct (obj_has ps k) eqn:E.
  - now apply obj_has_get_update.
  - now apply obj_get_add_same.
Qed.

Lemma obj_get_set_ne ps k k' v : k <> k' -> obj_get (obj_set ps k v) k' = obj_get ps k'.
Proof.
  intros Hne. unfold obj_set. destruct (obj_has ps k).
  - now apply obj_get_update_ne.
  - now apply obj_get_add_ne.
Qed.

Lemma obj_get_set ps k k' v :
  obj_get (obj_set ps k v) k' = if String.eqb k k' then v else obj_get ps k'.
Proof.
  destruct (String.eqb k k') eqn:E.
  - apply String.eqb_eq in E. subst. apply obj_get_set_same.
  - apply String.eqb_neq in E. now apply obj_get_set_ne.
Qed.

(** ** Dotted paths: writing, and reading back *)

(** [settable c parts]: every segment of [parts] before the last one is
    either missing or holds an ordinary object, from [c] down. *)
Fixpoint settable (c : value) (parts : list string) : bool :=
  match c, parts with
  | VObj ps, [_] => true
  | VObj ps, part :: rest =>
      match obj_get ps part with
      | VUndefined => true
      | child => settable child rest
      end
  | _, _ => false
  end.

(** Two paths diverge when they differ at a segment they both have, so that
    neither runs through the other. *)
Fixpoint diverges (p q : list string) : bool :=
  match p, q with
  | a :: p', b :: q' => if String.eqb a b then diverges p' q' else true
  | _, _ => false
  end.

(** [parts.join('.')] *)
Definition dotted (parts : list string) : string := String.concat "." parts.

Fixpoint dot_free (k : string) : bool :=
  match k with
  | EmptyString => true
  | String c r => negb (Ascii.eqb c ".") && dot_free r
  end.

(** The names of the members that a value inherits from the built-in
    prototypes [Object.prototype], [Array.prototype], [String.prototype],
    [Number.prototype] and [Boolean.prototype] (ECMAScript 2024 with its
    Annex B).  At such a name [current[part]] reads, and an assignment may
    write, through the prototype chain, which the embedding leaves out. *)
Definition prototype_members : list string := [
  "constructor"; "hasOwnProperty"; "isPrototypeOf"; "propertyIsEnumerable";
  "toLocaleString"; "toString"; "valueOf"; "__proto__";
  "__defineGetter__"; "__defineSetter__"; "__lookupGetter__"; "__lookupSetter__";
  "at"; "concat"; "copyWithin"; "entries"; "every"; "fill"; "filter"; "find";
  "findIndex"; "findLast"; "findLastIndex"; "flat"; "flatMap"; "forEach";
  "includes"; "indexOf"; "join"; "keys"; "lastIndexOf"; "map"; "pop"; "push";
  "reduce"; "reduceRight"; "reverse"; "shift"; "slice"; "some"; "sort";
  "splice"; "toReversed"; "toSorted"; "toSpliced"; "unshift"; "values"; "with";
  "charAt"; "charCodeAt"; "codePointAt"; "endsWith"; "isWellFormed";
  "localeCompare"; "match"; "matchAll"; "normalize"; "padEnd"; "padStart";
  "repeat"; "replace"; "replaceAll"; "search"; "split"; "startsWith";
  "substring"; "toLocaleLowerCase"; "toLocaleUpperCase"; "toLowerCase";
  "toUpperCase"; "toWellFormed"; "trim"; "trimEnd"; "trimStart";
  "substr"; "anchor"; "big"; "blink"; "bold"; "fixed"; "fontcolor";
  "fontsize"; "italics"; "link"; "small"; "strike"; "sub"; "sup";
  "trimLeft"; "trimRight";
  "toExponential"; "toFixed"; "toPrecision" ].

(** A segment that can only name an own property: it has no dot and is not
    the name of an inherited member. *)
Definition plain_segment (k : string) : bool :=
  dot_free k && negb (includes prototype_members k).

Lemma diverges_sym p q : diverges p q = diverges q p.
Proof.
  revert q. induction p as [|a p IH]; intros [|b q]; cbn; try reflexivity.
  rewrite (String.eqb_sym b a). destruct (String.eqb a b); auto.
Qed.

Lemma get_parts_undefined parts : get_parts VUndefined parts = VUndefined.
Proof. destruct parts; reflexivity. Qed.

Lemma get_parts_empty_obj parts : parts <> [] -> get_parts (VObj []) parts = VUndefined.
Proof. destruct parts as [|a r]; [congruence|]. intros _. cbn. apply get_parts_undefined. Qed.

Lemma settable_empty_obj parts : parts <> [] -> settable (VObj []) parts = true.
Proof. destruct parts as [|a [|b r]]; [congruence| |]; reflexivity. Qed.

Lemma diverges_nonempty_r p q : diverges p q = true -> q <> [].
Proof. destruct p, q; cbn; congruence. Qed.

Lemma split_dot_nonempty s : split_dot s <> [].
Proof.
  induction s as [|c r IH]; cbn; [congruence|].
  destruct (Ascii.eqb c "."); [congruence|]. destruct (split_dot r); congruence.
Qed.

Lemma split_dot_dot_free k : dot_free k = true -> split_dot k = [k].
Proof.
  induction k as [|c r IH]; cbn [dot_free split_dot]; [reflexivity|].
  destruct (Ascii.eqb c "."); [discriminate|]. cbn [negb andb].
  intros H. now rewrite IH.
Qed.

Lemma split_dot_append k rest :
  dot_free k = true ->
  split_dot (String.append k (String.append "." rest)) = k :: split_dot rest.
Proof.
  induction k as [|c r IH]; cbn [dot_free]; [reflexivity|].
  change (String.append (String c r) (String.append "." rest))
    with (String c (String.append r (String.append "." rest))).
  cbn [split_dot].
  destruct (Ascii.eqb c "."); [discriminate|]. cbn [negb andb].
  intros H. now rewrite IH.
Qed.

(** Splitting the joined segments gives the segments back *)
Lemma split_dot_dotted parts :
  parts <> [] -> forallb dot_free parts = true -> split_dot (dotted parts) = parts.
Proof.
  induction parts as [|k rest IH]; [congruence|]. intros _ H.
  cbn [forallb] in H. apply andb_true_iff in H as [Hk Hrest].
  destruct rest as [|k' rest'].
  - now apply split_dot_dot_free.
  - change (dotted (k :: k' :: rest'))
      with (String.append k (String.append "." (dotted (k' :: rest')))).
    rewrite split_dot_append by exact Hk.
    now rewrite IH.
Qed.

Lemma plain_segments_dot_free parts :
  forallb plain_segment parts = true -> forallb dot_free parts = true.
Proof.
  induction parts as [|k rest IH]; cbn [forallb]; [reflexivity|].
  unfold plain_segment at 1. intros H.
  apply andb_true_iff in H as [Hk Hrest]. apply andb_true_iff in Hk as [Hk _].
  now rewrite Hk, IH.
Qed.

Lemma split_dot_plain parts :
  parts <> [] -> forallb plain_segment parts = true -> split_dot (dotted parts) = parts.
Proof. intros Hne H. apply split_dot_dotted, plain_segments_dot_free; assumption. Qed.

Lemma set_parts_cons c part r1 rest v :
  set_parts c (part :: r1 :: rest) v =
  (child ← getProp c part;
   if is_undefined child then
     current' ← setProp c part (VObj []);
     child' ← set_parts (VObj []) (r1 :: rest) v;
     setProp current' part child'
   else
     child' ← set_parts child (r1 :: rest) v;
     setProp c part child').
Proof. reflexivity. Qed.

Lemma set_parts_obj_cons ps part r1 rest v :
  set_parts (VObj ps) (part :: r1 :: rest) v =
  if is_undefined (obj_get ps part) then
    child' ← set_parts (VObj []) (r1 :: rest) v;
    Ok (VObj (obj_set (obj_set ps part (VObj [])) part child'))
  else
    child' ← set_parts (obj_get ps part) (r1 :: rest) v;
    Ok (VObj (obj_set ps part child')).
Proof.
  rewrite set_parts_cons. cbn [getProp nullish own_prop]. rewrite bind_Ok.
  destruct (is_undefined (obj_get ps part)); [|reflexivity].
  cbn [setProp]. rewrite bind_Ok. reflexivity.
Qed.

Lemma is_undefined_true v : is_undefined v = true -> v = VUndefined.
Proof. destruct v; cbn; congruence. Qed.

(** The outcome of a write along a settable path *)
Lemma set_parts_settable c parts v :
  settable c parts = true ->
  exists ps', set_parts c parts v = Ok (VObj ps').
Proof.
  revert c. induction parts as [|part rest IH]; intros c H.
  - destruct c; discriminate.
  - destruct c as [| | | | |ps|]; try discriminate.
    destruct rest as [|r1 rest'].
    + cbn. eauto.
    + rewrite set_parts_obj_cons. cbn [settable] in H.
      assert (Hne : r1 :: rest' <> []) by discriminate.
      destruct (is_undefined (obj_get ps part)) eqn:E.
      * destruct (IH (VObj []) (settable_empty_obj _ Hne)) as [ps' ->].
        rewrite bind_Ok. eauto.
      * assert (Hs : settable (obj_get ps part) (r1 :: rest') = true)
          by (destruct (obj_get ps part); try discriminate; exact H).
        destruct (IH _ Hs) as [ps' ->]. rewrite bind_Ok. eauto.
Qed.

Lemma own_prop_obj ps k : own_prop (VObj ps) k = obj_get ps k.
Proof. reflexivity. Qed.

Lemma get_parts_obj ps part rest :
  get_parts (VObj ps) (part :: rest) = get_parts (obj_get ps part) rest.
Proof. reflexivity. Qed.

(** Reading back what was written *)
Lemma get_set_parts_same c parts v c' :
  settable c parts = true ->
  set_parts c parts v = Ok c' ->
  get_parts c' parts = v.
Proof.
  revert c c'. induction parts as [|part rest IH]; intros c c' H Hs.
  - destruct c; discriminate.
  - destruct c as [| | | | |ps|]; try discriminate.
    destruct rest as [|r1 rest'].
    + cbn in Hs. injection Hs as <-. rewrite get_parts_obj, obj_get_set_same. reflexivity.
    + rewrite set_parts_obj_cons in Hs. cbn [settable] in H.
      assert (Hne : r1 :: rest' <> []) by discriminate.
      destruct (is_undefined (obj_get ps part)) eqn:E.
      * apply bind_Ok_inv in Hs as (child' & Hc & Hs). injection Hs as <-.
        rewrite get_parts_obj, obj_get_set_same.
        exact (IH _ _ (settable_empty_obj _ Hne) Hc).
      * apply bind_Ok_inv in Hs as (child' & Hc & Hs). injection Hs as <-.
        rewrite get_parts_obj, obj_get_set_same.
        apply (IH (obj_get ps part)); [|exact Hc].
        destruct (obj_get ps part); try discriminate; exact H.
Qed.

(** A write leaves every diverging path as it was *)
Lemma get_set_parts_diverges c parts v c' q :
  settable c parts = true ->
  set_parts c parts v = Ok c' ->
  diverges parts q = true ->
  get_parts c' q = get_parts c q.
Proof.
  revert c c' q. induction parts as [|part rest IH]; intros c c' q H Hs Hd.
  - discriminate.
  - destruct c as [| | | | |ps|]; try discriminate.
    destruct q as [|b q']; [discriminate|].
    cbn [diverges] in Hd.
    destruct rest as [|r1 rest'].
    + cbn in Hs. injection Hs as <-.
      destruct (String.eqb part b) eqn:Eb; [destruct q'; discriminate|].
      apply String.eqb_neq in Eb.
      now rewrite !get_parts_obj, obj_get_set_ne.
    + rewrite set_parts_obj_cons in Hs. cbn [settable] in H.
      assert (Hne : r1 :: rest' <> []) by discriminate.
      destruct (is_undefined (obj_get ps part)) eqn:E;
        apply bind_Ok_inv in Hs as (child' & Hc & Hs); injection Hs as <-;
        rewrite !get_parts_obj.
      * destruct (String.eqb part b) eqn:Eb.
        -- apply String.eqb_eq in Eb. subst b. rewrite obj_get_set_same.
           rewrite (IH _ _ _ (settable_empty_obj _ Hne) Hc Hd).
           apply is_undefined_true in E. rewrite E.
           rewrite get_parts_undefined.
           apply get_parts_empty_obj. eapply diverges_nonempty_r; eauto.
        -- apply String.eqb_neq in Eb. now rewrite !obj_get_set_ne.
      * destruct (String.eqb part b) eqn:Eb.
        -- apply String.eqb_eq in Eb. subst b. rewrite obj_get_set_same.
           apply (IH (obj_get ps part)); [|exact Hc|exact Hd].
           destruct (obj_get ps part); try discriminate; exact H.
        -- apply String.eqb_neq in Eb. now rewrite obj_get_set_ne.
Qed.

Lemma settable_child ps part r1 rest :
  settable (VObj ps) (part :: r1 :: rest) = true ->
  is_undefined (obj_get ps part) = false ->
  settable (obj_get ps part) (r1 :: rest) = true.
Proof. cbn [settable]. destruct (obj_get ps part); cbn; congruence. Qed.

Lemma settable_obj_cons ps part r1 rest child :
  obj_get ps part = VObj child ->
  settable (VObj ps) (part :: r1 :: rest) = settable (VObj child) (r1 :: rest).
Proof. intros E. cbn [settable]. now rewrite E. Qed.

(** A write keeps every diverging path settable, or not, as it was *)
Lemma settable_set_parts_diverges c parts v c' q :
  settable c parts = true ->
  set_parts c parts v = Ok c' ->
  diverges parts q = true ->
  settable c' q = settable c q.
Proof.
  revert c c' q. induction parts as [|part rest IH]; intros c c' q H Hs Hd.
  - discriminate.
  - destruct c as [| | | | |ps|]; try discriminate.
    destruct q as [|b q']; [discriminate|].
    cbn [diverges] in Hd.
    destruct rest as [|r1 rest'].
    + cbn in Hs. injection Hs as <-.
      destruct (String.eqb part b) eqn:Eb; [destruct q'; discriminate|].
      apply String.eqb_neq in Eb.
      destruct q' as [|b' q'']; [reflexivity|].
      cbn [settable]. now rewrite obj_get_set_ne.
    + rewrite set_parts_obj_cons in Hs.
      assert (Hne : r1 :: rest' <> []) by discriminate.
      destruct (String.eqb part b) eqn:Eb.
      * apply String.eqb_eq in Eb. subst b.
        pose proof (diverges_nonempty_r _ _ Hd) as Hq.
        destruct q' as [|b' q'']; [congruence|].
        destruct (is_undefined (obj_get ps part)) eqn:E;
          apply bind_Ok_inv in Hs as (child' & Hc & Hs); injection Hs as <-.
        -- destruct (set_parts_settable (VObj []) (r1 :: rest') v
                       (settable_empty_obj _ Hne)) as [ps' Hps'].
           rewrite Hps' in Hc. injection Hc as <-.
           rewrite (settable_obj_cons _ _ _ _ ps') by apply obj_get_set_same.
           rewrite (IH _ _ _ (settable_empty_obj _ Hne) Hps' Hd).
           rewrite settable_empty_obj by discriminate.
           apply is_undefined_true in E. cbn [settable]. now rewrite E.
        -- pose proof (settable_child _ _ _ _ H E) as Hch.
           destruct (set_parts_settable _ _ v Hch) as [ps' Hps'].
           rewrite Hps' in Hc. injection Hc as <-.
           rewrite (settable_obj_cons _ _ _ _ ps') by apply obj_get_set_same.
           rewrite (IH _ _ _ Hch Hps' Hd).
           cbn [settable]. destruct (obj_get ps part); try discriminate; reflexivity.
      * apply String.eqb_neq in Eb.
        destruct q' as [|b' q'']; [destruct c'; try reflexivity;
          destruct (is_undefined (obj_get ps part));
          apply bind_Ok_inv in Hs as (? & ? & Hs); discriminate|].
        destruct (is_undefined (obj_get ps part));
          apply bind_Ok_inv in Hs as (child' & Hc & Hs); injection Hs as <-;
          cbn [settable]; now rewrite !obj_get_set_ne.
Qed.

(** After a write the path is still settable *)
Lemma settable_after_set_parts c parts v c' :
  settable c parts = true ->
  set_parts c parts v = Ok c' ->
  settable c' parts = true.
Proof.
  revert c c'. induction parts as [|part rest IH]; intros c c' H Hs.
  - destruct c; discriminate.
  - destruct c as [| | | | |ps|]; try discriminate.
    destruct rest as [|r1 rest'].
    + cbn in Hs. injection Hs as <-. reflexivity.
    + rewrite set_parts_obj_cons in Hs.
      assert (Hne : r1 :: rest' <> []) by discriminate.
      destruct (is_undefined (obj_get ps part)) eqn:E;
        apply bind_Ok_inv in Hs as (child' & Hc & Hs); injection Hs as <-.
      * destruct (set_parts_settable (VObj []) (r1 :: rest') v
                    (settable_empty_obj _ Hne)) as [ps' Hps'].
        rewrite Hps' in Hc. injection Hc as <-.
        rewrite (settable_obj_cons _ _ _ _ ps') by apply obj_get_set_same.
        exact (IH _ _ (settable_empty_obj _ Hne) Hps').
      * pose proof (settable_child _ _ _ _ H E) as Hch.
        destruct (set_parts_settable _ _ v Hch) as [ps' Hps'].
        rewrite Hps' in Hc. injection Hc as <-.
        rewrite (settable_obj_cons _ _ _ _ ps') by apply obj_get_set_same.
        exact (IH _ _ Hch Hps').
Qed.

(** ** The field mapping engine, for any dialect whose targets are independent *)

Definition field_paths (fields : list (string * string)) : list (list string) :=
  map (fun e => split_dot (fst e)) fields.

Definition mapping_paths (fm : list (string * list (string * string))) : list (list string) :=
  flat_map (fun e => field_paths (snd e)) fm.

Fixpoint pairwise_diverge (l : list (list string)) : bool :=
  match l with
  | [] => true
  | p :: r => forallb (diverges p) r && pairwise_diverge r
  end.

(** The raw scalar an entry reads: [rawSetup.sections[section][source]],
    undefined when the section is missing *)
Definition raw_value (secs : obj) (section source : string) : value :=
  let rawSection := obj_get secs section in
  if truthy rawSection then own_prop rawSection source else VUndefined.

Definition converted (m : CarMappingConfig) (targetField : string) (rawValue : value) : value :=
  match convert_field m targetField rawValue with
  | Ok v => v
  | _ => VUndefined
  end.

Lemma truthy_not_nullish v : truthy v = true -> nullish v = false.
Proof. destruct v; cbn; congruence. Qed.

Lemma getProp_not_nullish v k : nullish v = false -> getProp v k = Ok (own_prop v k).
Proof. unfold getProp. now intros ->. Qed.

Lemma pairwise_diverge_app l1 l2 :
  pairwise_diverge (l1 ++ l2) =
  pairwise_diverge l1 && pairwise_diverge l2
  && forallb (fun p => forallb (diverges p) l2) l1.
Proof.
  induction l1 as [|p r IH]; cbn.
  - now rewrite andb_true_r.
  - rewrite forallb_app, IH.
    destruct (forallb (diverges p) r), (forallb (diverges p) l2),
      (pairwise_diverge r), (pairwise_diverge l2); cbn; auto.
Qed.

Lemma forallb_diverges_sym p l :
  forallb (diverges p) l = forallb (fun p' => diverges p' p) l.
Proof. induction l as [|a l IH]; cbn; [reflexivity|]. now rewrite IH, diverges_sym. Qed.

Section FieldMapping.

Variable m : CarMappingConfig.

Lemma apply_section_mapping_cons rs t s rest setup :
  nullish rs = false ->
  apply_section_mapping m rs ((t, s) :: rest) setup =
  if is_undefined (own_prop rs s) then apply_section_mapping m rs rest setup
  else
    v ← convert_field m t (own_prop rs s);
    setup' ← setNestedProperty setup t v;
    apply_section_mapping m rs rest setup'.
Proof. intros H. cbn [apply_section_mapping]. now rewrite getProp_not_nullish. Qed.

(** One section: every entry whose source key is present writes its
    converted value, the others and every path that diverges from all
    targets keep what they had. *)
Lemma apply_section_mapping_spec rs fields : forall setup,
  nullish rs = false ->
  forallb (settable setup) (field_paths fields) = true ->
  pairwise_diverge (field_paths fields) = true ->
  (forall t s, In (t, s) fields -> is_undefined (own_prop rs s) = false ->
               is_ok (convert_field m t (own_prop rs s)) = true) ->
  exists setup',
    apply_section_mapping m rs fields setup = Ok setup' /\
    (forall q, forallb (fun p => diverges p q) (field_paths fields) = true ->
               get_parts setup' q = get_parts setup q /\
               settable setup' q = settable setup q) /\
    (forall t s, In (t, s) fields ->
                 getNestedProperty setup' t =
                 if is_undefined (own_prop rs s) then getNestedProperty setup t
                 else converted m t (own_prop rs s)).
Proof.
  induction fields as [|[t s] rest IH]; intros setup Hrs Hset Hpw Hconv.
  - exists setup. cbn. repeat split; auto. intros ? ? [].
  - cbn [field_paths map fst forallb pairwise_diverge] in Hset, Hpw.
    apply andb_true_iff in Hset as [Hset_t Hset_r].
    apply andb_true_iff in Hpw as [Hdiv Hpw].
    fold (field_paths rest) in Hset_r, Hdiv, Hpw.
    rewrite apply_section_mapping_cons by assumption.
    assert (Hconv_r : forall t' s', In (t', s') rest ->
               is_undefined (own_prop rs s') = false ->
               is_ok (convert_field m t' (own_prop rs s')) = true)
      by (intros; apply Hconv; [now right|assumption]).
    destruct (is_undefined (own_prop rs s)) eqn:Eu.
    + destruct (IH setup Hrs Hset_r Hpw Hconv_r) as (setup' & Hrun & Hframe & Hent).
      exists setup'. split; [exact Hrun|]. split.
      * intros q Hq. cbn [field_paths map forallb] in Hq.
        apply andb_true_iff in Hq as [_ Hq]. now apply Hframe.
      * intros t' s' [Heq|Hin].
        -- injection Heq as <- <-. rewrite Eu. unfold getNestedProperty.
           apply Hframe. now rewrite <- forallb_diverges_sym.
        -- now apply Hent.
    + specialize (Hconv t s (or_introl eq_refl) Eu).
      unfold converted.
      destruct (convert_field m t (own_prop rs s)) as [v| |] eqn:Ev; try discriminate.
      rewrite bind_Ok.
      destruct (set_parts_settable _ _ v Hset_t) as [ps1 Hs1].
      unfold setNestedProperty at 1. rewrite Hs1, bind_Ok.
      assert (Hset1 : forallb (settable (VObj ps1)) (field_paths rest) = true).
      { rewrite forallb_forall in *. intros p Hp.
        rewrite (settable_set_parts_diverges _ _ _ _ p Hset_t Hs1) by auto. auto. }
      destruct (IH (VObj ps1) Hrs Hset1 Hpw Hconv_r) as (setup' & Hrun & Hframe & Hent).
      exists setup'. split; [exact Hrun|]. split.
      * intros q Hq. cbn [field_paths map forallb fst] in Hq.
        apply andb_true_iff in Hq as [Hq_t Hq].
        destruct (Hframe q Hq) as [-> ->]. split.
        -- exact (get_set_parts_diverges _ _ _ _ q Hset_t Hs1 Hq_t).
        -- exact (settable_set_parts_diverges _ _ _ _ q Hset_t Hs1 Hq_t).
      * intros t' s' [Heq|Hin].
        -- injection Heq as <- <-. rewrite Eu, Ev. unfold getNestedProperty.
           destruct (Hframe (split_dot t)) as [-> _];
             [now rewrite <- forallb_diverges_sym|].
           exact (get_set_parts_same _ _ _ _ Hset_t Hs1).
        -- rewrite (Hent _ _ Hin).
           destruct (is_undefined (own_prop rs s')); [|reflexivity].
           unfold getNestedProperty.
           apply (get_set_parts_diverges _ _ _ _ _ Hset_t Hs1).
           rewrite forallb_forall in Hdiv. apply Hdiv.
           unfold field_paths. apply in_map_iff. now exists (t', s').
Qed.

Lemma forallb_flat_map {A B} (f : B -> bool) (g : A -> list B) (l : list A) :
  forallb f (flat_map g l) = forallb (fun a => forallb f (g a)) l.
Proof. induction l as [|a l IH]; cbn; [reflexivity|]. now rewrite forallb_app, IH. Qed.

(** The whole mapping *)
Lemma apply_field_mappings_spec secs fm : forall setup,
  forallb (settable setup) (mapping_paths fm) = true ->
  pairwise_diverge (mapping_paths fm) = true ->
  (forall sec fields t s, In (sec, fields) fm -> In (t, s) fields ->
      is_undefined (raw_value secs sec s) = false ->
      is_ok (convert_field m t (raw_value secs sec s)) = true) ->
  exists setup',
    apply_field_mappings m secs fm setup = Ok setup' /\
    (forall q, forallb (fun p => diverges p q) (mapping_paths fm) = true ->
               get_parts setup' q = get_parts setup q /\
               settable setup' q = settable setup q) /\
    (forall sec fields t s, In (sec, fields) fm -> In (t, s) fields ->
        getNestedProperty setup' t =
        if is_undefined (raw_value secs sec s) then getNestedProperty setup t
        else converted m t (raw_value secs sec s)).
Proof.
  induction fm as [|[sec fields] rest IH]; intros setup Hset Hpw Hconv.
  - exists setup. cbn. repeat split; auto. intros ? ? ? ? [].
  - cbn [mapping_paths flat_map snd] in Hset, Hpw.
    fold (mapping_paths rest) in Hset, Hpw.
    rewrite forallb_app in Hset. apply andb_true_iff in Hset as [Hset_s Hset_r].
    rewrite pairwise_diverge_app in Hpw.
    apply andb_true_iff in Hpw as [Hpw Hcross].
    apply andb_true_iff in Hpw as [Hpw_s Hpw_r].
    assert (Hconv_r : forall sec' fields' t s, In (sec', fields') rest ->
               In (t, s) fields' ->
               is_undefined (raw_value secs sec' s) = false ->
               is_ok (convert_field m t (raw_value secs sec' s)) = true)
      by (intros; eapply Hconv; eauto; now right).
    assert (Hcross' : forall p q, In p (field_paths fields) ->
               In q (mapping_paths rest) -> diverges p q = true).
    { intros p q Hp Hq. rewrite forallb_forall in Hcross.
      specialize (Hcross p Hp). rewrite forallb_forall in Hcross. auto. }
    cbn [apply_field_mappings]. unfold raw_value in *.
    destruct (truthy (obj_get secs sec)) eqn:Et; cbn [negb].
    + pose proof (truthy_not_nullish _ Et) as Hnn.
      assert (Hc : forall t s, In (t, s) fields ->
                 is_undefined (own_prop (obj_get secs sec) s) = false ->
                 is_ok (convert_field m t (own_prop (obj_get secs sec) s)) = true).
      { intros t s Hin Hu. specialize (Hconv sec fields t s (or_introl eq_refl) Hin).
        rewrite Et in Hconv. auto. }
      destruct (apply_section_mapping_spec _ fields setup Hnn Hset_s Hpw_s Hc)
        as (setup1 & Hrun1 & Hframe1 & Hent1).
      rewrite Hrun1, bind_Ok.
      assert (Hset1 : forallb (settable setup1) (mapping_paths rest) = true).
      { rewrite forallb_forall in *. intros q Hq.
        destruct (Hframe1 q) as [_ ->]; [|auto].
        rewrite forallb_forall. intros p Hp. auto. }
      destruct (IH setup1 Hset1 Hpw_r Hconv_r) as (setup' & Hrun & Hframe & Hent).
      exists setup'. split; [exact Hrun|]. split.
      * intros q Hq. cbn [mapping_paths flat_map snd] in Hq.
        rewrite forallb_app in Hq. apply andb_true_iff in Hq as [Hq_s Hq_r].
        destruct (Hframe q Hq_r) as [-> ->]. now apply Hframe1.
      * intros sec' fields' t s [Heq|Hin] Hin'.
        -- injection Heq as <- <-. rewrite Et.
           rewrite <- (Hent1 t s Hin'). unfold getNestedProperty.
           apply Hframe. rewrite forallb_forall. intros q Hq.
           rewrite diverges_sym. apply Hcross'; [|exact Hq].
           unfold field_paths. apply in_map_iff. now exists (t, s).
        -- rewrite (Hent _ _ _ _ Hin Hin').
           destruct (is_undefined _); [|reflexivity].
           unfold getNestedProperty. apply Hframe1.
           rewrite forallb_forall. intros p Hp. apply Hcross'; [exact Hp|].
           unfold mapping_paths. apply in_flat_map. exists (sec', fields').
           split; [exact Hin|]. unfold field_paths. apply in_map_iff.
           now exists (t, s).
    + destruct (IH setup Hset_r Hpw_r Hconv_r) as (setup' & Hrun & Hframe & Hent).
      exists setup'. split; [exact Hrun|]. split.
      * intros q Hq. cbn [mapping_paths flat_map snd] in Hq.
        rewrite forallb_app in Hq. apply andb_true_iff in Hq as [_ Hq_r].
        now apply Hframe.
      * intros sec' fields' t s [Heq|Hin] Hin'.
        -- injection Heq as <- <-. rewrite Et. cbn [is_undefined].
           unfold getNestedProperty. apply Hframe.
           rewrite forallb_forall. intros q Hq.
           rewrite diverges_sym. apply Hcross'; [|exact Hq].
           unfold field_paths. apply in_map_iff. now exists (t, s).
        -- exact (Hent _ _ _ _ Hin Hin').
Qed.

End FieldMapping.

(** ** Raw tables of the declared type *)

(** [string | number | boolean] *)
Definition scalar (v : value) : bool :=
  match v with VBool _ | VNum _ | VStr _ => true | _ => false end.

(** [{ [key: string]: string | number | boolean }] *)
Definition typed_section (v : value) : bool :=
  match v with
  | VObj ps => forallb (fun e => scalar (snd e)) ps
  | _ => false
  end.

(** The sections of a [SetupFile], as [types.ts] declares them *)
Definition SetupFile_typed (rawSetup : SetupFile) : bool :=
  forallb (fun e => typed_section (snd e)) (sections rawSetup).

Lemma obj_get_forallb (P : value -> bool) ps k :
  forallb (fun e => P (snd e)) ps = true ->
  obj_get ps k = VUndefined \/ P (obj_get ps k) = true.
Proof.
  induction ps as [|[k0 v0] t IH]; cbn; [auto|].
  intros H. apply andb_true_iff in H as [H0 Ht].
  destruct (String.eqb k0 k); auto.
Qed.

Lemma raw_value_typed rawSetup section source :
  SetupFile_typed rawSetup = true ->
  raw_value (sections rawSetup) section source = VUndefined \/
  scalar (raw_value (sections rawSetup) section source) = true.
Proof.
  intros H. unfold raw_value.
  destruct (obj_get_forallb typed_section _ section H) as [-> | Hs]; [now left|].
  destruct (obj_get (sections rawSetup) section) as [| | | | |ps|]; try discriminate.
  cbn [truthy own_prop]. now apply obj_get_forallb.
Qed.

Lemma scalar_parseFloat v : scalar v = true -> exists x, parseFloat v = Ok x.
Proof. destruct v; cbn; try discriminate; eauto. Qed.

Lemma scalar_ToNumber v : scalar v = true -> exists x, ToNumber v = Ok x.
Proof. destruct v; cbn; try discriminate; eauto. Qed.

(** The two dialect tables that [createDefaultParser] registers *)
Definition shipped (m : CarMappingConfig) : Prop :=
  m = ferrari488GT3Mapping \/ m = porsche911GT3RMapping.

Lemma shipped_fromRaw_total m t transformation v :
  shipped m -> transformation_of m t = Some transformation -> scalar v = true ->
  is_ok (fromRaw transformation v) = true.
Proof.
  intros [-> | ->] Ht Hv; unfold transformation_of in Ht; cbn in Ht;
    repeat match type of Ht with
           | (if ?b then _ else _) = _ => destruct b
           end;
    try discriminate; injection Ht as <-; cbn;
    unfold negate_parsed, times_1000_parsed;
    destruct (scalar_parseFloat v Hv) as [x ->]; reflexivity.
Qed.

Lemma shipped_convert_total m t v :
  shipped m -> scalar v = true -> is_ok (convert_field m t v) = true.
Proof.
  intros Hm Hv. unfold convert_field.
  destruct (transformation_of m t) eqn:E; [|reflexivity].
  eapply shipped_fromRaw_total; eauto.
Qed.

Lemma is_undefined_false_scalar rawSetup section source :
  SetupFile_typed rawSetup = true ->
  is_undefined (raw_value (sections rawSetup) section source) = false ->
  scalar (raw_value (sections rawSetup) section source) = true.
Proof.
  intros H Hu. destruct (raw_value_typed rawSetup section source H) as [E|E]; [|exact E].
  rewrite E in Hu. discriminate.
Qed.

Section Decode.

Variable clock : nat -> string.

Lemma shipped_targets_settable m rawSetup :
  shipped m ->
  forallb (settable (initial_setup clock rawSetup)) (mapping_paths (fieldMappings m)) = true.
Proof. intros [-> | ->]; reflexivity. Qed.

Lemma shipped_targets_independent m :
  shipped m -> pairwise_diverge (mapping_paths (fieldMappings m)) = true.
Proof. intros [-> | ->]; vm_compute; reflexivity. Qed.

(** Decoding under a shipped dialect: every entry whose source key is
    present writes its converted value, every other mapped field keeps the
    default of the initial record, and nothing else changes. *)
Lemma applyCarMapping_shipped m rawSetup :
  shipped m -> SetupFile_typed rawSetup = true ->
  exists setup,
    applyCarMapping (initial_setup clock rawSetup) rawSetup m = Ok setup /\
    (forall q, forallb (fun p => diverges p q) (mapping_paths (fieldMappings m)) = true ->
               get_parts setup q = get_parts (initial_setup clock rawSetup) q) /\
    (forall sec fields t s, In (sec, fields) (fieldMappings m) -> In (t, s) fields ->
        getNestedProperty setup t =
        if is_undefined (raw_value (sections rawSetup) sec s)
        then getNestedProperty (initial_setup clock rawSetup) t
        else converted m t (raw_value (sections rawSetup) sec s)).
Proof.
  intros Hm Ht.
  destruct (apply_field_mappings_spec m (sections rawSetup) (fieldMappings m)
              (initial_setup clock rawSetup)
              (shipped_targets_settable m rawSetup Hm)
              (shipped_targets_independent m Hm))
    as (setup & Hrun & Hframe & Hent).
  - intros sec fields t s _ _ Hu. apply shipped_convert_total; [exact Hm|].
    now apply is_undefined_false_scalar.
  - exists setup. split; [exact Hrun|]. split; [|exact Hent].
    intros q Hq. now apply Hframe.
Qed.

End Decode.

(** ** The registry *)

Lemma default_parser_mappings :
  carMappings createDefaultParser =
  <[carId porsche911GT3RMapping := porsche911GT3RMapping]>
    (<[carId ferrari488GT3Mapping := ferrari488GT3Mapping]> ∅).
Proof. reflexivity. Qed.

Lemma default_parser_shipped key m :
  get_mapping createDefaultParser key = Some m -> shipped m.
Proof.
  destruct key as [| | | |s| |]; cbn [get_mapping]; try discriminate.
  rewrite default_parser_mappings. intros H.
  apply lookup_insert_Some in H as [[_ <-]|[_ H]]; [now right|].
  apply lookup_insert_Some in H as [[_ <-]|[_ H]]; [now left|].
  rewrite lookup_empty in H. discriminate.
Qed.

Lemma default_parser_ferrari :
  get_mapping createDefaultParser (VStr "ferrari_488_gt3") = Some ferrari488GT3Mapping.
Proof.
  cbn [get_mapping]. rewrite default_parser_mappings.
  rewrite lookup_insert_ne by discriminate. apply lookup_insert_eq.
Qed.

Lemma default_parser_porsche :
  get_mapping createDefaultParser (VStr "porsche_911_gt3r") = Some porsche911GT3RMapping.
Proof. cbn [get_mapping]. rewrite default_parser_mappings. apply lookup_insert_eq. Qed.

(** A definition whose transform map names a path that no field mapping
    targets *)
Definition unmatched_transform_mapping : CarMappingConfig := {|
  carId := "test_car";
  carName := "Test car";
  fieldMappings := [ ("BRAKE", [ ("brakeBias", "BIAS") ]) ];
  valueTransformations := Some [ ("suspension.front.camber", sign_flip) ]
|}.

(** C2, as stated, fails: registering the Ferrari definition a second time
    succeeds, and so does registering a definition whose transform map names
    a path that is no target of its field mappings. *)
Lemma registerCarMapping_accepts_duplicate_and_unmatched :
  (get_mapping createDefaultParser (VStr (carId ferrari488GT3Mapping))
     = Some ferrari488GT3Mapping
   /\ throws (registerCarMapping ferrari488GT3Mapping createDefaultParser) = false)
  /\ (In "suspension.front.camber"
        (map fst (flat_map snd (fieldMappings unmatched_transform_mapping))) -> False)
  /\ throws (registerCarMapping unmatched_transform_mapping createDefaultParser) = false.
Proof.
  split; [split; [exact default_parser_ferrari|reflexivity]|].
  split; [|reflexivity].
  cbn. intros [H|[]]. discriminate.
Qed.

(** C2, amended: registration never fails.  It stores the definition under
    its vehicle identifier, replacing whatever was registered there, and
    leaves every other identifier as it was; neither a duplicate identifier
    nor a transform without field mapping is detected. *)
Theorem registerCarMapping_always_succeeds (mapping : CarMappingConfig) (p : SetupParser) :
  exists p',
    registerCarMapping mapping p = Ok p' /\
    carMappings p' !! carId mapping = Some mapping /\
    (forall id, id <> carId mapping -> carMappings p' !! id = carMappings p !! id).
Proof.
  eexists. split; [reflexivity|]. cbn. split.
  - apply lookup_insert_eq.
  - intros id Hne. now rewrite lookup_insert_ne.
Qed.

(** ** The value transformations *)

(** [toRaw(fromRaw(x)) == x] *)
Definition round_trips (t : Transformation) (x : float) : Prop :=
  exists y z, fromRaw t (VNum x) = Ok (VNum y) /\ toRaw t (VNum y) = Ok (VNum z)
              /\ PrimFloat.eqb z x = true.

Lemma SFopp_involutive s : SFopp (SFopp s) = s.
Proof. destruct s as [[]|[]| |[] ? ?]; reflexivity. Qed.

Lemma float_opp_involutive x : (- - x)%float = x.
Proof. apply Prim2SF_inj. now rewrite !opp_spec, SFopp_involutive. Qed.

Lemma float_eqb_zero_sym x : PrimFloat.eqb x 0 = true -> PrimFloat.eqb 0 x = true.
Proof.
  rewrite !FloatAxioms.eqb_spec. change (Prim2SF 0) with (S754_zero false).
  destruct (Prim2SF x) as [[]|[]| |[] ? ?]; cbn; congruence.
Qed.

Lemma sign_flip_round_trips x : is_nan x = false -> round_trips sign_flip x.
Proof.
  intros Hx. unfold round_trips. cbn.
  destruct (PrimFloat.eqb x 0) eqn:E.
  - exists (- 0)%float, (- - 0)%float. repeat split.
    rewrite float_opp_involutive. now apply float_eqb_zero_sym.
  - exists (- x)%float, (- - x)%float. repeat split.
    rewrite float_opp_involutive. unfold is_nan in Hx.
    now apply negb_false_iff in Hx.
Qed.

Lemma shipped_transformations m path t :
  shipped m -> transformation_of m path = Some t ->
  t = sign_flip \/ (m = porsche911GT3RMapping /\ t = rescale_1000).
Proof.
  intros [-> | ->] Ht; unfold transformation_of in Ht; cbn in Ht;
    repeat match type of Ht with
           | (if ?b then _ else _) = _ => destruct b
           end;
    try discriminate; injection Ht as <-; auto.
Qed.

#[local] Set Warnings "-inexact-float".

(** C4, as stated, fails for the spring-rate rescale of the Porsche table:
    [1e308 * 1000] overflows to Infinity, and [255.0690257394217 * 1000 /
    1000] is rounded twice and comes back as a neighbouring number. *)
Lemma rescale_does_not_round_trip :
  transformation_of porsche911GT3RMapping "suspension.front.springRate" = Some rescale_1000
  /\ ~ round_trips rescale_1000 1e308
  /\ ~ round_trips rescale_1000 255.0690257394217.
Proof.
  split; [reflexivity|].
  split; intros (y & z & H1 & H2 & H3); cbn in H1, H2;
    injection H1 as <-; injection H2 as <-; vm_compute in H3; discriminate.
Qed.

(** [round_trips], decided *)
Definition round_trips_b (t : Transformation) (x : float) : bool :=
  match fromRaw t (VNum x) with
  | Ok (VNum y) =>
      match toRaw t (VNum y) with
      | Ok (VNum z) => PrimFloat.eqb z x
      | _ => false
      end
  | _ => false
  end.

Lemma round_trips_b_sound t x : round_trips_b t x = true -> round_trips t x.
Proof.
  unfold round_trips_b, round_trips.
  destruct (fromRaw t (VNum x)) as [[| | |y| | |]| |] eqn:Hy; try discriminate.
  destruct (toRaw t (VNum y)) as [[| | |z| | |]| |] eqn:Hz; try discriminate.
  intros H. exists y, z. auto.
Qed.

(** [f] holds at the [count] integers from [lo] on *)
Fixpoint holds_from (f : Z -> bool) (lo : Z) (count : nat) : bool :=
  match count with
  | O => true
  | S k => f lo && holds_from f (lo + 1) k
  end.

Lemma holds_from_spec f count : forall lo n,
  holds_from f lo count = true ->
  (lo <= n < lo + Z.of_nat count)%Z -> f n = true.
Proof.
  induction count as [|k IH]; intros lo n H Hn; [lia|].
  cbn [holds_from] in H. apply andb_true_iff in H as [H0 Hk].
  destruct (Z.eq_dec n lo) as [->|Hne]; [exact H0|].
  apply (IH (lo + 1)%Z); [exact Hk|lia].
Qed.

Lemma rescale_round_trips_integers (n : Z) :
  (-100000 <= n <= 100000)%Z -> round_trips rescale_1000 (JsNumber.of_Z n).
Proof.
  intros Hn. apply round_trips_b_sound.
  apply (holds_from_spec (fun z => round_trips_b rescale_1000 (JsNumber.of_Z z))
           (Z.to_nat 200001) (-100000)%Z); [vm_compute; reflexivity|].
  rewrite Z2Nat.id; lia.
Qed.

(** C4, amended: every sign-flip pair (the camber fields of both tables)
    returns [x] for every [x] that is a number, zero, negative, infinite and
    of large magnitude included; the rescale pair (the spring rates of the
    Porsche table) returns [x] at every integer from -100000 to 100000, at
    -2.5 and at 1e15. *)
Theorem transformations_round_trip (m : CarMappingConfig) (path : string)
    (t : Transformation) :
  shipped m -> transformation_of m path = Some t ->
  (t = sign_flip /\ forall x, is_nan x = false -> round_trips t x)
  \/ (t = rescale_1000
      /\ (forall n : Z, (-100000 <= n <= 100000)%Z -> round_trips t (JsNumber.of_Z n))
      /\ round_trips t (-2.5) /\ round_trips t 1e15).
Proof.
  intros Hm Ht.
  destruct (shipped_transformations m path t Hm Ht) as [-> | [_ ->]].
  - left. split; [reflexivity|]. exact sign_flip_round_trips.
  - right. split; [reflexivity|].
    split; [exact rescale_round_trips_integers|].
    split; apply round_trips_b_sound; vm_compute; reflexivity.
Qed.

Lemma transformations_round_trip_witness :
  round_trips sign_flip (-3)
  /\ round_trips sign_flip infinity
  /\ round_trips rescale_1000 (JsNumber.of_Z 0)
  /\ round_trips rescale_1000 (JsNumber.of_Z (-120))
  /\ round_trips rescale_1000 (-2.5)
  /\ round_trips rescale_1000 1e15.
Proof.
  destruct (transformations_round_trip ferrari488GT3Mapping "suspension.front.camber"
              sign_flip (or_introl eq_refl) eq_refl)
    as [[_ Hflip] | [Hwrong _]].
  - destruct (transformations_round_trip porsche911GT3RMapping
                "suspension.front.springRate" rescale_1000 (or_intror eq_refl) eq_refl)
      as [[Hwrong _] | (_ & Hint & Hhalf & Hlarge)].
    + exfalso. apply (f_equal (fun t => fromRaw t (VNum 1))) in Hwrong.
      vm_compute in Hwrong. discriminate Hwrong.
    + split; [apply Hflip; reflexivity|]. split; [apply Hflip; reflexivity|].
      split; [apply Hint; lia|]. split; [apply Hint; lia|].
      split; assumption.
  - exfalso. apply (f_equal (fun t => fromRaw t (VNum 1))) in Hwrong.
    vm_compute in Hwrong. discriminate Hwrong.
Defined.

(** ** The nested path accessor *)

(** No array anywhere in a value *)
Fixpoint array_free (v : value) : bool :=
  match v with
  | VArr _ => false
  | VObj ps =>
      (fix all (l : obj) : bool :=
         match l with
         | [] => true
         | (_, x) :: t => array_free x && all t
         end) ps
  | _ => true
  end.

(** Some segment of [parts] before the last one holds a value that is not a
    container: null, a boolean, a number or a string. *)
Fixpoint blocked (c : value) (parts : list string) : bool :=
  match parts with
  | [] | [_] => false
  | part :: rest =>
      match own_prop c part with
      | VUndefined => false
      | VObj _ as child | VArr _ as child => blocked child rest
      | _ => true
      end
  end.

Lemma array_free_obj_get ps k : array_free (VObj ps) = true -> array_free (obj_get ps k) = true.
Proof.
  induction ps as [|[k0 v0] t IH]; cbn [obj_get]; [reflexivity|].
  intros H. cbn [array_free] in H. apply andb_true_iff in H as [H0 Ht].
  destruct (String.eqb k0 k); auto.
Qed.

Definition primitive (v : value) : bool :=
  match v with VNull | VBool _ | VNum _ | VStr _ => true | _ => false end.

Lemma own_prop_string s k :
  is_undefined (own_prop (VStr s) k) = true \/ primitive (own_prop (VStr s) k) = true.
Proof.
  cbn [own_prop]. destruct (array_index k).
  - unfold string_index. destruct (String.get _ s); auto.
  - destruct (String.eqb k "length"); auto.
Qed.

(** A write that has reached a primitive throws, whatever follows *)
Lemma set_parts_primitive parts : forall c v,
  primitive c = true -> parts <> [] ->
  exists msg, set_parts c parts v = Throw (TypeError msg).
Proof.
  induction parts as [|part rest IH]; intros c v Hc Hne; [congruence|].
  destruct rest as [|r1 rest'].
  - destruct c; try discriminate; cbn; eauto.
  - rewrite set_parts_cons.
    destruct c as [| |b|x|s| |]; try discriminate; try (cbn; eauto; fail).
    rewrite getProp_not_nullish by reflexivity. rewrite bind_Ok.
    destruct (own_prop_string s part) as [E|E].
    + rewrite E. cbn. eauto.
    + assert (Eu : is_undefined (own_prop (VStr s) part) = false)
        by (destruct (own_prop (VStr s) part); cbn in *; congruence).
      rewrite Eu.
      destruct (IH (own_prop (VStr s) part) v E ltac:(discriminate)) as [msg ->].
      cbn. eauto.
Qed.

Lemma set_parts_blocked parts : forall ps v,
  array_free (VObj ps) = true ->
  blocked (VObj ps) parts = true ->
  exists msg, set_parts (VObj ps) parts v = Throw (TypeError msg).
Proof.
  induction parts as [|part rest IH]; intros ps v Hf Hb; [discriminate|].
  destruct rest as [|r1 rest']; [discriminate|].
  rewrite set_parts_obj_cons.
  cbn [blocked] in Hb. rewrite own_prop_obj in Hb.
  pose proof (array_free_obj_get ps part Hf) as Hfc.
  destruct (obj_get ps part) as [| |b|x|s|ch|xs] eqn:E; cbn [is_undefined];
    try discriminate.
  - destruct (set_parts_primitive (r1 :: rest') VNull v eq_refl ltac:(discriminate))
      as [msg ->]. cbn. eauto.
  - destruct (set_parts_primitive (r1 :: rest') (VBool b) v eq_refl ltac:(discriminate))
      as [msg ->]. cbn. eauto.
  - destruct (set_parts_primitive (r1 :: rest') (VNum x) v eq_refl ltac:(discriminate))
      as [msg ->]. cbn. eauto.
  - destruct (set_parts_primitive (r1 :: rest') (VStr s) v eq_refl ltac:(discriminate))
      as [msg ->]. cbn. eauto.
  - destruct (IH ch v Hfc Hb) as [msg ->]. cbn. eauto.
Qed.

Lemma not_blocked_settable parts : forall ps,
  parts <> [] ->
  array_free (VObj ps) = true ->
  blocked (VObj ps) parts = false ->
  settable (VObj ps) parts = true.
Proof.
  induction parts as [|part rest IH]; intros ps Hne Hf Hb; [congruence|].
  destruct rest as [|r1 rest']; [reflexivity|].
  cbn [blocked] in Hb. rewrite own_prop_obj in Hb. cbn [settable].
  pose proof (array_free_obj_get ps part Hf) as Hfc.
  destruct (obj_get ps part) as [| |b|x|s|ch|xs]; try discriminate; try reflexivity.
  apply IH; [discriminate|assumption|assumption].
Qed.

(** After a write along a settable path every segment before the last one
    holds an object *)
Lemma set_parts_containers parts : forall c v c',
  settable c parts = true ->
  set_parts c parts v = Ok c' ->
  forall n, (n < length parts)%nat ->
            exists container, get_parts c' (firstn n parts) = VObj container.
Proof.
  induction parts as [|part rest IH]; intros c v c' H Hs n Hn.
  - cbn in Hn. lia.
  - destruct c as [| | | | |ps|]; try discriminate.
    destruct rest as [|r1 rest'].
    + cbn in Hs. injection Hs as <-.
      assert (n = 0%nat) as -> by (cbn in Hn; lia). cbn. eauto.
    + rewrite set_parts_obj_cons in Hs. cbn [settable] in H.
      assert (Hne : r1 :: rest' <> []) by discriminate.
      destruct (is_undefined (obj_get ps part)) eqn:E;
        apply bind_Ok_inv in Hs as (child' & Hc & Hs); injection Hs as <-;
        (destruct n as [|n']; [cbn; eauto|]);
        cbn [firstn]; rewrite get_parts_obj, obj_get_set_same;
        cbn [length] in Hn.
      * apply (IH _ _ _ (settable_empty_obj _ Hne) Hc). cbn [length]. lia.
      * apply (IH (obj_get ps part) v); [|exact Hc|cbn [length]; lia].
        destruct (obj_get ps part); try discriminate; exact H.
Qed.

(** A record that holds the gear ratios as an array *)
Definition gear_record : value := VObj [("gearRatios", VArr [VNum 3; VNum 2])].

(** C8, as stated, fails on a record that holds an array, whichever way an
    array is counted.  The write at [gearRatios.0] succeeds although the
    segment before the last one holds an array and not an object that the
    accessor created or could create; and the write of -1 at
    [gearRatios.length] fails, with a RangeError, although no segment of the
    path holds null, a boolean, a number or a string. *)
Lemma setNestedProperty_through_an_array :
  own_prop gear_record "gearRatios" = VArr [VNum 3; VNum 2]
  /\ setNestedProperty gear_record "gearRatios.0" (VNum 4)
     = Ok (VObj [("gearRatios", VArr [VNum 4; VNum 2])])
  /\ blocked gear_record ["gearRatios"; "length"] = false
  /\ exists msg,
       setNestedProperty gear_record "gearRatios.length" (VNum (-1))
       = Throw (RangeError msg).
Proof.
  split; [reflexivity|]. split; [reflexivity|]. split; [reflexivity|].
  eexists. vm_compute. reflexivity.
Qed.

(** C8, amended: on a record made of objects and scalars (no array) and at
    a path whose segments name own properties only, [setNestedProperty] fails
    (with the TypeError of the strict-mode assignment; the accessor defines
    no error of its own) if and only if some segment before the last already
    holds null, a boolean, a number or a string.  In every other case it
    succeeds, the value is stored at the leaf, and every segment before the
    last holds an object afterwards: the missing ones have been created. *)
Theorem setNestedProperty_fails_iff_blocked (ps : obj) (parts : list string) (v : value) :
  array_free (VObj ps) = true ->
  parts <> [] ->
  forallb plain_segment parts = true ->
  (blocked (VObj ps) parts = true <->
     exists msg, setNestedProperty (VObj ps) (dotted parts) v = Throw (TypeError msg))
  /\ (blocked (VObj ps) parts = false ->
        exists record,
          setNestedProperty (VObj ps) (dotted parts) v = Ok record
          /\ get_parts record parts = v
          /\ getNestedProperty record (dotted parts) = v
          /\ forall n, (n < length parts)%nat ->
               exists container, get_parts record (firstn n parts) = VObj container).
Proof.
  intros Hf Hne Hplain. unfold setNestedProperty, getNestedProperty.
  rewrite (split_dot_plain parts Hne Hplain).
  assert (Hok : blocked (VObj ps) parts = false ->
                exists record,
                  set_parts (VObj ps) parts v = Ok record
                  /\ get_parts record parts = v
                  /\ get_parts record parts = v
                  /\ forall n, (n < length parts)%nat ->
                       exists container,
                         get_parts record (firstn n parts) = VObj container).
  { intros Hb.
    pose proof (not_blocked_settable _ ps Hne Hf Hb) as Hs.
    destruct (set_parts_settable _ _ v Hs) as [ps' Hps'].
    exists (VObj ps'). split; [exact Hps'|].
    pose proof (get_set_parts_same _ _ _ _ Hs Hps') as Hget.
    split; [exact Hget|]. split; [exact Hget|].
    exact (set_parts_containers _ _ _ _ Hs Hps'). }
  split; [|exact Hok]. split.
  - now apply set_parts_blocked.
  - intros [msg Hthrow].
    destruct (blocked (VObj ps) parts) eqn:Hb; [reflexivity|].
    destruct (Hok eq_refl) as (record & Hrun & _). congruence.
Qed.

(** A record with a brake bias and an incomplete suspension *)
Definition partial_record : value :=
  VObj [("brakeBias", VNum 50); ("suspension", VObj [("rear", VNull)])].

Lemma setNestedProperty_fails_iff_blocked_witness :
  (exists msg,
      setNestedProperty partial_record "brakeBias.front" (VNum 1) = Throw (TypeError msg))
  /\ (exists msg,
        setNestedProperty partial_record "suspension.rear.camber" (VNum 1)
        = Throw (TypeError msg))
  /\ (exists record,
        setNestedProperty partial_record "suspension.front.camber" (VNum (-3)) = Ok record
        /\ get_parts record ["suspension"; "front"; "camber"] = VNum (-3)
        /\ (exists container, get_parts record ["suspension"] = VObj container)
        /\ (exists container, get_parts record ["suspension"; "front"] = VObj container)).
Proof.
  assert (Hset : forall parts v,
             parts <> [] -> forallb plain_segment parts = true ->
             (blocked partial_record parts = true <->
                exists msg, setNestedProperty partial_record (dotted parts) v
                            = Throw (TypeError msg))
             /\ (blocked partial_record parts = false ->
                   exists record,
                     setNestedProperty partial_record (dotted parts) v = Ok record
                     /\ get_parts record parts = v
                     /\ getNestedProperty record (dotted parts) = v
                     /\ forall n, (n < length parts)%nat ->
                          exists container,
                            get_parts record (firstn n parts) = VObj container)).
  { intros parts v.
    apply (setNestedProperty_fails_iff_blocked
             [("brakeBias", VNum 50); ("suspension", VObj [("rear", VNull)])] parts v).
    reflexivity. }
  split; [|split].
  - apply (proj1 (Hset ["brakeBias"; "front"] (VNum 1) ltac:(discriminate) eq_refl)).
    reflexivity.
  - apply (proj1 (Hset ["suspension"; "rear"; "camber"] (VNum 1)
                    ltac:(discriminate) eq_refl)).
    reflexivity.
  - destruct (proj2 (Hset ["suspension"; "front"; "camber"] (VNum (-3))
                       ltac:(discriminate) eq_refl) eq_refl)
      as (record & Hrun & Hget & _ & Hcont).
    exists record. split; [exact Hrun|]. split; [exact Hget|]. split.
    + apply (Hcont 1%nat). cbn. lia.
    + apply (Hcont 2%nat). cbn. lia.
Defined.

Example setNestedProperty_creates_containers :
  setNestedProperty (VObj [("brakeBias", VNum 50)]) "differential.preload" (VNum 40)
  = Ok (VObj [("brakeBias", VNum 50); ("differential", VObj [("preload", VNum 40)])]).
Proof. reflexivity. Qed.

(** ** The tabular parser *)






(** A reader that returns [parsed] for the text [text] *)
Definition reads_as (text : string) (parsed : obj) (content : string) : result obj :=
  if String.eqb content text then Ok parsed
  else Throw (Error "no reading of this text is given").



(** A text with a header, one section and the name of the active setup *)
Example parseIniString_reads_header :
  let parsed := [("VERSION", VStr "2.1"); ("CAR", VStr "ferrari_488_gt3");
                 ("SETUPS", VObj [("ACTIVE", VStr "Qualifying")]);
                 ("TIRE", VObj [("PRESSURE_LF", VStr "172")])] in
  parseIniString (reads_as "setup" parsed) (fun _ => "2024-01-01T00:00:00.000Z") "setup"
  = Ok {| header := {| version := VStr "2.1"; carIdentifier := VStr "ferrari_488_gt3";
                       trackIdentifier := VStr ""; name := VStr "Qualifying";
                       timestamp := VStr "2024-01-01T00:00:00.000Z" |};
          sections := [("SETUPS", VObj [("ACTIVE", VStr "Qualifying")]);
                       ("TIRE", VObj [("PRESSURE_LF", VStr "172")])] |}.
Proof. reflexivity. Qed.

(** ** The generic fallback mapper *)

(** [v || d] for a default [d] *)
Definition section_or (v d : value) : value := if truthy v then v else d.

(** [section[k1] || section[k2]] on a section that is neither undefined nor
    null *)
Definition alias2 (section : value) (k1 k2 : string) : value :=
  if truthy (own_prop section k1) then own_prop section k1 else own_prop section k2.

(** [section[k1] || section[k2] || d] *)
Definition alias3 (section : value) (k1 k2 : string) (d : value) : value :=
  if truthy (own_prop section k1) then own_prop section k1
  else if truthy (own_prop section k2) then own_prop section k2 else d.

(** The gear ratios read from a section: for n = 1..8 in this order, the
    number under GEAR_n when that key is present *)
Definition gears_of (gearSection : value) : list value :=
  flat_map (fun i => let g := own_prop gearSection (gear_key i) in
                     if is_undefined g then [] else [VNum (parseNumber g)])
           (seq 1 8).

(** The sections kept under [additionalSettings] *)
Fixpoint additional_of (rawSections : obj) (names : list string) (acc : obj) : obj :=
  match names with
  | [] => acc
  | sectionName :: rest =>
      if includes known_sections sectionName then additional_of rawSections rest acc
      else additional_of rawSections rest
             (obj_set acc sectionName (obj_get rawSections sectionName))
  end.

(** The record that the generic fallback builds, written out *)
Definition generic_setup (clock : nat -> string) (rawSetup : SetupFile) : value :=
  let h := header rawSetup in
  let secs := sections rawSetup in
  let stamp (i : nat) := if truthy (timestamp h) then timestamp h else VStr (clock i) in
  let tire := section_or (obj_get secs "TIRE") (VObj []) in
  let susp := section_or (obj_get secs "SUSPENSION") (VObj []) in
  let damper := section_or (obj_get secs "DAMPER") susp in
  let aero := section_or (obj_get secs "AERO") (VObj []) in
  let brake := section_or (obj_get secs "BRAKE") (VObj []) in
  let diff := section_or (obj_get secs "DIFFERENTIAL") (VObj []) in
  let gear := section_or (obj_get secs "GEARS") (VObj []) in
  let num (section : value) (k1 k2 : string) := VNum (parseNumber (alias2 section k1 k2)) in
  let num0 (section : value) (k1 k2 : string) :=
    VNum (parseNumber (alias3 section k1 k2 (VNum 0))) in
  VObj ([
    ("carId", carIdentifier h);
    ("trackId", trackIdentifier h);
    ("name", name h);
    ("suspension", VObj [
       ("front", VObj [
          ("springRate", num susp "SPRING_RATE_LF" "FRONT_SPRING_RATE");
          ("rideHeight", num susp "RIDE_HEIGHT_LF" "FRONT_RIDE_HEIGHT");
          ("camber", num susp "CAMBER_LF" "FRONT_CAMBER");
          ("toe", num susp "TOE_IN_LF" "FRONT_TOE");
          ("antiRollBar", num susp "FRONT_ANTI_ROLL_BAR" "ARB_FRONT")]);
       ("rear", VObj [
          ("springRate", num susp "SPRING_RATE_LR" "REAR_SPRING_RATE");
          ("rideHeight", num susp "RIDE_HEIGHT_LR" "REAR_RIDE_HEIGHT");
          ("camber", num susp "CAMBER_LR" "REAR_CAMBER");
          ("toe", num susp "TOE_IN_LR" "REAR_TOE");
          ("antiRollBar", num susp "REAR_ANTI_ROLL_BAR" "ARB_REAR")]) ]);
    ("dampers", VObj [
       ("front", VObj [("bump", num damper "BUMP_LF" "FRONT_BUMP");
                       ("rebound", num damper "REBOUND_LF" "FRONT_REBOUND")]);
       ("rear", VObj [("bump", num damper "BUMP_LR" "REAR_BUMP");
                      ("rebound", num damper "REBOUND_LR" "REAR_REBOUND")]) ]);
    ("tirePressures", VObj [
       ("frontLeft", num tire "LEFT_FRONT" "PRESSURE_LF");
       ("frontRight", num tire "RIGHT_FRONT" "PRESSURE_RF");
       ("rearLeft", num tire "LEFT_REAR" "PRESSURE_LR");
       ("rearRight", num tire "RIGHT_REAR" "PRESSURE_RR")]);
    ("aero", VObj [("frontWing", num aero "FRONT_WING" "WING_FRONT");
                   ("rearWing", num aero "REAR_WING" "WING_REAR")]);
    ("brakeBias", VNum (parseNumber (alias3 brake "BIAS" "BRAKE_BIAS" (VNum 50))));
    ("metadata", VObj [("created", stamp 1); ("modified", stamp 2);
                       ("version", version h)]) ]
    ++ (if (0 <? own_keys_count diff)%nat
        then [("differential", VObj [
                 ("preload", num0 diff "PRELOAD" "DIFF_PRELOAD");
                 ("powerRamp", num0 diff "POWER_RAMP" "DIFF_POWER");
                 ("coastRamp", num0 diff "COAST_RAMP" "DIFF_COAST")])]
        else [])
    ++ (if (0 <? length (gears_of gear))%nat
        then [("gearRatios", VArr (gears_of gear))] else [])
    ++ [("additionalSettings", VObj (additional_of secs (obj_keys secs) []))]).

Lemma or_else_default v d : or_else v (Ok d) = Ok (section_or v d).
Proof. unfold or_else, section_or. now destruct (truthy v). Qed.

Lemma section_or_truthy v d : truthy d = true -> truthy (section_or v d) = true.
Proof. unfold section_or. destruct (truthy v) eqn:E; auto. Qed.

Lemma probe2_truthy section k1 k2 :
  truthy section = true -> probe2 section k1 k2 = Ok (alias2 section k1 k2).
Proof.
  intros H. apply truthy_not_nullish in H. unfold probe2, alias2, or_else.
  rewrite !getProp_not_nullish by assumption. rewrite bind_Ok.
  now destruct (truthy (own_prop section k1)).
Qed.

Lemma probe3_truthy section k1 k2 d :
  truthy section = true -> probe3 section k1 k2 d = Ok (alias3 section k1 k2 d).
Proof.
  intros H. apply truthy_not_nullish in H. unfold probe3, alias3, or_else.
  rewrite !getProp_not_nullish by assumption. rewrite !bind_Ok.
  destruct (truthy (own_prop section k1)); [reflexivity|].
  now destruct (truthy (own_prop section k2)).
Qed.

Lemma assign_number_truthy setup target section k1 k2 :
  truthy section = true ->
  assign_number setup target section k1 k2
  = assign_path setup target (VNum (parseNumber (alias2 section k1 k2))).
Proof. intros H. unfold assign_number. now rewrite probe2_truthy. Qed.

Lemma collect_gears_truthy gearSection :
  truthy gearSection = true -> collect_gears gearSection = Ok (gears_of gearSection).
Proof.
  intros H. apply truthy_not_nullish in H.
  unfold collect_gears, gears_of.
  assert (Hgen : forall l acc,
             fold_left (gear_step gearSection) l (Ok acc)
             = Ok (acc ++ flat_map (fun i => let g := own_prop gearSection (gear_key i) in
                                            if is_undefined g then []
                                            else [VNum (parseNumber g)]) l)).
  { induction l as [|i l IH]; intros acc; cbn [fold_left flat_map].
    - now rewrite app_nil_r.
    - unfold gear_step at 2. rewrite bind_Ok, getProp_not_nullish by assumption.
      rewrite bind_Ok. cbn zeta.
      destruct (is_undefined (own_prop gearSection (gear_key i))).
      + now rewrite IH.
      + now rewrite IH, <- app_assoc. }
  exact (Hgen (seq 1 8) []).
Qed.

Lemma obj_update_app_last ps k a b :
  obj_has ps k = false -> obj_update (ps ++ [(k, a)]) k b = ps ++ [(k, b)].
Proof.
  induction ps as [|[k0 v0] t IH]; cbn; intros H.
  - now rewrite String.eqb_refl.
  - apply orb_false_iff in H as [H0 Ht]. rewrite H0. now rewrite IH.
Qed.

Lemma obj_has_app ps qs k : obj_has (ps ++ qs) k = obj_has ps k || obj_has qs k.
Proof.
  induction ps as [|[k0 v0] t IH]; cbn; [reflexivity|].
  now rewrite IH, orb_assoc.
Qed.

Lemma assign_additional ps a sectionName v :
  obj_has ps "additionalSettings" = false ->
  assign_path (VObj (ps ++ [("additionalSettings", VObj a)]))
    ["additionalSettings"; sectionName] v
  = Ok (VObj (ps ++ [("additionalSettings", VObj (obj_set a sectionName v))])).
Proof.
  intros H. cbn [assign_path]. rewrite getProp_not_nullish by reflexivity.
  rewrite bind_Ok, own_prop_obj, obj_get_app, H. cbn [obj_get].
  rewrite String.eqb_refl. cbn [setProp]. rewrite bind_Ok. cbn [setProp].
  unfold obj_set at 1. rewrite obj_has_app, H. cbn [obj_has].
  rewrite String.eqb_refl. cbn [orb]. now rewrite obj_update_app_last.
Qed.

Lemma store_additional_last secs names : forall ps a,
  obj_has ps "additionalSettings" = false ->
  store_additional secs names (VObj (ps ++ [("additionalSettings", VObj a)]))
  = Ok (VObj (ps ++ [("additionalSettings", VObj (additional_of secs names a))])).
Proof.
  induction names as [|n rest IH]; intros ps a H; cbn [store_additional additional_of].
  - reflexivity.
  - destruct (includes known_sections n).
    + now apply IH.
    + rewrite assign_additional by assumption. rewrite bind_Ok. now apply IH.
Qed.

Ltac run_assign :=
  match goal with
  | |- (assign_path ?s ?t ?v ≫= _) = _ =>
      let r := eval cbv in (assign_path s t v) in
      change (assign_path s t v) with r; rewrite bind_Ok; cbn beta
  end.

Ltac leaf_step :=
  rewrite assign_number_truthy by auto using section_or_truthy;
  match goal with
  | |- (assign_path _ _ (VNum ?x) ≫= _) = _ => generalize x; intro
  end;
  run_assign.

Ltac name_leaves :=
  repeat match goal with
         | |- context [parseNumber ?a] => generalize (parseNumber a); intro
         end.

(** The generic fallback never fails, and builds exactly [generic_setup]. *)
Lemma applyGenericMapping_explicit clock rawSetup :
  applyGenericMapping (initial_setup clock rawSetup) rawSetup
  = Ok (generic_setup clock rawSetup).
Proof.
  destruct rawSetup as [[ver car track nm ts] secs].
  unfold applyGenericMapping, generic_setup, initial_setup.
  cbn [header sections version carIdentifier trackIdentifier name timestamp].
  cbn zeta.
  generalize (if truthy ts then ts else VStr (clock 1)). intros created.
  generalize (if truthy ts then ts else VStr (clock 2)). intros modified.
  rewrite !or_else_default. rewrite bind_Ok. cbn beta.
  set (tire := section_or (obj_get secs "TIRE") (VObj [])).
  assert (Htire : truthy tire = true) by now apply section_or_truthy.
  do 4 leaf_step.
  rewrite bind_Ok. cbn beta.
  set (susp := section_or (obj_get secs "SUSPENSION") (VObj [])).
  assert (Hsusp : truthy susp = true) by now apply section_or_truthy.
  do 10 leaf_step.
  rewrite or_else_default, bind_Ok. cbn beta.
  set (damper := section_or (obj_get secs "DAMPER") susp).
  assert (Hdamper : truthy damper = true) by now apply section_or_truthy.
  do 4 leaf_step.
  rewrite bind_Ok. cbn beta.
  set (aero := section_or (obj_get secs "AERO") (VObj [])).
  assert (Haero : truthy aero = true) by now apply section_or_truthy.
  do 2 leaf_step.
  rewrite bind_Ok. cbn beta.
  set (brake := section_or (obj_get secs "BRAKE") (VObj [])).
  assert (Hbrake : truthy brake = true) by now apply section_or_truthy.
  rewrite probe3_truthy, bind_Ok by assumption. cbn beta.
  generalize (parseNumber (alias3 brake "BIAS" "BRAKE_BIAS" (VNum 50))). intro.
  run_assign.
  rewrite bind_Ok. cbn beta.
  set (diff := section_or (obj_get secs "DIFFERENTIAL") (VObj [])).
  assert (Hdiff : truthy diff = true) by now apply section_or_truthy.
  rewrite !probe3_truthy by assumption.
  destruct (0 <? own_keys_count diff)%nat;
    [rewrite !bind_Ok; cbn beta; name_leaves; run_assign | rewrite bind_Ok; cbn beta];
    rewrite bind_Ok; cbn beta;
    rewrite collect_gears_truthy by (now apply section_or_truthy);
    rewrite bind_Ok; cbn beta;
    generalize (gears_of (section_or (obj_get secs "GEARS") (VObj [])));
    intros gearRatios;
    (destruct (0 <? length gearRatios)%nat;
       [run_assign | rewrite bind_Ok; cbn beta]);
    run_assign;
    match goal with
    | |- store_additional ?secs ?names (VObj ?l) = _ =>
        let ps := eval cbv [removelast] in (removelast l) in
        change (VObj l) with (VObj (ps ++ [("additionalSettings", VObj [])]));
        rewrite (store_additional_last secs names ps []) by reflexivity
    end;
    reflexivity.
Qed.

Section GenericDecode.

Variable clock : nat -> string.
Variable parser : SetupParser.

Lemma convertToStructured_generic rawSetup :
  get_mapping parser (carIdentifier (header rawSetup)) = None ->
  convertToStructured clock parser rawSetup = Ok (generic_setup clock rawSetup).
Proof.
  intros H. unfold convertToStructured. rewrite H.
  apply applyGenericMapping_explicit.
Qed.

Lemma generic_setup_gearRatios rawSetup :
  own_prop (generic_setup clock rawSetup) "gearRatios" =
  match gears_of (section_or (obj_get (sections rawSetup) "GEARS") (VObj [])) with
  | [] => VUndefined
  | g :: gs => VArr (g :: gs)
  end.
Proof.
  unfold generic_setup. cbn zeta.
  destruct (0 <? own_keys_count _)%nat;
    destruct (gears_of _) as [|g gs]; reflexivity.
Qed.

End GenericDecode.

(** A raw table with GEAR_1, GEAR_2 and GEAR_4, for a vehicle that has no
    registered dialect *)
Definition gears_with_a_hole : SetupFile := {|
  header := {| version := VStr "1.0"; carIdentifier := VStr "unknown_car";
               trackIdentifier := VStr "spa"; name := VStr "Baseline";
               timestamp := VStr "2024-01-01T00:00:00.000Z" |};
  sections := [("GEARS", VObj [("GEAR_1", VStr "3.5"); ("GEAR_2", VStr "2.25");
                               ("GEAR_4", VStr "1.125")])]
|}.

Definition sample_clock (i : nat) : string := "2024-01-01T00:00:00.000Z".

Lemma unknown_car_has_no_mapping :
  get_mapping createDefaultParser (VStr "unknown_car") = None.
Proof.
  cbn [get_mapping]. rewrite default_parser_mappings.
  rewrite !lookup_insert_ne by discriminate. apply lookup_empty.
Qed.

(** C1, as stated, fails: with GEAR_1, GEAR_2 and GEAR_4 present and GEAR_3
    missing, the generic fallback collects three gear ratios, not two. *)
Lemma gear_hole_does_not_truncate :
  exists setup,
    convertToStructured sample_clock createDefaultParser gears_with_a_hole = Ok setup
    /\ own_prop setup "gearRatios" = VArr [VNum 3.5; VNum 2.25; VNum 1.125].
Proof.
  eexists. split.
  - apply convertToStructured_generic. exact unknown_car_has_no_mapping.
  - rewrite generic_setup_gearRatios. vm_compute. reflexivity.
Qed.

(** C1, amended: the generic fallback collects, for n = 1..8 in increasing
    order, the number under every key GEAR_n that is present in the GEARS
    section; a missing index is skipped and does not end the collection.
    [gearRatios] is left absent when no such key is present. *)
Theorem generic_gear_ratios_skip_missing (clock : nat -> string) (parser : SetupParser)
    (rawSetup : SetupFile) :
  get_mapping parser (carIdentifier (header rawSetup)) = None ->
  exists setup,
    convertToStructured clock parser rawSetup = Ok setup /\
    own_prop setup "gearRatios" =
    match gears_of (section_or (obj_get (sections rawSetup) "GEARS") (VObj [])) with
    | [] => VUndefined
    | g :: gs => VArr (g :: gs)
    end.
Proof.
  intros H. exists (generic_setup clock rawSetup). split.
  - now apply convertToStructured_generic.
  - apply generic_setup_gearRatios.
Qed.

Lemma generic_gear_ratios_skip_missing_witness :
  exists setup,
    convertToStructured sample_clock createDefaultParser gears_with_a_hole = Ok setup /\
    own_prop setup "gearRatios" =
    match gears_of (section_or (obj_get (sections gears_with_a_hole) "GEARS") (VObj [])) with
    | [] => VUndefined
    | g :: gs => VArr (g :: gs)
    end.
Proof.
  apply (generic_gear_ratios_skip_missing sample_clock createDefaultParser gears_with_a_hole).
  exact unknown_car_has_no_mapping.
Defined.

(** The section a canonical cluster is read from *)
Definition generic_section (secs : obj) (cluster : string) : value :=
  if String.eqb cluster "DAMPER"
  then section_or (obj_get secs "DAMPER") (section_or (obj_get secs "SUSPENSION") (VObj []))
  else section_or (obj_get secs cluster) (VObj []).

(** The two-alias probes of [applyGenericMapping]: canonical path, section,
    first and second raw key *)
Definition generic_probes : list (string * string * string * string) := [
  ("tirePressures.frontLeft", "TIRE", "LEFT_FRONT", "PRESSURE_LF");
  ("tirePressures.frontRight", "TIRE", "RIGHT_FRONT", "PRESSURE_RF");
  ("tirePressures.rearLeft", "TIRE", "LEFT_REAR", "PRESSURE_LR");
  ("tirePressures.rearRight", "TIRE", "RIGHT_REAR", "PRESSURE_RR");
  ("suspension.front.springRate", "SUSPENSION", "SPRING_RATE_LF", "FRONT_SPRING_RATE");
  ("suspension.front.rideHeight", "SUSPENSION", "RIDE_HEIGHT_LF", "FRONT_RIDE_HEIGHT");
  ("suspension.front.camber", "SUSPENSION", "CAMBER_LF", "FRONT_CAMBER");
  ("suspension.front.toe", "SUSPENSION", "TOE_IN_LF", "FRONT_TOE");
  ("suspension.front.antiRollBar", "SUSPENSION", "FRONT_ANTI_ROLL_BAR", "ARB_FRONT");
  ("suspension.rear.springRate", "SUSPENSION", "SPRING_RATE_LR", "REAR_SPRING_RATE");
  ("suspension.rear.rideHeight", "SUSPENSION", "RIDE_HEIGHT_LR", "REAR_RIDE_HEIGHT");
  ("suspension.rear.camber", "SUSPENSION", "CAMBER_LR", "REAR_CAMBER");
  ("suspension.rear.toe", "SUSPENSION", "TOE_IN_LR", "REAR_TOE");
  ("suspension.rear.antiRollBar", "SUSPENSION", "REAR_ANTI_ROLL_BAR", "ARB_REAR");
  ("dampers.front.bump", "DAMPER", "BUMP_LF", "FRONT_BUMP");
  ("dampers.front.rebound", "DAMPER", "REBOUND_LF", "FRONT_REBOUND");
  ("dampers.rear.bump", "DAMPER", "BUMP_LR", "REAR_BUMP");
  ("dampers.rear.rebound", "DAMPER", "REBOUND_LR", "REAR_REBOUND");
  ("aero.frontWing", "AERO", "FRONT_WING", "WING_FRONT");
  ("aero.rearWing", "AERO", "REAR_WING", "WING_REAR") ].

Lemma generic_setup_probe clock rawSetup path cluster k1 k2 :
  In (path, cluster, k1, k2) generic_probes ->
  getNestedProperty (generic_setup clock rawSetup) path
  = VNum (parseNumber (alias2 (generic_section (sections rawSetup) cluster) k1 k2)).
Proof.
  intros H. unfold generic_probes in H. cbn [In] in H.
  repeat (destruct H as [H|H]; [injection H as <- <- <- <-; reflexivity|]).
  destruct H.
Qed.

Lemma generic_setup_brakeBias clock rawSetup :
  getNestedProperty (generic_setup clock rawSetup) "brakeBias"
  = VNum (parseNumber (alias3 (generic_section (sections rawSetup) "BRAKE")
                         "BIAS" "BRAKE_BIAS" (VNum 50))).
Proof. reflexivity. Qed.




(** The two examples of C10: LEFT_FRONT = 0 with PRESSURE_LF = 200, and
    BIAS = 0 *)
Definition falsy_aliases : SetupFile := {|
  header := {| version := VStr "1.0"; carIdentifier := VStr "unknown_car";
               trackIdentifier := VStr "spa"; name := VStr "Baseline";
               timestamp := VStr "2024-01-01T00:00:00.000Z" |};
  sections := [("TIRE", VObj [("LEFT_FRONT", VNum 0); ("PRESSURE_LF", VNum 200)]);
               ("BRAKE", VObj [("BIAS", VNum 0)])]
|}.


(** The text "0", which is what the INI reader delivers for [LEFT_FRONT=0],
    is a non-empty string and therefore truthy: the first alias is used. *)
Definition textual_zero_alias : SetupFile := {|
  header := header falsy_aliases;
  sections := [("TIRE", VObj [("LEFT_FRONT", VStr "0"); ("PRESSURE_LF", VStr "200")])]
|}.

Example textual_zero_is_not_skipped :
  exists setup,
    convertToStructured sample_clock createDefaultParser textual_zero_alias = Ok setup /\
    getNestedProperty setup "tirePressures.frontLeft" = VNum 0.
Proof.
  exists (generic_setup sample_clock textual_zero_alias).
  split; [apply convertToStructured_generic; exact unknown_car_has_no_mapping|].
  vm_compute. reflexivity.
Qed.

(** ** The reverse field mapping engine *)

Fixpoint distinct (l : list string) : bool :=
  match l with
  | [] => true
  | a :: r => negb (includes r a) && distinct r
  end.

Lemma includes_In l a : includes l a = true <-> In a l.
Proof.
  unfold includes. rewrite existsb_exists. split.
  - intros (x & Hin & Heq). apply String.eqb_eq in Heq. now subst.
  - intros Hin. exists a. split; [exact Hin|apply String.eqb_refl].
Qed.

Lemma distinct_NoDup l : distinct l = true -> List.NoDup l.
Proof.
  induction l as [|a r IH]; cbn; intros H; constructor.
  - apply andb_true_iff in H as [H _]. apply negb_true_iff in H.
    intros Hin. apply includes_In in Hin. congruence.
  - apply andb_true_iff in H as [_ H]. auto.
Qed.

(** The raw scalar an entry emits for a canonical field that is present *)
Definition raw_of (m : CarMappingConfig) (setup : value) (targetField : string) : value :=
  let v := getNestedProperty setup targetField in
  match transformation_of m targetField with
  | Some transformation =>
      match toRaw transformation v with
      | Ok rawValue => rawValue
      | _ => VUndefined
      end
  | None => v
  end.

Section ReverseMapping.

Variable m : CarMappingConfig.
Variable setup : value.

(** The encode transform of every field that is present returns *)
Definition toRaw_total (fields : list (string * string)) : Prop :=
  forall t s transformation,
    In (t, s) fields ->
    is_undefined (getNestedProperty setup t) = false ->
    transformation_of m t = Some transformation ->
    is_ok (toRaw transformation (getNestedProperty setup t)) = true.

Lemma assign_section_key ps sec ch s rv :
  obj_get ps sec = VObj ch ->
  assign_path (VObj ps) [sec; s] rv = Ok (VObj (obj_set ps sec (VObj (obj_set ch s rv)))).
Proof.
  intros H. cbn [assign_path]. rewrite getProp_not_nullish by reflexivity.
  rewrite bind_Ok, own_prop_obj, H. reflexivity.
Qed.

Lemma reverse_section_mapping_spec sec fields : forall ps ch,
  obj_get ps sec = VObj ch ->
  List.NoDup (map snd fields) ->
  toRaw_total fields ->
  exists ps' ch',
    reverse_section_mapping m setup sec fields (VObj ps) = Ok (VObj ps') /\
    obj_get ps' sec = VObj ch' /\
    (forall k, k <> sec -> obj_get ps' k = obj_get ps k) /\
    (forall k, ~ In k (map snd fields) -> obj_get ch' k = obj_get ch k) /\
    (forall t s, In (t, s) fields ->
        obj_get ch' s = if is_undefined (getNestedProperty setup t) then obj_get ch s
                        else raw_of m setup t).
Proof.
  unfold toRaw_total.
  induction fields as [|[t s] rest IH]; intros ps ch Hsec Hnd Htot.
  - exists ps, ch. cbn. repeat split; auto. intros ? ? [].
  - cbn [map snd] in Hnd. apply List.NoDup_cons_iff in Hnd as [Hs Hnd].
    assert (Htot_r : forall t' s' tr, In (t', s') rest ->
               is_undefined (getNestedProperty setup t') = false ->
               transformation_of m t' = Some tr ->
               is_ok (toRaw tr (getNestedProperty setup t')) = true)
      by (intros t' s' tr Hin; apply (Htot t' s' tr); now right).
    cbn [reverse_section_mapping].
    destruct (is_undefined (getNestedProperty setup t)) eqn:Eu.
    + destruct (IH ps ch Hsec Hnd Htot_r) as (ps' & ch' & Hrun & Hsec' & Hfr & Hfc & Hent).
      exists ps', ch'. repeat split; auto.
      * intros k Hk. apply Hfc. intros Hin. apply Hk. now right.
      * intros t' s' [Heq|Hin].
        -- injection Heq as <- <-. rewrite Eu. now apply Hfc.
        -- now apply Hent.
    + assert (Hrv : exists rv,
                 match transformation_of m t with
                 | Some transformation => toRaw transformation (getNestedProperty setup t)
                 | None => Ok (getNestedProperty setup t)
                 end = Ok rv /\ raw_of m setup t = rv).
      { unfold raw_of. destruct (transformation_of m t) as [tr|] eqn:Et; [|eauto].
        specialize (Htot t s tr (or_introl eq_refl) Eu Et).
        destruct (toRaw tr (getNestedProperty setup t)); try discriminate. eauto. }
      destruct Hrv as (rv & -> & Hraw). rewrite bind_Ok.
      rewrite (assign_section_key ps sec ch s rv Hsec), bind_Ok.
      destruct (IH (obj_set ps sec (VObj (obj_set ch s rv))) (obj_set ch s rv)
                  (obj_get_set_same _ _ _) Hnd Htot_r)
        as (ps' & ch' & Hrun & Hsec' & Hfr & Hfc & Hent).
      exists ps', ch'. repeat split; auto.
      * intros k Hk. rewrite (Hfr k Hk). now apply obj_get_set_ne.
      * intros k Hk. rewrite Hfc by (intros Hin; apply Hk; now right).
        apply obj_get_set_ne. intros ->. apply Hk. now left.
      * intros t' s' [Heq|Hin].
        -- injection Heq as <- <-. rewrite Eu, Hraw.
           rewrite (Hfc s Hs). apply obj_get_set_same.
        -- rewrite (Hent _ _ Hin).
           destruct (is_undefined (getNestedProperty setup t')); [|reflexivity].
           apply obj_get_set_ne. intros ->. apply Hs.
           apply in_map_iff. now exists (t', s').
Qed.

Lemma reverse_field_mappings_spec fm : forall ps,
  List.NoDup (map fst fm) ->
  (forall sec fields, In (sec, fields) fm ->
      List.NoDup (map snd fields) /\ toRaw_total fields /\
      (truthy (obj_get ps sec) = false \/ exists ch, obj_get ps sec = VObj ch)) ->
  exists ps',
    reverse_field_mappings m setup fm (VObj ps) = Ok (VObj ps') /\
    (forall k, ~ In k (map fst fm) -> obj_get ps' k = obj_get ps k) /\
    (forall sec fields, In (sec, fields) fm ->
        exists ch', obj_get ps' sec = VObj ch' /\
                    forall t s, In (t, s) fields ->
                                is_undefined (getNestedProperty setup t) = false ->
                                obj_get ch' s = raw_of m setup t).
Proof.
  induction fm as [|[sec fields] rest IH]; intros ps Hnd Hall.
  - exists ps. cbn. repeat split; auto. intros ? ? [].
  - cbn [map fst] in Hnd. apply List.NoDup_cons_iff in Hnd as [Hsec Hnd].
    destruct (Hall sec fields (or_introl eq_refl)) as (Hnds & Htot & Hinit).
    cbn [reverse_field_mappings].
    rewrite getProp_not_nullish by reflexivity. rewrite bind_Ok, own_prop_obj.
    assert (Hstart : exists ps0 ch0,
               (if negb (truthy (obj_get ps sec))
                then setProp (VObj ps) sec (VObj []) else Ok (VObj ps)) = Ok (VObj ps0)
               /\ obj_get ps0 sec = VObj ch0
               /\ forall k, k <> sec -> obj_get ps0 k = obj_get ps k).
    { destruct Hinit as [Hf | [ch Hch]].
      - rewrite Hf. cbn [negb setProp]. exists (obj_set ps sec (VObj [])), [].
        split; [reflexivity|]. split; [apply obj_get_set_same|].
        intros k Hk. now apply obj_get_set_ne.
      - rewrite Hch. cbn [truthy negb]. exists ps, ch. auto. }
    destruct Hstart as (ps0 & ch0 & -> & Hsec0 & Hfr0). rewrite bind_Ok.
    destruct (reverse_section_mapping_spec sec fields ps0 ch0 Hsec0 Hnds Htot)
      as (ps1 & ch1 & Hrun1 & Hsec1 & Hfr1 & _ & Hent1).
    rewrite Hrun1, bind_Ok.
    destruct (IH ps1 Hnd) as (ps' & Hrun & Hfr & Hent).
    { intros sec' fields' Hin.
      destruct (Hall sec' fields' (or_intror Hin)) as (Hn' & Ht' & Hi').
      split; [exact Hn'|]. split; [exact Ht'|].
      assert (Hne : sec' <> sec).
      { intros ->. apply Hsec. apply in_map_iff. now exists (sec, fields'). }
      now rewrite (Hfr1 _ Hne), (Hfr0 _ Hne). }
    exists ps'. split; [exact Hrun|]. split.
    + intros k Hk.
      assert (Hne : k <> sec) by (intros ->; apply Hk; now left).
      rewrite Hfr by (intros Hin; apply Hk; now right).
      now rewrite (Hfr1 _ Hne), (Hfr0 _ Hne).
    + intros sec' fields' [Heq|Hin].
      * injection Heq as <- <-. exists ch1. split.
        -- now rewrite (Hfr _ Hsec).
        -- intros t s Hts Hu. rewrite (Hent1 _ _ Hts). now rewrite Hu.
      * now apply Hent.
Qed.

End ReverseMapping.

(** ** Decoding and encoding under the registered dialects *)


Definition convertible (v : value) : bool :=
  match v with VObj _ | VArr _ => false | _ => true end.

Lemma convertible_ToNumber v : convertible v = true -> exists x, ToNumber v = Ok x.
Proof. destruct v; cbn; try discriminate; eauto. Qed.

Lemma shipped_toRaw_total m t transformation v :
  shipped m -> transformation_of m t = Some transformation -> convertible v = true ->
  is_ok (toRaw transformation v) = true.
Proof.
  intros Hm Ht Hv.
  destruct (shipped_transformations m t transformation Hm Ht) as [-> | [_ ->]];
    cbn; unfold negate, div_1000;
    destruct (convertible_ToNumber v Hv) as [x ->]; reflexivity.
Qed.

Lemma shipped_converted_numeric m t transformation v :
  shipped m -> transformation_of m t = Some transformation -> scalar v = true ->
  exists x, converted m t v = VNum x.
Proof.
  intros Hm Ht Hv. unfold converted, convert_field. rewrite Ht.
  destruct (shipped_transformations m t transformation Hm Ht) as [-> | [_ ->]];
    cbn; unfold negate_parsed, times_1000_parsed;
    destruct (scalar_parseFloat v Hv) as [x ->]; cbn; eauto.
Qed.

(** Every transformed field of a shipped table is a target of its field
    mappings, and starts at zero. *)
Lemma shipped_transformed_target m t transformation :
  shipped m -> transformation_of m t = Some transformation ->
  exists sec fields s,
    In (sec, fields) (fieldMappings m) /\ In (t, s) fields /\
    forall clock rawSetup, getNestedProperty (initial_setup clock rawSetup) t = VNum 0.
Proof.
  assert (Hin : forall (x : string * string) l, existsb (fun y => String.eqb (fst x) (fst y) && String.eqb (snd x) (snd y)) l = true -> In x l).
  { intros [a b] l H. apply existsb_exists in H as ([a' b'] & Hin & Heq).
    cbn in Heq. apply andb_true_iff in Heq as [Ha Hb].
    apply String.eqb_eq in Ha, Hb. now subst. }
  intros [-> | ->] Ht;
    cbv [transformation_of valueTransformations ferrari488GT3Mapping
           porsche911GT3RMapping assoc] in Ht;
    repeat match type of Ht with
           | (if String.eqb ?a ?b then _ else _) = _ =>
               let E := fresh "E" in
               destruct (String.eqb a b) eqn:E;
               [apply String.eqb_eq in E; subst t; clear Ht|]
           end;
    try discriminate;
    eexists "SUSPENSION", _, _;
    (split; [cbn; right; left; reflexivity|]);
    (split; [|reflexivity]); cbn; auto 20.
Qed.

(** The keys that [convertToSto] writes before the mapping is applied *)
Definition sto_keys : list string := ["VERSION"; "CAR"; "TRACK"; "TIMESTAMP"; "SETUPS"].

Lemma shipped_sections m sec fields :
  shipped m -> In (sec, fields) (fieldMappings m) ->
  List.NoDup (map snd fields) /\ includes sto_keys sec = false.
Proof.
  intros [-> | ->] Hin; cbn in Hin;
    repeat (destruct Hin as [Hin|Hin];
            [injection Hin as <- <-; split; [apply distinct_NoDup|]; reflexivity|]);
    destruct Hin.
Qed.

Lemma shipped_sections_distinct m :
  shipped m -> List.NoDup (map fst (fieldMappings m)).
Proof. intros [-> | ->]; apply distinct_NoDup; reflexivity. Qed.

Section Registered.

Variable clock : nat -> string.

(** Decoding under a registered dialect *)
Lemma convertToStructured_shipped rawSetup m :
  get_mapping createDefaultParser (carIdentifier (header rawSetup)) = Some m ->
  SetupFile_typed rawSetup = true ->
  exists setup,
    convertToStructured clock createDefaultParser rawSetup = Ok setup /\
    (forall q, forallb (fun p => diverges p q) (mapping_paths (fieldMappings m)) = true ->
               get_parts setup q = get_parts (initial_setup clock rawSetup) q) /\
    (forall sec fields t s, In (sec, fields) (fieldMappings m) -> In (t, s) fields ->
        getNestedProperty setup t =
        if is_undefined (raw_value (sections rawSetup) sec s)
        then getNestedProperty (initial_setup clock rawSetup) t
        else converted m t (raw_value (sections rawSetup) sec s)).
Proof.
  intros Hm Ht. unfold convertToStructured. rewrite Hm.
  apply applyCarMapping_shipped; [|exact Ht].
  eapply default_parser_shipped; eauto.
Qed.

(** The raw object before the reverse mapping runs *)
Definition sto_header (setup : value) : obj :=
  let metadata := own_prop setup "metadata" in
  let version := getPropOpt metadata "version" in
  let modified := getPropOpt metadata "modified" in
  [ ("VERSION", if truthy version then version else VStr "1.0");
    ("CAR", own_prop setup "carId");
    ("TRACK", own_prop setup "trackId");
    ("TIMESTAMP", if truthy modified then modified else VStr (clock 3));
    ("SETUPS", VObj [("ACTIVE", own_prop setup "name")]) ].

Lemma sto_header_get setup k :
  includes sto_keys k = false -> obj_get (sto_header setup) k = VUndefined.
Proof.
  unfold includes, sto_keys, sto_header. cbn [existsb obj_get].
  rewrite (String.eqb_sym k "VERSION"), (String.eqb_sym k "CAR"),
    (String.eqb_sym k "TRACK"), (String.eqb_sym k "TIMESTAMP"),
    (String.eqb_sym k "SETUPS").
  destruct (String.eqb "VERSION" k), (String.eqb "CAR" k), (String.eqb "TRACK" k),
    (String.eqb "TIMESTAMP" k), (String.eqb "SETUPS" k); cbn; congruence.
Qed.

Lemma convertToSto_rawSetup_unfold parser setup :
  nullish setup = false ->
  convertToSto_rawSetup clock parser setup =
  match get_mapping parser (own_prop setup "carId") with
  | Some carMapping => applyCarMappingReverse setup (VObj (sto_header setup)) carMapping
  | None => applyGenericMappingReverse setup (VObj (sto_header setup))
  end.
Proof.
  intros Hn. unfold convertToSto_rawSetup.
  rewrite getProp_not_nullish by assumption. reflexivity.
Qed.

(** Encoding under a registered dialect: every field that is present is
    emitted under its section and source key, and besides the header keys
    only the sections of the mapping are written. *)
Lemma convertToSto_shipped setup m :
  nullish setup = false ->
  get_mapping createDefaultParser (own_prop setup "carId") = Some m ->
  (forall t transformation, transformation_of m t = Some transformation ->
      convertible (getNestedProperty setup t) = true) ->
  exists ps,
    convertToSto_rawSetup clock createDefaultParser setup = Ok (VObj ps) /\
    (forall k, ~ In k (map fst (fieldMappings m)) ->
               obj_get ps k = obj_get (sto_header setup) k) /\
    (forall sec fields t s, In (sec, fields) (fieldMappings m) -> In (t, s) fields ->
        is_undefined (getNestedProperty setup t) = false ->
        get_parts (VObj ps) [sec; s] = raw_of m setup t).
Proof.
  intros Hn Hm Hconv.
  pose proof (default_parser_shipped _ _ Hm) as Hship.
  rewrite convertToSto_rawSetup_unfold by assumption. rewrite Hm.
  unfold applyCarMappingReverse.
  destruct (reverse_field_mappings_spec m setup (fieldMappings m) (sto_header setup)
              (shipped_sections_distinct m Hship)) as (ps & Hrun & Hfr & Hent).
  - intros sec fields Hin.
    destruct (shipped_sections m sec fields Hship Hin) as [Hnd Hk].
    split; [exact Hnd|]. split.
    + intros t s tr _ _ Htr. eapply shipped_toRaw_total; eauto.
    + left. now rewrite sto_header_get.
  - exists ps. split; [exact Hrun|]. split; [exact Hfr|].
    intros sec fields t s Hin Hts Hu.
    destruct (Hent sec fields Hin) as (ch & Hch & Hval).
    rewrite get_parts_obj, Hch, get_parts_obj. cbn [get_parts]. now apply Hval.
Qed.

End Registered.

(** A Ferrari table whose front-left pressure does not read as a number *)
Definition unparsable_pressure : SetupFile := {|
  header := {| version := VStr "1.0"; carIdentifier := VStr "ferrari_488_gt3";
               trackIdentifier := VStr "spa"; name := VStr "Baseline";
               timestamp := VStr "2024-01-01T00:00:00.000Z" |};
  sections := [("TIRE", VObj [("PRESSURE_LF", VStr "abc"); ("PRESSURE_RF", VStr "172")])]
|}.

(** C3, as stated, fails: a raw value that does not read as a number is not
    replaced by zero; the canonical field holds the raw string itself. *)
Lemma unparsable_raw_value_is_kept :
  exists setup,
    convertToStructured sample_clock createDefaultParser unparsable_pressure = Ok setup
    /\ getNestedProperty setup "tirePressures.frontLeft" = VStr "abc"
    /\ getNestedProperty setup "tirePressures.frontRight" = VNum 172.
Proof.
  destruct (convertToStructured_shipped sample_clock unparsable_pressure
              ferrari488GT3Mapping default_parser_ferrari eq_refl)
    as (setup & Hrun & _ & Hent).
  exists setup. split; [exact Hrun|]. split.
  - erewrite (Hent "TIRE" _ "tirePressures.frontLeft" "PRESSURE_LF");
      [vm_compute; reflexivity|left; reflexivity|cbn; auto].
  - erewrite (Hent "TIRE" _ "tirePressures.frontRight" "PRESSURE_RF");
      [vm_compute; reflexivity|left; reflexivity|cbn; auto].
Qed.

(** C3, amended: under a registered dialect, for every mapping entry whose
    source key is present in the raw table and whose canonical field has no
    transform, the value written is [Number(raw)] when the raw value is a
    string that reads as a number, and the raw value itself, unchanged,
    otherwise; decoding returns a record, no error is raised. *)
Theorem decode_untransformed_field (clock : nat -> string) (rawSetup : SetupFile)
    (m : CarMappingConfig) (sec : string) (fields : list (string * string))
    (t s : string) :
  SetupFile_typed rawSetup = true ->
  get_mapping createDefaultParser (carIdentifier (header rawSetup)) = Some m ->
  In (sec, fields) (fieldMappings m) -> In (t, s) fields ->
  transformation_of m t = None ->
  is_undefined (raw_value (sections rawSetup) sec s) = false ->
  exists setup,
    convertToStructured clock createDefaultParser rawSetup = Ok setup /\
    getNestedProperty setup t = default_conversion (raw_value (sections rawSetup) sec s).
Proof.
  intros Ht Hm Hsec Hts Htr Hu.
  destruct (convertToStructured_shipped clock rawSetup m Hm Ht) as (setup & Hrun & _ & Hent).
  exists setup. split; [exact Hrun|].
  rewrite (Hent sec fields t s Hsec Hts), Hu.
  unfold converted, convert_field. now rewrite Htr.
Qed.

Lemma decode_untransformed_field_witness :
  exists setup,
    convertToStructured sample_clock createDefaultParser unparsable_pressure = Ok setup /\
    getNestedProperty setup "tirePressures.frontRight"
    = default_conversion (raw_value (sections unparsable_pressure) "TIRE" "PRESSURE_RF").
Proof.
  apply (decode_untransformed_field sample_clock unparsable_pressure ferrari488GT3Mapping
           "TIRE" [("tirePressures.frontLeft", "PRESSURE_LF");
                   ("tirePressures.frontRight", "PRESSURE_RF");
                   ("tirePressures.rearLeft", "PRESSURE_LR");
                   ("tirePressures.rearRight", "PRESSURE_RR")]
           "tirePressures.frontRight" "PRESSURE_RF").
  - reflexivity.
  - exact default_parser_ferrari.
  - left. reflexivity.
  - right. left. reflexivity.
  - reflexivity.
  - reflexivity.
Defined.

(** C5: under the Ferrari dialect a raw SUSPENSION entry CAMBER_LF = 3.0 (the
    number, or the text "3.0" as the INI reader delivers it) decodes to
    suspension.front.camber = -3.0, whatever else the table holds; and
    encoding a record of that vehicle whose suspension.front.camber is -3.0
    emits CAMBER_LF = 3.0 in the SUSPENSION section.  The camber is the
    member [camber] of the member [front] of the member [suspension] of the
    record. *)
Theorem ferrari_camber_sign_flip (clock : nat -> string) :
  (forall rawSetup,
      SetupFile_typed rawSetup = true ->
      carIdentifier (header rawSetup) = VStr "ferrari_488_gt3" ->
      raw_value (sections rawSetup) "SUSPENSION" "CAMBER_LF" = VNum 3
      \/ raw_value (sections rawSetup) "SUSPENSION" "CAMBER_LF" = VStr "3.0" ->
      exists setup,
        convertToStructured clock createDefaultParser rawSetup = Ok setup /\
        get_parts setup ["suspension"; "front"; "camber"] = VNum (-3))
  /\ (forall setup,
        nullish setup = false ->
        own_prop setup "carId" = VStr "ferrari_488_gt3" ->
        get_parts setup ["suspension"; "front"; "camber"] = VNum (-3) ->
        convertible (get_parts setup ["suspension"; "rear"; "camber"]) = true ->
        exists rawSetup,
          convertToSto_rawSetup clock createDefaultParser setup = Ok rawSetup /\
          get_parts rawSetup ["SUSPENSION"; "CAMBER_LF"] = VNum 3).
Proof.
  split.
  - intros rawSetup Ht Hcar Hraw.
    assert (Hm : get_mapping createDefaultParser (carIdentifier (header rawSetup))
                 = Some ferrari488GT3Mapping)
      by (rewrite Hcar; exact default_parser_ferrari).
    destruct (convertToStructured_shipped clock rawSetup _ Hm Ht)
      as (setup & Hrun & _ & Hent).
    exists setup. split; [exact Hrun|].
    change (getNestedProperty setup "suspension.front.camber" = VNum (-3)).
    erewrite (Hent "SUSPENSION" _ "suspension.front.camber" "CAMBER_LF");
      [|right; left; reflexivity|cbn; auto].
    destruct Hraw as [-> | ->]; vm_compute; reflexivity.
  - intros setup Hn Hcar Hfront Hrear.
    change (getNestedProperty setup "suspension.front.camber" = VNum (-3)) in Hfront.
    change (convertible (getNestedProperty setup "suspension.rear.camber") = true)
      in Hrear.
    assert (Hm : get_mapping createDefaultParser (own_prop setup "carId")
                 = Some ferrari488GT3Mapping)
      by (rewrite Hcar; exact default_parser_ferrari).
    destruct (convertToSto_shipped clock setup _ Hn Hm) as (ps & Hrun & _ & Hent).
    + intros t tr Htr.
      cbv [transformation_of valueTransformations ferrari488GT3Mapping assoc] in Htr.
      destruct (String.eqb "suspension.front.camber" t) eqn:E1;
        [apply String.eqb_eq in E1; subst t; now rewrite Hfront|].
      destruct (String.eqb "suspension.rear.camber" t) eqn:E2;
        [apply String.eqb_eq in E2; subst t; exact Hrear|discriminate].
    + exists (VObj ps). split; [exact Hrun|].
      erewrite (Hent "SUSPENSION" _ "suspension.front.camber" "CAMBER_LF");
        [|right; left; reflexivity|cbn; auto|now rewrite Hfront].
      unfold raw_of. rewrite Hfront. vm_compute. reflexivity.
Qed.

(** A Ferrari table with CAMBER_LF = 3.0, decoded and encoded back *)
Definition ferrari_camber_table : SetupFile := {|
  header := {| version := VStr "1.0"; carIdentifier := VStr "ferrari_488_gt3";
               trackIdentifier := VStr "spa"; name := VStr "Baseline";
               timestamp := VStr "2024-01-01T00:00:00.000Z" |};
  sections := [("SUSPENSION", VObj [("CAMBER_LF", VStr "3.0")]);
               ("PIT", VObj [("FUEL", VStr "60")])]
|}.

Example ferrari_camber_round_trip :
  exists setup rawSetup,
    convertToStructured sample_clock createDefaultParser ferrari_camber_table = Ok setup
    /\ get_parts setup ["suspension"; "front"; "camber"] = VNum (-3)
    /\ convertToSto_rawSetup sample_clock createDefaultParser setup = Ok rawSetup
    /\ get_parts rawSetup ["SUSPENSION"; "CAMBER_LF"] = VNum 3
    /\ get_parts rawSetup ["PIT"] = VUndefined.
Proof.
  assert (Hm : get_mapping createDefaultParser (VStr "ferrari_488_gt3")
               = Some ferrari488GT3Mapping) by exact default_parser_ferrari.
  unfold convertToStructured, convertToSto_rawSetup.
  cbn [ferrari_camber_table header carIdentifier]. rewrite Hm.
  eexists. eexists. split; [vm_compute; reflexivity|].
  split; [vm_compute; reflexivity|].
  cbn [getProp nullish]. rewrite bind_Ok. cbn zeta.
  change (own_prop _ "carId") with (VStr "ferrari_488_gt3"). rewrite Hm.
  split; [vm_compute; reflexivity|].
  split; vm_compute; reflexivity.
Qed.

(** A record of the Ferrari with a front camber of -3.0 *)
Definition ferrari_camber_record : value :=
  VObj [("carId", VStr "ferrari_488_gt3");
        ("suspension", VObj [("front", VObj [("camber", VNum (-3))]);
                             ("rear", VObj [("camber", VNum (-2.5))])])].

Lemma ferrari_camber_sign_flip_witness :
  (exists setup,
      convertToStructured sample_clock createDefaultParser ferrari_camber_table = Ok setup
      /\ get_parts setup ["suspension"; "front"; "camber"] = VNum (-3))
  /\ (exists rawSetup,
        convertToSto_rawSetup sample_clock createDefaultParser ferrari_camber_record
        = Ok rawSetup
        /\ get_parts rawSetup ["SUSPENSION"; "CAMBER_LF"] = VNum 3).
Proof.
  split.
  - apply (proj1 (ferrari_camber_sign_flip sample_clock) ferrari_camber_table).
    + reflexivity.
    + reflexivity.
    + right. reflexivity.
  - apply (proj2 (ferrari_camber_sign_flip sample_clock) ferrari_camber_record).
    + reflexivity.
    + reflexivity.
    + reflexivity.
    + reflexivity.
Defined.

(** ** The invariant of decoded records *)

(** The numeric leaves that [ParsedSetup] requires *)
Definition required_leaves : list string := [
  "suspension.front.springRate"; "suspension.front.rideHeight";
  "suspension.front.camber"; "suspension.front.toe"; "suspension.front.antiRollBar";
  "suspension.rear.springRate"; "suspension.rear.rideHeight";
  "suspension.rear.camber"; "suspension.rear.toe"; "suspension.rear.antiRollBar";
  "dampers.front.bump"; "dampers.front.rebound";
  "dampers.rear.bump"; "dampers.rear.rebound";
  "tirePressures.frontLeft"; "tirePressures.frontRight";
  "tirePressures.rearLeft"; "tirePressures.rearRight";
  "brakeBias" ].

(** The default of a required leaf: 50 for the brake bias, zero otherwise *)
Definition default_leaf (path : string) : float :=
  if String.eqb path "brakeBias" then 50%float else 0%float.

(** A Ferrari table whose PRESSURE_LF key has no value: the INI reader
    delivers [true] *)
Definition valueless_pressure : SetupFile := {|
  header := {| version := VStr "1.0"; carIdentifier := VStr "ferrari_488_gt3";
               trackIdentifier := VStr "spa"; name := VStr "Baseline";
               timestamp := VStr "2024-01-01T00:00:00.000Z" |};
  sections := [("TIRE", VObj [("PRESSURE_LF", VBool true)])]
|}.

(** A table without sections, for a vehicle without registered dialect *)
Definition empty_table : SetupFile := {|
  header := {| version := VStr "1.0"; carIdentifier := VStr "unknown_car";
               trackIdentifier := VStr "spa"; name := VStr "Baseline";
               timestamp := VStr "2024-01-01T00:00:00.000Z" |};
  sections := []
|}.

(** C7, as stated, fails twice: under a registered dialect a required leaf
    can hold a value that is not a number, and the brake bias that the input
    does not give is 50, not zero. *)
Lemma required_leaf_neither_numeric_nor_zero :
  (exists setup,
      convertToStructured sample_clock createDefaultParser valueless_pressure = Ok setup
      /\ getNestedProperty setup "tirePressures.frontLeft" = VBool true)
  /\ (exists setup,
        convertToStructured sample_clock createDefaultParser empty_table = Ok setup
        /\ getNestedProperty setup "brakeBias" = VNum 50).
Proof.
  split.
  - destruct (convertToStructured_shipped sample_clock valueless_pressure
                ferrari488GT3Mapping default_parser_ferrari eq_refl)
      as (setup & Hrun & _ & Hent).
    exists setup. split; [exact Hrun|].
    erewrite (Hent "TIRE" _ "tirePressures.frontLeft" "PRESSURE_LF");
      [vm_compute; reflexivity|left; reflexivity|cbn; auto].
  - exists (generic_setup sample_clock empty_table). split.
    + apply convertToStructured_generic. exact unknown_car_has_no_mapping.
    + vm_compute. reflexivity.
Qed.

Lemma required_leaf_generic clock rawSetup path :
  In path required_leaves ->
  exists x, getNestedProperty (generic_setup clock rawSetup) path = VNum x.
Proof.
  intros H. unfold required_leaves in H. cbn [In] in H.
  repeat (destruct H as [H|H]; [subst path; eexists; reflexivity|]).
  destruct H.
Qed.

Lemma required_leaf_initial clock rawSetup path :
  In path required_leaves ->
  getNestedProperty (initial_setup clock rawSetup) path = VNum (default_leaf path).
Proof.
  intros H. unfold required_leaves in H. cbn [In] in H.
  repeat (destruct H as [H|H]; [subst path; reflexivity|]).
  destruct H.
Qed.

(** [path] is a target of some field mapping of [m] *)
Definition is_target (m : CarMappingConfig) (path : string) : bool :=
  existsb (fun e => existsb (fun f => String.eqb (fst f) path) (snd e)) (fieldMappings m).

Lemma is_target_sound m path :
  is_target m path = true ->
  exists sec fields s, In (sec, fields) (fieldMappings m) /\ In (path, s) fields.
Proof.
  unfold is_target. intros H.
  apply existsb_exists in H as ([sec fields] & Hsec & H).
  apply existsb_exists in H as ([t s] & Hin & H).
  apply String.eqb_eq in H. cbn in H. subst t. cbn in Hin. eauto.
Qed.

Lemma required_leaf_mapped m path :
  shipped m -> In path required_leaves ->
  exists sec fields s, In (sec, fields) (fieldMappings m) /\ In (path, s) fields.
Proof.
  intros Hm H. apply is_target_sound.
  unfold required_leaves in H. cbn [In] in H.
  destruct Hm as [-> | ->];
    repeat (destruct H as [H|H]; [subst path; reflexivity|]);
    destruct H.
Qed.

Lemma alias2_absent section k1 k2 :
  own_prop section k1 = VUndefined -> own_prop section k2 = VUndefined ->
  parseNumber (alias2 section k1 k2) = 0%float.
Proof. intros H1 H2. unfold alias2. rewrite H1, H2. reflexivity. Qed.

Lemma alias3_absent section k1 k2 x :
  own_prop section k1 = VUndefined -> own_prop section k2 = VUndefined ->
  parseNumber (alias3 section k1 k2 (VNum x)) = x.
Proof. intros H1 H2. unfold alias3. rewrite H1, H2. reflexivity. Qed.

Lemma default_conversion_defined v :
  scalar v = true -> is_undefined (default_conversion v) = false.
Proof.
  destruct v as [| |b|x|s| |]; try discriminate; intros _; [reflexivity..|].
  cbn. now destruct (negb (is_nan (JsNumber.Number_string s))).
Qed.

(** A Ferrari table with a camber, a pressure that reads as a number and
    one that does not; the other keys are missing *)
Definition ferrari_partial_table : SetupFile := {|
  header := {| version := VStr "1.0"; carIdentifier := VStr "ferrari_488_gt3";
               trackIdentifier := VStr "spa"; name := VStr "Baseline";
               timestamp := VStr "2024-01-01T00:00:00.000Z" |};
  sections := [("TIRE", VObj [("PRESSURE_LF", VStr "abc"); ("PRESSURE_RF", VStr "172")]);
               ("SUSPENSION", VObj [("CAMBER_LF", VStr "3.0")])]
|}.

(** C7, amended.  Every record decoded by the generic fallback holds a
    number in each required leaf, and a leaf neither of whose raw keys is
    present is zero, except the brake bias, which is then 50.  Under a
    registered dialect every required leaf is a mapped field and is present
    in the record: it keeps its default (zero, 50 for the brake bias) when
    its source key is absent; it holds the number that the transform returns
    when the field has a transform; and without a transform it holds the raw
    number, the number that a raw text reads as, or else the raw value
    itself (a text that does not read as a number, or a boolean). *)
Theorem decoded_required_leaves (clock : nat -> string) :
  (forall rawSetup path,
      In path required_leaves ->
      get_mapping createDefaultParser (carIdentifier (header rawSetup)) = None ->
      exists setup x,
        convertToStructured clock createDefaultParser rawSetup = Ok setup /\
        getNestedProperty setup path = VNum x /\
        (forall cluster k1 k2,
            In (path, cluster, k1, k2) generic_probes ->
            own_prop (generic_section (sections rawSetup) cluster) k1 = VUndefined ->
            own_prop (generic_section (sections rawSetup) cluster) k2 = VUndefined ->
            x = 0%float) /\
        (path = "brakeBias" ->
         own_prop (generic_section (sections rawSetup) "BRAKE") "BIAS" = VUndefined ->
         own_prop (generic_section (sections rawSetup) "BRAKE") "BRAKE_BIAS" = VUndefined ->
         x = 50%float))
  /\ (forall rawSetup m path,
        In path required_leaves ->
        get_mapping createDefaultParser (carIdentifier (header rawSetup)) = Some m ->
        SetupFile_typed rawSetup = true ->
        exists setup,
          convertToStructured clock createDefaultParser rawSetup = Ok setup /\
          is_undefined (getNestedProperty setup path) = false /\
          (exists sec fields s,
              In (sec, fields) (fieldMappings m) /\ In (path, s) fields) /\
          forall sec fields s,
            In (sec, fields) (fieldMappings m) -> In (path, s) fields ->
            (raw_value (sections rawSetup) sec s = VUndefined ->
             getNestedProperty setup path = VNum (default_leaf path)) /\
            (forall transformation,
                raw_value (sections rawSetup) sec s <> VUndefined ->
                transformation_of m path = Some transformation ->
                exists x,
                  fromRaw transformation (raw_value (sections rawSetup) sec s)
                  = Ok (VNum x) /\
                  getNestedProperty setup path = VNum x) /\
            (transformation_of m path = None ->
             (forall x, raw_value (sections rawSetup) sec s = VNum x ->
                        getNestedProperty setup path = VNum x) /\
             (forall text, raw_value (sections rawSetup) sec s = VStr text ->
                           getNestedProperty setup path =
                           if is_nan (JsNumber.Number_string text) then VStr text
                           else VNum (JsNumber.Number_string text)) /\
             (forall b, raw_value (sections rawSetup) sec s = VBool b ->
                        getNestedProperty setup path = VBool b))).
Proof.
  split.
  - intros rawSetup path Hpath Hnone.
    destruct (required_leaf_generic clock rawSetup path Hpath) as [x Hx].
    exists (generic_setup clock rawSetup), x.
    split; [now apply convertToStructured_generic|].
    split; [exact Hx|]. split.
    + intros cluster k1 k2 Hin H1 H2.
      rewrite (generic_setup_probe _ _ _ _ _ _ Hin) in Hx.
      rewrite alias2_absent in Hx by assumption. now injection Hx.
    + intros -> H1 H2. rewrite generic_setup_brakeBias in Hx.
      rewrite alias3_absent in Hx by assumption. now injection Hx.
  - intros rawSetup m path Hpath Hm Ht.
    pose proof (default_parser_shipped _ _ Hm) as Hship.
    destruct (convertToStructured_shipped clock rawSetup m Hm Ht)
      as (setup & Hrun & _ & Hent).
    assert (Hleaf : forall sec fields s,
               In (sec, fields) (fieldMappings m) -> In (path, s) fields ->
               is_undefined (getNestedProperty setup path) = false /\
               (raw_value (sections rawSetup) sec s = VUndefined ->
                getNestedProperty setup path = VNum (default_leaf path)) /\
               (forall transformation,
                   raw_value (sections rawSetup) sec s <> VUndefined ->
                   transformation_of m path = Some transformation ->
                   exists x,
                     fromRaw transformation (raw_value (sections rawSetup) sec s)
                     = Ok (VNum x) /\
                     getNestedProperty setup path = VNum x) /\
               (transformation_of m path = None ->
                (forall x, raw_value (sections rawSetup) sec s = VNum x ->
                           getNestedProperty setup path = VNum x) /\
                (forall text, raw_value (sections rawSetup) sec s = VStr text ->
                              getNestedProperty setup path =
                              if is_nan (JsNumber.Number_string text) then VStr text
                              else VNum (JsNumber.Number_string text)) /\
                (forall b, raw_value (sections rawSetup) sec s = VBool b ->
                           getNestedProperty setup path = VBool b))).
    { intros sec fields s Hsec Hin.
      rewrite (Hent sec fields path s Hsec Hin), required_leaf_initial by exact Hpath.
      destruct (raw_value_typed rawSetup sec s Ht) as [Hraw | Hraw].
      + rewrite Hraw. cbn [is_undefined].
        split; [reflexivity|]. split; [reflexivity|].
        split; [intros tr Hne; congruence|].
        intros _. repeat split; intros ? ?; discriminate.
      + assert (Hu : is_undefined (raw_value (sections rawSetup) sec s) = false)
          by (destruct (raw_value (sections rawSetup) sec s); try discriminate;
              reflexivity).
        rewrite Hu.
        destruct (transformation_of m path) as [tr|] eqn:Htr.
        * destruct (shipped_converted_numeric m path tr _ Hship Htr Hraw) as [x Hx].
          rewrite Hx. split; [reflexivity|].
          split; [intros E; rewrite E in Hu; discriminate|].
          split; [|discriminate].
          intros tr' _ E. injection E as <-. exists x. split; [|reflexivity].
          unfold converted, convert_field in Hx. rewrite Htr in Hx.
          destruct (fromRaw tr (raw_value (sections rawSetup) sec s));
            try discriminate; now subst.
        * unfold converted, convert_field. rewrite Htr.
          split; [now apply default_conversion_defined|].
          split; [intros E; rewrite E in Hu; discriminate|].
          split; [discriminate|].
          intros _. repeat split.
          -- intros x ->. reflexivity.
          -- intros text ->. cbn [default_conversion].
             now destruct (is_nan (JsNumber.Number_string text)).
          -- intros b ->. reflexivity. }
    destruct (required_leaf_mapped m path Hship Hpath) as (sec & fields & s & Hsec & Hin).
    exists setup. split; [exact Hrun|].
    split; [exact (proj1 (Hleaf sec fields s Hsec Hin))|].
    split; [eauto|].
    intros sec' fields' s' Hsec' Hin'. exact (proj2 (Hleaf sec' fields' s' Hsec' Hin')).
Qed.

Lemma decoded_required_leaves_witness :
  (exists setup,
      convertToStructured sample_clock createDefaultParser empty_table = Ok setup /\
      getNestedProperty setup "suspension.front.camber" = VNum 0 /\
      getNestedProperty setup "brakeBias" = VNum 50)
  /\ (exists setup,
        convertToStructured sample_clock createDefaultParser ferrari_partial_table
        = Ok setup /\
        getNestedProperty setup "suspension.rear.camber" = VNum 0 /\
        getNestedProperty setup "brakeBias" = VNum 50 /\
        getNestedProperty setup "suspension.front.camber" = VNum (-3) /\
        getNestedProperty setup "tirePressures.frontRight" = VNum 172 /\
        getNestedProperty setup "tirePressures.frontLeft" = VStr "abc").
Proof.
  assert (Hreq : forall path, existsb (String.eqb path) required_leaves = true ->
                              In path required_leaves).
  { intros path H. apply existsb_exists in H as (q & Hq & E).
    apply String.eqb_eq in E. now subst. }
  split.
  - destruct (proj1 (decoded_required_leaves sample_clock) empty_table
                "suspension.front.camber" (Hreq "suspension.front.camber" eq_refl)
                unknown_car_has_no_mapping)
      as (setup & x & Hrun & Hx & Hzero & _).
    destruct (proj1 (decoded_required_leaves sample_clock) empty_table
                "brakeBias" (Hreq "brakeBias" eq_refl) unknown_car_has_no_mapping)
      as (setup' & y & Hrun' & Hy & _ & Hbrake).
    rewrite Hrun in Hrun'. injection Hrun' as <-.
    exists setup. split; [exact Hrun|]. split.
    + rewrite Hx. f_equal.
      apply (Hzero "SUSPENSION" "CAMBER_LF" "FRONT_CAMBER");
        [cbn; auto 20|reflexivity|reflexivity].
    + rewrite Hy. f_equal. apply Hbrake; reflexivity.
  - pose (leaf := fun path (Hpath : existsb (String.eqb path) required_leaves = true) =>
              proj2 (decoded_required_leaves sample_clock) ferrari_partial_table
                ferrari488GT3Mapping path (Hreq path Hpath) default_parser_ferrari
                eq_refl).
    destruct (leaf "suspension.rear.camber" eq_refl) as (setup & Hrun & _ & _ & Hrear).
    destruct (leaf "brakeBias" eq_refl) as (setup2 & Hrun2 & _ & _ & Hbrake).
    destruct (leaf "suspension.front.camber" eq_refl)
      as (setup3 & Hrun3 & _ & _ & Hfront).
    destruct (leaf "tirePressures.frontRight" eq_refl)
      as (setup4 & Hrun4 & _ & _ & Hright).
    destruct (leaf "tirePressures.frontLeft" eq_refl)
      as (setup5 & Hrun5 & _ & _ & Hleft).
    rewrite Hrun in Hrun2, Hrun3, Hrun4, Hrun5.
    injection Hrun2 as <-. injection Hrun3 as <-.
    injection Hrun4 as <-. injection Hrun5 as <-.
    exists setup. split; [exact Hrun|].
    pose (tire := nth 0 (fieldMappings ferrari488GT3Mapping) ("", [])).
    pose (suspension := nth 1 (fieldMappings ferrari488GT3Mapping) ("", [])).
    pose (brake := nth 3 (fieldMappings ferrari488GT3Mapping) ("", [])).
    split.
    { apply (proj1 (Hrear "SUSPENSION" (snd suspension) "CAMBER_LR"
                      ltac:(cbn; auto) ltac:(cbn; auto 20))).
      reflexivity. }
    split.
    { apply (proj1 (Hbrake "BRAKE" (snd brake) "BIAS"
                      ltac:(cbn; auto) ltac:(cbn; auto))).
      reflexivity. }
    split.
    { destruct (proj1 (proj2 (Hfront "SUSPENSION" (snd suspension) "CAMBER_LF"
                                ltac:(cbn; auto) ltac:(cbn; auto 20)))
                  sign_flip ltac:(discriminate) eq_refl) as (x & Hx & ->).
      vm_compute in Hx. now injection Hx as <-. }
    split.
    { destruct (proj2 (proj2 (Hright "TIRE" (snd tire) "PRESSURE_RF"
                                ltac:(cbn; auto) ltac:(cbn; auto)))
                  eq_refl) as (_ & Htext & _).
      rewrite (Htext "172" eq_refl). vm_compute. reflexivity. }
    destruct (proj2 (proj2 (Hleft "TIRE" (snd tire) "PRESSURE_LF"
                              ltac:(cbn; auto) ltac:(cbn; auto)))
                eq_refl) as (_ & Htext & _).
    rewrite (Htext "abc" eq_refl). vm_compute. reflexivity.
Defined.

(** ** Sections that the dialect does not map *)

Lemma additional_of_get secs names : forall acc k,
  obj_get (additional_of secs names acc) k =
  if includes names k && negb (includes known_sections k)
  then obj_get secs k else obj_get acc k.
Proof.
  induction names as [|n rest IH]; intros acc k; cbn [additional_of].
  - reflexivity.
  - unfold includes at 2. cbn [existsb]. fold (includes rest k).
    destruct (includes known_sections n) eqn:En; rewrite IH.
    + destruct (String.eqb k n) eqn:E; [|reflexivity].
      apply String.eqb_eq in E. subst n. rewrite En. cbn [orb negb].
      now rewrite andb_false_r.
    + destruct (String.eqb k n) eqn:E; cbn [orb].
      * apply String.eqb_eq in E. subst n. rewrite En. cbn [negb].
        rewrite andb_true_r, obj_get_set_same. now destruct (includes rest k).
      * rewrite obj_get_set_ne; [reflexivity|].
        intros ->. now rewrite String.eqb_refl in E.
Qed.

Lemma generic_setup_additionalSettings clock rawSetup :
  own_prop (generic_setup clock rawSetup) "additionalSettings"
  = VObj (additional_of (sections rawSetup) (obj_keys (sections rawSetup)) []).
Proof.
  unfold generic_setup. cbn zeta.
  destruct (0 <? own_keys_count _)%nat; destruct (0 <? length _)%nat; reflexivity.
Qed.


Lemma shipped_leave_top_level m k :
  shipped m -> In k ["carId"; "additionalSettings"] ->
  forallb (fun p => diverges p [k]) (mapping_paths (fieldMappings m)) = true.
Proof.
  intros Hm Hk. cbn [In] in Hk.
  destruct Hm as [-> | ->];
    repeat (destruct Hk as [Hk|Hk]; [subst k; vm_compute; reflexivity|]);
    destruct Hk.
Qed.



(** * Further properties of the codec *)

(** ** Writing and reading dotted paths *)




Lemma get_parts_cons c part rest :
  nullish c = false -> get_parts c (part :: rest) = get_parts (own_prop c part) rest.
Proof. cbn. now intros ->. Qed.







(** *** Writing the same path twice *)

Lemma obj_has_includes ps k : obj_has ps k = includes (obj_keys ps) k.
Proof.
  unfold includes, obj_keys.
  induction ps as [|[k' v] t IH]; cbn [obj_has map existsb fst]; [reflexivity|].
  now rewrite IH, String.eqb_sym.
Qed.

Lemma obj_has_update ps k v k' : obj_has (obj_update ps k v) k' = obj_has ps k'.
Proof.
  induction ps as [|[k0 v0] t IH]; cbn [obj_update obj_has]; [reflexivity|].
  destruct (String.eqb k0 k); cbn [obj_has]; [reflexivity|now rewrite IH].
Qed.

Lemma obj_has_insert_index ps i k v k' :
  obj_has (obj_insert_index ps i k v) k' = String.eqb k k' || obj_has ps k'.
Proof.
  induction ps as [|[k0 v0] t IH]; cbn [obj_insert_index obj_has]; [reflexivity|].
  destruct (array_index k0) as [j|]; [destruct (j <? i)%N|]; cbn [obj_has];
    try reflexivity.
  rewrite IH. now destruct (String.eqb k k'), (String.eqb k0 k').
Qed.

Lemma obj_has_set ps k v k' :
  obj_has (obj_set ps k v) k' = String.eqb k k' || obj_has ps k'.
Proof.
  unfold obj_set. destruct (obj_has ps k) eqn:E.
  - rewrite obj_has_update. destruct (String.eqb k k') eqn:Ek; [|reflexivity].
    apply String.eqb_eq in Ek. subst k'. now rewrite E.
  - unfold obj_add. destruct (array_index k) as [i|].
    + apply obj_has_insert_index.
    + rewrite obj_has_app. cbn [obj_has]. rewrite orb_false_r. apply orb_comm.
Qed.












(** ** [parseNumber] *)

Lemma is_nan_parseNumber_string s : is_nan (parseNumber (VStr s)) = false.
Proof.
  cbn. destruct (is_nan (JsNumber.parseFloat_string s)) eqn:E; [reflexivity|exact E].
Qed.

(** X4: [parseNumber] returns NaN for exactly one kind of argument, the
    number NaN itself, which it hands back unchanged; a text, a boolean, null,
    undefined, an object or an array never gives NaN. *)
Theorem parseNumber_nan_iff (v : value) :
  is_nan (parseNumber v) = true <-> exists x, v = VNum x /\ is_nan x = true.
Proof.
  split.
  - assert (Hz : is_nan zero = false) by reflexivity.
    destruct v as [| |b|x|s|ps|xs];
      try (cbn [parseNumber]; rewrite Hz; discriminate).
    + intros H. eauto.
    + rewrite is_nan_parseNumber_string. discriminate.
  - intros (x & -> & H). exact H.
Qed.

(** ** The registry built by the constructor *)

Lemma new_SetupParser_snoc ms m :
  carMappings (new_SetupParser (ms ++ [m]))
  = <[carId m := m]> (carMappings (new_SetupParser ms)).
Proof. unfold new_SetupParser. cbn. now rewrite fold_left_app. Qed.

(** X5: in a parser built from an array of mappings, a vehicle identifier is
    resolved to the last mapping of the array that carries it: later entries
    replace earlier ones, silently, and an identifier that no entry carries
    is not resolved. *)
Theorem constructor_last_mapping_wins (carMappingsArray : list CarMappingConfig)
    (id : string) :
  get_mapping (new_SetupParser carMappingsArray) (VStr id)
  = List.find (fun mapping => String.eqb (carId mapping) id) (rev carMappingsArray).
Proof.
  induction carMappingsArray as [|m ms IH] using rev_ind.
  - cbn. apply lookup_empty.
  - rewrite rev_app_distr. cbn [rev app List.find get_mapping].
    rewrite new_SetupParser_snoc.
    destruct (String.eqb (carId m) id) eqn:E.
    + apply String.eqb_eq in E. subst id. apply lookup_insert_eq.
    + apply String.eqb_neq in E. rewrite lookup_insert_ne by exact E. exact IH.
Qed.

(** ** Registering a mapping and converting afterwards *)

(** X6: a mapping takes effect as soon as it is registered, and for its own
    vehicle only: afterwards a table or a record of that vehicle is
    converted with the new mapping, whatever was registered for the vehicle
    before, and the conversion of every other table or record is what it
    was. *)
Theorem registerCarMapping_then_convert (clock : nat -> string) (mapping : CarMappingConfig)
    (p : SetupParser) :
  exists p',
    registerCarMapping mapping p = Ok p' /\
    (forall rawSetup,
        carIdentifier (header rawSetup) = VStr (carId mapping) ->
        convertToStructured clock p' rawSetup
        = applyCarMapping (initial_setup clock rawSetup) rawSetup mapping) /\
    (forall rawSetup,
        carIdentifier (header rawSetup) <> VStr (carId mapping) ->
        convertToStructured clock p' rawSetup = convertToStructured clock p rawSetup) /\
    (forall setup,
        nullish setup = false ->
        own_prop setup "carId" = VStr (carId mapping) ->
        convertToSto_rawSetup clock p' setup
        = applyCarMappingReverse setup (VObj (sto_header clock setup)) mapping) /\
    (forall setup,
        own_prop setup "carId" <> VStr (carId mapping) ->
        convertToSto_rawSetup clock p' setup = convertToSto_rawSetup clock p setup).
Proof.
  eexists. split; [reflexivity|].
  set (p' := {| carMappings := <[carId mapping := mapping]> (carMappings p) |}).
  assert (Hsame : get_mapping p' (VStr (carId mapping)) = Some mapping)
    by apply lookup_insert_eq.
  assert (Hother : forall key, key <> VStr (carId mapping) ->
                               get_mapping p' key = get_mapping p key).
  { intros key Hkey. destruct key; try reflexivity. cbn [get_mapping p' carMappings].
    apply lookup_insert_ne. intros E. apply Hkey. now rewrite E. }
  repeat split.
  - intros rawSetup Hcar. unfold convertToStructured. now rewrite Hcar, Hsame.
  - intros rawSetup Hcar. unfold convertToStructured. now rewrite Hother.
  - intros setup Hn Hcar. rewrite convertToSto_rawSetup_unfold by exact Hn.
    now rewrite Hcar, Hsame.
  - intros setup Hcar. unfold convertToSto_rawSetup. now rewrite Hother.
Qed.

(** ** The generic fallback: dampers, differential, gear ratios *)

(** X7: in the generic fallback the four damper fields are read from the
    DAMPER section as soon as the table has one (even an empty one), and the
    SUSPENSION section is then not consulted for them; they are read from
    the SUSPENSION section only when the table has no DAMPER section. *)
Theorem generic_dampers_section (clock : nat -> string) (parser : SetupParser)
    (rawSetup : SetupFile) :
  get_mapping parser (carIdentifier (header rawSetup)) = None ->
  exists setup,
    convertToStructured clock parser rawSetup = Ok setup /\
    forall path k1 k2,
      In (path, "DAMPER", k1, k2) generic_probes ->
      let damper := obj_get (sections rawSetup) "DAMPER" in
      let suspension := obj_get (sections rawSetup) "SUSPENSION" in
      (truthy damper = true ->
       getNestedProperty setup path = VNum (parseNumber (alias2 damper k1 k2))) /\
      (truthy damper = false -> truthy suspension = true ->
       getNestedProperty setup path = VNum (parseNumber (alias2 suspension k1 k2))) /\
      (truthy damper = false -> truthy suspension = false ->
       getNestedProperty setup path = VNum 0).
Proof.
  intros H. exists (generic_setup clock rawSetup).
  split; [now apply convertToStructured_generic|].
  intros path k1 k2 Hin damper suspension.
  rewrite (generic_setup_probe _ _ _ _ _ _ Hin).
  unfold generic_section, section_or. cbn [String.eqb Ascii.eqb Bool.eqb].
  fold damper suspension.
  repeat split.
  - now intros ->.
  - now intros -> ->.
  - intros -> ->. reflexivity.
Qed.

(** A table with an empty DAMPER section beside a SUSPENSION section that
    holds the bump setting *)
Definition empty_damper_section : SetupFile := {|
  header := header empty_table;
  sections := [("SUSPENSION", VObj [("BUMP_LF", VStr "7")]); ("DAMPER", VObj [])]
|}.

Lemma generic_dampers_section_witness :
  exists setup,
    convertToStructured sample_clock createDefaultParser empty_damper_section = Ok setup /\
    getNestedProperty setup "dampers.front.bump" = VNum 0.
Proof.
  destruct (generic_dampers_section sample_clock createDefaultParser empty_damper_section
              unknown_car_has_no_mapping) as (setup & Hrun & Hd).
  exists setup. split; [exact Hrun|].
  destruct (Hd "dampers.front.bump" "BUMP_LF" "FRONT_BUMP") as (Hdamper & _).
  - do 14 right. left. reflexivity.
  - rewrite Hdamper by reflexivity. vm_compute. reflexivity.
Defined.

Lemma generic_setup_differential clock rawSetup :
  own_prop (generic_setup clock rawSetup) "differential" =
  let diff := section_or (obj_get (sections rawSetup) "DIFFERENTIAL") (VObj []) in
  if (0 <? own_keys_count diff)%nat then
    VObj [("preload", VNum (parseNumber (alias3 diff "PRELOAD" "DIFF_PRELOAD" (VNum 0))));
          ("powerRamp", VNum (parseNumber (alias3 diff "POWER_RAMP" "DIFF_POWER" (VNum 0))));
          ("coastRamp", VNum (parseNumber (alias3 diff "COAST_RAMP" "DIFF_COAST" (VNum 0))))]
  else VUndefined.
Proof.
  unfold generic_setup. cbn zeta.
  destruct (0 <? own_keys_count _)%nat; [reflexivity|].
  destruct (0 <? length _)%nat; reflexivity.
Qed.

(** X8: in the generic fallback the decoded record has a [differential]
    block exactly when the DIFFERENTIAL section of the table has at least one
    key, whatever that key is; the block then holds its three fields as
    numbers, each read from its two aliases and zero when neither is set. *)
Theorem generic_differential_block (clock : nat -> string) (parser : SetupParser)
    (rawSetup : SetupFile) :
  get_mapping parser (carIdentifier (header rawSetup)) = None ->
  exists setup,
    convertToStructured clock parser rawSetup = Ok setup /\
    let diff := obj_get (sections rawSetup) "DIFFERENTIAL" in
    own_prop setup "differential" =
    if truthy diff && (0 <? own_keys_count diff)%nat then
      VObj [("preload", VNum (parseNumber (alias3 diff "PRELOAD" "DIFF_PRELOAD" (VNum 0))));
            ("powerRamp", VNum (parseNumber (alias3 diff "POWER_RAMP" "DIFF_POWER" (VNum 0))));
            ("coastRamp", VNum (parseNumber (alias3 diff "COAST_RAMP" "DIFF_COAST" (VNum 0))))]
    else VUndefined.
Proof.
  intros H. exists (generic_setup clock rawSetup).
  split; [now apply convertToStructured_generic|].
  rewrite generic_setup_differential. cbn zeta. unfold section_or.
  destruct (truthy (obj_get (sections rawSetup) "DIFFERENTIAL")); reflexivity.
Qed.

(** A DIFFERENTIAL section whose only key is none of the six that the
    fallback reads *)
Definition foreign_differential : SetupFile := {|
  header := header empty_table;
  sections := [("DIFFERENTIAL", VObj [("CLUTCH_PLATES", VStr "6")])]
|}.

Lemma generic_differential_block_witness :
  exists setup,
    convertToStructured sample_clock createDefaultParser foreign_differential = Ok setup /\
    own_prop setup "differential"
    = VObj [("preload", VNum 0); ("powerRamp", VNum 0); ("coastRamp", VNum 0)].
Proof.
  destruct (generic_differential_block sample_clock createDefaultParser foreign_differential
              unknown_car_has_no_mapping) as (setup & Hrun & Hd).
  exists setup. split; [exact Hrun|].
  rewrite Hd. vm_compute. reflexivity.
Defined.

Lemma flat_map_at_most_one {A B} (f : A -> list B) (P : B -> Prop) (l : list A) :
  (forall a, (length (f a) <= 1)%nat /\ Forall P (f a)) ->
  (length (flat_map f l) <= length l)%nat /\ Forall P (flat_map f l).
Proof.
  intros Hf. induction l as [|a l [IHl IHP]]; cbn [flat_map].
  - split; [reflexivity|constructor].
  - destruct (Hf a) as [Hl HP]. split.
    + rewrite length_app. cbn [length]. lia.
    + apply Forall_app. now split.
Qed.

Lemma gears_of_bound gearSection :
  (length (gears_of gearSection) <= 8)%nat /\
  Forall (fun g => exists x, g = VNum x) (gears_of gearSection).
Proof.
  unfold gears_of.
  apply (flat_map_at_most_one _ (fun g => exists x, g = VNum x) (seq 1 8)).
  intros i. cbn zeta. destruct (is_undefined _); cbn [length].
  - split; [lia|constructor].
  - split; [lia|]. constructor; [eauto|constructor].
Qed.

(** X9: in the generic fallback [gearRatios], when the decoded record has
    it, is an array of one to eight numbers; keys past GEAR_8 are never
    read, and the array is absent rather than empty when no gear is set. *)
Theorem generic_gear_ratios_bound (clock : nat -> string) (parser : SetupParser)
    (rawSetup : SetupFile) :
  get_mapping parser (carIdentifier (header rawSetup)) = None ->
  exists setup,
    convertToStructured clock parser rawSetup = Ok setup /\
    (own_prop setup "gearRatios" = VUndefined \/
     exists gearRatios,
       own_prop setup "gearRatios" = VArr gearRatios /\
       (1 <= length gearRatios <= 8)%nat /\
       Forall (fun g => exists x, g = VNum x) gearRatios).
Proof.
  intros H. exists (generic_setup clock rawSetup).
  split; [now apply convertToStructured_generic|].
  rewrite generic_setup_gearRatios.
  destruct (gears_of_bound (section_or (obj_get (sections rawSetup) "GEARS") (VObj [])))
    as [Hl HP].
  destruct (gears_of _) as [|g gs]; [left; reflexivity|].
  right. exists (g :: gs). repeat split; [cbn [length]; lia|exact Hl|exact HP].
Qed.

(** A GEARS section with nine gears *)
Definition nine_gears : SetupFile := {|
  header := header empty_table;
  sections := [("GEARS", VObj [("GEAR_1", VStr "9"); ("GEAR_2", VStr "8");
                               ("GEAR_3", VStr "7"); ("GEAR_4", VStr "6");
                               ("GEAR_5", VStr "5"); ("GEAR_6", VStr "4");
                               ("GEAR_7", VStr "3"); ("GEAR_8", VStr "2");
                               ("GEAR_9", VStr "1")])]
|}.

Lemma generic_gear_ratios_bound_witness :
  exists setup,
    convertToStructured sample_clock createDefaultParser nine_gears = Ok setup /\
    (own_prop setup "gearRatios" = VUndefined \/
     exists gearRatios,
       own_prop setup "gearRatios" = VArr gearRatios /\
       (1 <= length gearRatios <= 8)%nat /\
       Forall (fun g => exists x, g = VNum x) gearRatios).
Proof.
  exact (generic_gear_ratios_bound sample_clock createDefaultParser nine_gears
           unknown_car_has_no_mapping).
Defined.

(** ** Identification and metadata of a decoded record *)

Lemma shipped_leave_identification m q :
  shipped m -> In q [["carId"]; ["trackId"]; ["name"]; ["metadata"]] ->
  forallb (fun p => diverges p q) (mapping_paths (fieldMappings m)) = true.
Proof.
  intros Hm Hq. cbn [In] in Hq.
  destruct Hm as [-> | ->];
    repeat (destruct Hq as [Hq|Hq]; [subst q; vm_compute; reflexivity|]);
    destruct Hq.
Qed.

Lemma convertToStructured_identification clock rawSetup :
  get_mapping createDefaultParser (carIdentifier (header rawSetup)) = None
  \/ SetupFile_typed rawSetup = true ->
  exists setup,
    convertToStructured clock createDefaultParser rawSetup = Ok setup /\
    forall q, In q [["carId"]; ["trackId"]; ["name"]; ["metadata"]] ->
              get_parts setup q = get_parts (initial_setup clock rawSetup) q.
Proof.
  intros H.
  destruct (get_mapping createDefaultParser (carIdentifier (header rawSetup)))
    as [m|] eqn:Hm.
  - destruct H as [H|H]; [discriminate|].
    destruct (convertToStructured_shipped clock rawSetup m Hm H)
      as (setup & Hrun & Hframe & _).
    pose proof (default_parser_shipped _ _ Hm) as Hs.
    exists setup. split; [exact Hrun|].
    intros q Hq. apply Hframe. now apply shipped_leave_identification.
  - exists (generic_setup clock rawSetup).
    split; [now apply convertToStructured_generic|].
    intros q Hq. cbn [In] in Hq.
    repeat (destruct Hq as [Hq|Hq]; [subst q; reflexivity|]).
    destruct Hq.
Qed.

(** X10: decoding copies the identification of the table into the record and
    nothing else writes to it: [carId], [trackId] and [name] are the header's
    vehicle, track and name, and [metadata] holds the header's version and,
    as creation and modification time, the header's timestamp (a reading of
    the clock when the header has none); this holds under the generic
    fallback and under both registered dialects. *)
Theorem decode_keeps_identification (clock : nat -> string) (rawSetup : SetupFile) :
  get_mapping createDefaultParser (carIdentifier (header rawSetup)) = None
  \/ SetupFile_typed rawSetup = true ->
  exists setup,
    convertToStructured clock createDefaultParser rawSetup = Ok setup /\
    getNestedProperty setup "carId" = carIdentifier (header rawSetup) /\
    getNestedProperty setup "trackId" = trackIdentifier (header rawSetup) /\
    getNestedProperty setup "name" = name (header rawSetup) /\
    getNestedProperty setup "metadata" =
    let stamp (i : nat) :=
      if truthy (timestamp (header rawSetup)) then timestamp (header rawSetup)
      else VStr (clock i) in
    VObj [("created", stamp 1%nat); ("modified", stamp 2%nat);
          ("version", version (header rawSetup))].
Proof.
  intros H.
  destruct (convertToStructured_identification clock rawSetup H) as (setup & Hrun & Hq).
  exists setup. split; [exact Hrun|].
  unfold getNestedProperty.
  repeat split; (rewrite Hq; [reflexivity|cbn; auto]).
Qed.

Lemma decode_keeps_identification_witness :
  exists setup,
    convertToStructured sample_clock createDefaultParser ferrari_camber_table = Ok setup /\
    getNestedProperty setup "carId" = VStr "ferrari_488_gt3" /\
    getNestedProperty setup "trackId" = VStr "spa" /\
    getNestedProperty setup "name" = VStr "Baseline" /\
    getNestedProperty setup "metadata" =
    VObj [("created", VStr "2024-01-01T00:00:00.000Z");
          ("modified", VStr "2024-01-01T00:00:00.000Z");
          ("version", VStr "1.0")].
Proof.
  apply (decode_keeps_identification sample_clock ferrari_camber_table).
  right. reflexivity.
Defined.

(** ** Parsing a text with the default parser *)





(** ** The generic encoder, stage by stage

    [applyGenericMappingReverse] is one sequence of statements.  The four
    definitions below cut it into its stages, each handing the raw object to
    the rest of the sequence; [applyGenericMappingReverse_stages] checks, by
    computation alone, that the stages put together are the encoder. *)

Definition reverse_required (setup rawSetup : value) (rest : value -> result value)
  : result value :=
  rawSetup ← setProp rawSetup "TIRE" (VObj []);
  rawSetup ← setProp rawSetup "SUSPENSION" (VObj []);
  rawSetup ← setProp rawSetup "AERO" (VObj []);
  rawSetup ← setProp rawSetup "BRAKE" (VObj []);
  rawSetup ← copy_field setup ["tirePressures"; "frontLeft"] ["TIRE"; "LEFT_FRONT"] rawSetup;
  rawSetup ← copy_field setup ["tirePressures"; "frontRight"] ["TIRE"; "RIGHT_FRONT"] rawSetup;
  rawSetup ← copy_field setup ["tirePressures"; "rearLeft"] ["TIRE"; "LEFT_REAR"] rawSetup;
  rawSetup ← copy_field setup ["tirePressures"; "rearRight"] ["TIRE"; "RIGHT_REAR"] rawSetup;
  rawSetup ← copy_field setup ["suspension"; "front"; "springRate"] ["SUSPENSION"; "SPRING_RATE_LF"] rawSetup;
  rawSetup ← copy_field setup ["suspension"; "front"; "rideHeight"] ["SUSPENSION"; "RIDE_HEIGHT_LF"] rawSetup;
  rawSetup ← copy_field setup ["suspension"; "front"; "camber"] ["SUSPENSION"; "CAMBER_LF"] rawSetup;
  rawSetup ← copy_field setup ["suspension"; "front"; "toe"] ["SUSPENSION"; "TOE_IN_LF"] rawSetup;
  rawSetup ← copy_field setup ["suspension"; "front"; "antiRollBar"] ["SUSPENSION"; "FRONT_ANTI_ROLL_BAR"] rawSetup;
  rawSetup ← copy_field setup ["suspension"; "rear"; "springRate"] ["SUSPENSION"; "SPRING_RATE_LR"] rawSetup;
  rawSetup ← copy_field setup ["suspension"; "rear"; "rideHeight"] ["SUSPENSION"; "RIDE_HEIGHT_LR"] rawSetup;
  rawSetup ← copy_field setup ["suspension"; "rear"; "camber"] ["SUSPENSION"; "CAMBER_LR"] rawSetup;
  rawSetup ← copy_field setup ["suspension"; "rear"; "toe"] ["SUSPENSION"; "TOE_IN_LR"] rawSetup;
  rawSetup ← copy_field setup ["suspension"; "rear"; "antiRollBar"] ["SUSPENSION"; "REAR_ANTI_ROLL_BAR"] rawSetup;
  rawSetup ← copy_field setup ["dampers"; "front"; "bump"] ["SUSPENSION"; "BUMP_LF"] rawSetup;
  rawSetup ← copy_field setup ["dampers"; "front"; "rebound"] ["SUSPENSION"; "REBOUND_LF"] rawSetup;
  rawSetup ← copy_field setup ["dampers"; "rear"; "bump"] ["SUSPENSION"; "BUMP_LR"] rawSetup;
  rawSetup ← copy_field setup ["dampers"; "rear"; "rebound"] ["SUSPENSION"; "REBOUND_LR"] rawSetup;
  frontWing ← read_path setup ["aero"; "frontWing"];
  rawSetup ← (if negb (is_undefined frontWing)
              then assign_path rawSetup ["AERO"; "FRONT_WING"] frontWing else Ok rawSetup);
  rearWing ← read_path setup ["aero"; "rearWing"];
  rawSetup ← (if negb (is_undefined rearWing)
              then assign_path rawSetup ["AERO"; "REAR_WING"] rearWing else Ok rawSetup);
  rawSetup ← copy_field setup ["brakeBias"] ["BRAKE"; "BIAS"] rawSetup;
  rest rawSetup.

Definition reverse_differential (setup rawSetup : value) (rest : value -> result value)
  : result value :=
  differential ← getProp setup "differential";
  rawSetup ←
    (if truthy differential then
       preload ← getProp differential "preload";
       rawSetup ← setProp rawSetup "DIFFERENTIAL" (VObj [("PRELOAD", preload)]);
       powerRamp ← getProp differential "powerRamp";
       rawSetup ← (if negb (is_undefined powerRamp)
                   then assign_path rawSetup ["DIFFERENTIAL"; "POWER_RAMP"] powerRamp
                   else Ok rawSetup);
       coastRamp ← getProp differential "coastRamp";
       (if negb (is_undefined coastRamp)
        then assign_path rawSetup ["DIFFERENTIAL"; "COAST_RAMP"] coastRamp
        else Ok rawSetup)
     else Ok rawSetup);
  rest rawSetup.

Definition reverse_gears (setup rawSetup : value) (rest : value -> result value)
  : result value :=
  gearRatios ← getProp setup "gearRatios";
  rawSetup ←
    (if truthy gearRatios then
       match gearRatios with
       | VArr items =>
           if (0 <? length items)%nat then
             rawSetup ← setProp rawSetup "GEARS" (VObj []);
             emit_gears items 0 rawSetup
           else Ok rawSetup
       | VStr s =>
           rawSetup ← setProp rawSetup "GEARS" (VObj []);
           emit_gears (characters s) 0 rawSetup
       | VObj _ => Unmodelled
       | _ => Ok rawSetup
       end
     else Ok rawSetup);
  rest rawSetup.

Definition reverse_additional (setup rawSetup : value) : result value :=
  additionalSettings ← getProp setup "additionalSettings";
  if truthy additionalSettings then
    match additionalSettings with
    | VObj ps =>
        fold_left (fun acc sectionName =>
                     rawSetup ← acc;
                     setProp rawSetup sectionName (obj_get ps sectionName))
                  (obj_keys ps) (Ok rawSetup)
    | VArr xs =>
        fold_left (fun acc i =>
                     rawSetup ← acc;
                     setProp rawSetup (JsNumber.nat_to_string i) (nth i xs VUndefined))
                  (seq 0 (length xs)) (Ok rawSetup)
    | VStr s =>
        fold_left (fun acc i =>
                     rawSetup ← acc;
                     setProp rawSetup (JsNumber.nat_to_string i) (string_index s i))
                  (seq 0 (String.length s)) (Ok rawSetup)
    | _ => Ok rawSetup
    end
  else Ok rawSetup.

Lemma applyGenericMappingReverse_stages setup rawSetup :
  applyGenericMappingReverse setup rawSetup =
  reverse_required setup rawSetup (fun rawSetup =>
  reverse_differential setup rawSetup (fun rawSetup =>
  reverse_gears setup rawSetup (fun rawSetup =>
  reverse_additional setup rawSetup))).
Proof. reflexivity. Qed.

(** *** Reading a member chain *)

Definition cannot_read : exn := TypeError "Cannot read properties of undefined or null".

Lemma get_parts_nullish c parts : parts <> [] -> nullish c = true -> get_parts c parts = VUndefined.
Proof. destruct parts; [contradiction|]. cbn. now intros _ ->. Qed.

Lemma read_path_cons c k rest :
  read_path c (k :: rest) = (child ← getProp c k; read_path child rest).
Proof. reflexivity. Qed.

Lemma read_path_ok ks : forall c,
  ks <> [] -> nullish (get_parts c (removelast ks)) = false ->
  read_path c ks = Ok (get_parts c ks).
Proof.
  induction ks as [|k rest IH]; intros c Hne H; [contradiction|].
  destruct rest as [|r rest'].
  - cbn [removelast get_parts] in H. cbn [read_path get_parts].
    rewrite getProp_not_nullish by exact H. rewrite H. reflexivity.
  - change (removelast (k :: r :: rest')) with (k :: removelast (r :: rest')) in H.
    destruct (nullish c) eqn:Hc.
    + cbn [get_parts] in H. rewrite Hc in H. discriminate.
    + cbn [get_parts] in H. rewrite Hc in H.
      rewrite read_path_cons, getProp_not_nullish, bind_Ok by exact Hc.
      rewrite IH by (discriminate || exact H).
      cbn [get_parts]. now rewrite Hc.
Qed.

Lemma read_path_throw ks : forall c,
  ks <> [] -> nullish (get_parts c (removelast ks)) = true ->
  read_path c ks = Throw cannot_read.
Proof.
  induction ks as [|k rest IH]; intros c Hne H; [contradiction|].
  destruct rest as [|r rest'].
  - cbn [removelast get_parts] in H. cbn [read_path]. unfold getProp. now rewrite H.
  - change (removelast (k :: r :: rest')) with (k :: removelast (r :: rest')) in H.
    rewrite read_path_cons. destruct (nullish c) eqn:Hc.
    + unfold getProp. now rewrite Hc.
    + cbn [get_parts] in H. rewrite Hc in H.
      rewrite getProp_not_nullish, bind_Ok by exact Hc.
      apply IH; [discriminate|exact H].
Qed.

Lemma copy_field_ok setup source target rawSetup :
  source <> [] -> nullish (get_parts setup (removelast source)) = false ->
  copy_field setup source target rawSetup
  = assign_path rawSetup target (get_parts setup source).
Proof. intros Hne H. unfold copy_field. now rewrite read_path_ok. Qed.

Lemma copy_field_throw setup source target rawSetup :
  source <> [] -> nullish (get_parts setup (removelast source)) = true ->
  copy_field setup source target rawSetup = Throw cannot_read.
Proof. intros Hne H. unfold copy_field. now rewrite read_path_throw. Qed.

(** *** The required sections *)

(** The member chains that the encoder reads without a guard: each of these
    containers must be there. *)
Definition required_containers : list (list string) :=
  [ ["tirePressures"]; ["suspension"; "front"]; ["suspension"; "rear"];
    ["dampers"; "front"]; ["dampers"; "rear"]; ["aero"] ].

Definition shaped (setup : value) : bool :=
  forallb (fun container => negb (nullish (get_parts setup container))) required_containers.

Definition opt_entry (k : string) (v : value) : obj :=
  if is_undefined v then [] else [(k, v)].

Definition required_sections (setup : value) : obj :=
  let get := get_parts setup in
  [ ("TIRE", VObj [
       ("LEFT_FRONT", get ["tirePressures"; "frontLeft"]);
       ("RIGHT_FRONT", get ["tirePressures"; "frontRight"]);
       ("LEFT_REAR", get ["tirePressures"; "rearLeft"]);
       ("RIGHT_REAR", get ["tirePressures"; "rearRight"]) ]);
    ("SUSPENSION", VObj [
       ("SPRING_RATE_LF", get ["suspension"; "front"; "springRate"]);
       ("RIDE_HEIGHT_LF", get ["suspension"; "front"; "rideHeight"]);
       ("CAMBER_LF", get ["suspension"; "front"; "camber"]);
       ("TOE_IN_LF", get ["suspension"; "front"; "toe"]);
       ("FRONT_ANTI_ROLL_BAR", get ["suspension"; "front"; "antiRollBar"]);
       ("SPRING_RATE_LR", get ["suspension"; "rear"; "springRate"]);
       ("RIDE_HEIGHT_LR", get ["suspension"; "rear"; "rideHeight"]);
       ("CAMBER_LR", get ["suspension"; "rear"; "camber"]);
       ("TOE_IN_LR", get ["suspension"; "rear"; "toe"]);
       ("REAR_ANTI_ROLL_BAR", get ["suspension"; "rear"; "antiRollBar"]);
       ("BUMP_LF", get ["dampers"; "front"; "bump"]);
       ("REBOUND_LF", get ["dampers"; "front"; "rebound"]);
       ("BUMP_LR", get ["dampers"; "rear"; "bump"]);
       ("REBOUND_LR", get ["dampers"; "rear"; "rebound"]) ]);
    ("AERO", VObj (opt_entry "FRONT_WING" (get ["aero"; "frontWing"])
                   ++ opt_entry "REAR_WING" (get ["aero"; "rearWing"])));
    ("BRAKE", VObj [("BIAS", get ["brakeBias"])]) ].

Ltac run_setProp :=
  match goal with
  | |- (setProp ?s ?k ?v ≫= _) = _ =>
      let r := eval cbv in (setProp s k v) in
      change (setProp s k v) with r; rewrite bind_Ok; cbn beta
  end.

Ltac copy_step H :=
  rewrite copy_field_ok by (discriminate || exact H);
  match goal with
  | |- (assign_path _ _ ?x ≫= _) = _ => generalize x; intro
  end;
  run_assign.

Ltac copy_fails H :=
  rewrite copy_field_throw by (discriminate || exact H); reflexivity.

Lemma reverse_required_spec setup a b c d e rest :
  let hdr := [("VERSION", a); ("CAR", b); ("TRACK", c); ("TIMESTAMP", d); ("SETUPS", e)] in
  reverse_required setup (VObj hdr) rest =
  if shaped setup then rest (VObj (hdr ++ required_sections setup))
  else Throw cannot_read.
Proof.
  cbn zeta. unfold reverse_required, shaped, required_sections, required_containers.
  cbn [forallb]. cbn zeta.
  do 4 run_setProp.
  destruct (nullish (get_parts setup ["tirePressures"])) eqn:Htire;
    [copy_fails Htire|].
  do 4 copy_step Htire.
  destruct (nullish (get_parts setup ["suspension"; "front"])) eqn:Hfront;
    [copy_fails Hfront|].
  do 5 copy_step Hfront.
  destruct (nullish (get_parts setup ["suspension"; "rear"])) eqn:Hrear;
    [copy_fails Hrear|].
  do 5 copy_step Hrear.
  destruct (nullish (get_parts setup ["dampers"; "front"])) eqn:Hdf;
    [copy_fails Hdf|].
  do 2 copy_step Hdf.
  destruct (nullish (get_parts setup ["dampers"; "rear"])) eqn:Hdr;
    [copy_fails Hdr|].
  do 2 copy_step Hdr.
  destruct (nullish (get_parts setup ["aero"])) eqn:Haero.
  { rewrite (read_path_throw ["aero"; "frontWing"] setup)
      by (discriminate || exact Haero).
    reflexivity. }
  assert (Hsetup : nullish (get_parts setup []) = false).
  { cbn [get_parts]. destruct (nullish setup) eqn:Hn; [|reflexivity].
    cbn [get_parts] in Haero. rewrite Hn in Haero. discriminate. }
  rewrite !read_path_ok by (discriminate || exact Haero).
  rewrite bind_Ok. cbn beta. unfold opt_entry.
  generalize (get_parts setup ["aero"; "frontWing"]). intros frontWing.
  generalize (get_parts setup ["aero"; "rearWing"]). intros rearWing.
  destruct (is_undefined frontWing); cbn [negb];
    [rewrite bind_Ok; cbn beta | run_assign];
    rewrite bind_Ok; cbn beta;
    (destruct (is_undefined rearWing); cbn [negb];
       [rewrite bind_Ok; cbn beta | run_assign]);
    copy_step Hsetup; reflexivity.
Qed.

(** *** The optional sections *)

Lemma obj_set_fresh ps k v :
  obj_has ps k = false -> array_index k = None -> obj_set ps k v = ps ++ [(k, v)].
Proof. intros H Hi. unfold obj_set, obj_add. now rewrite H, Hi. Qed.

Lemma assign_path_last ps k a s v :
  obj_has ps k = false ->
  assign_path (VObj (ps ++ [(k, VObj a)])) [k; s] v
  = Ok (VObj (ps ++ [(k, VObj (obj_set a s v))])).
Proof.
  intros H. cbn [assign_path]. rewrite getProp_not_nullish by reflexivity.
  rewrite bind_Ok, own_prop_obj, obj_get_app, H. cbn [obj_get].
  rewrite String.eqb_refl. cbn [setProp]. rewrite bind_Ok. cbn [setProp].
  unfold obj_set at 1. rewrite obj_has_app, H. cbn [obj_has].
  rewrite String.eqb_refl. cbn [orb]. now rewrite obj_update_app_last.
Qed.

Definition differential_section (setup : value) : obj :=
  let differential := own_prop setup "differential" in
  if truthy differential then
    [("DIFFERENTIAL",
      VObj (("PRELOAD", own_prop differential "preload")
            :: opt_entry "POWER_RAMP" (own_prop differential "powerRamp")
            ++ opt_entry "COAST_RAMP" (own_prop differential "coastRamp")))]
  else [].

Lemma reverse_differential_spec setup ps rest :
  nullish setup = false -> obj_has ps "DIFFERENTIAL" = false ->
  reverse_differential setup (VObj ps) rest
  = rest (VObj (ps ++ differential_section setup)).
Proof.
  intros Hn Hps. unfold reverse_differential, differential_section. cbn zeta.
  rewrite getProp_not_nullish, bind_Ok by exact Hn. cbn beta.
  generalize (own_prop setup "differential"). intros differential.
  destruct (truthy differential) eqn:Ht.
  - rewrite !getProp_not_nullish by now apply truthy_not_nullish.
    rewrite bind_Ok. cbn beta. cbn [setProp].
    rewrite obj_set_fresh by (exact Hps || reflexivity).
    rewrite !bind_Ok. cbn beta. unfold opt_entry.
    generalize (own_prop differential "preload"). intros preload.
    generalize (own_prop differential "powerRamp"). intros powerRamp.
    generalize (own_prop differential "coastRamp"). intros coastRamp.
    destruct (is_undefined powerRamp); cbn [negb];
      [|rewrite assign_path_last by exact Hps];
      rewrite !bind_Ok; cbn beta;
      (destruct (is_undefined coastRamp); cbn [negb];
         [|rewrite assign_path_last by exact Hps]);
      rewrite bind_Ok; reflexivity.
  - rewrite bind_Ok. now rewrite app_nil_r.
Qed.

(** The entries that the gear loop writes, numbered from [i + 1] on *)
Fixpoint gear_entries (items : list value) (i : nat) : obj :=
  match items with
  | [] => []
  | g :: rest => (gear_key (S i), g) :: gear_entries rest (S i)
  end.

Definition gears_section (setup : value) : obj :=
  match own_prop setup "gearRatios" with
  | VArr items =>
      if (0 <? length items)%nat then [("GEARS", VObj (gear_entries items 0))] else []
  | VStr s =>
      if negb (String.eqb s "") then [("GEARS", VObj (gear_entries (characters s) 0))]
      else []
  | _ => []
  end.

Lemma nat_to_string_inj i j : JsNumber.nat_to_string i = JsNumber.nat_to_string j -> i = j.
Proof.
  unfold JsNumber.nat_to_string. intros H.
  apply (f_equal NilEmpty.uint_of_string) in H.
  rewrite !NilEmpty.usu in H. injection H as H.
  apply (f_equal Nat.of_uint) in H. now rewrite !DecimalNat.Unsigned.of_to in H.
Qed.

Lemma gear_key_inj i j : gear_key i = gear_key j -> i = j.
Proof. unfold gear_key. cbn. intros H. injection H as H. now apply nat_to_string_inj. Qed.

Lemma gear_key_not_index i : array_index (gear_key i) = None.
Proof. reflexivity. Qed.

Lemma gear_key_eqb i j : String.eqb (gear_key i) (gear_key j) = Nat.eqb i j.
Proof.
  destruct (Nat.eqb i j) eqn:E.
  - apply Nat.eqb_eq in E. subst. apply String.eqb_refl.
  - apply String.eqb_neq. intros H. apply gear_key_inj in H.
    apply Nat.eqb_neq in E. contradiction.
Qed.

Lemma emit_gears_spec items : forall i ps g,
  obj_has ps "GEARS" = false ->
  (forall j, (i < j)%nat -> obj_has g (gear_key j) = false) ->
  emit_gears items i (VObj (ps ++ [("GEARS", VObj g)]))
  = Ok (VObj (ps ++ [("GEARS", VObj (g ++ gear_entries items i))])).
Proof.
  induction items as [|x items IH]; intros i ps g Hps Hg; cbn [emit_gears gear_entries].
  - now rewrite app_nil_r.
  - rewrite assign_path_last, bind_Ok by exact Hps.
    rewrite obj_set_fresh by (apply Hg; lia) || apply gear_key_not_index.
    rewrite IH; [now rewrite <- app_assoc|exact Hps|].
    intros j Hj. rewrite obj_has_app, Hg by lia. cbn [obj_has].
    rewrite gear_key_eqb, orb_false_r. apply Nat.eqb_neq. lia.
Qed.

Lemma reverse_gears_spec setup ps rest :
  nullish setup = false -> obj_has ps "GEARS" = false ->
  reverse_gears setup (VObj ps) rest =
  match own_prop setup "gearRatios" with
  | VObj _ => Unmodelled
  | _ => rest (VObj (ps ++ gears_section setup))
  end.
Proof.
  intros Hn Hps. unfold reverse_gears, gears_section.
  rewrite getProp_not_nullish, bind_Ok by exact Hn. cbn beta.
  assert (Hemit : forall items,
    (setProp (VObj ps) "GEARS" (VObj []) ≫= emit_gears items 0)
    = Ok (VObj (ps ++ [("GEARS", VObj (gear_entries items 0))]))).
  { intros items. cbn [setProp]. rewrite obj_set_fresh by (exact Hps || reflexivity).
    rewrite bind_Ok. now rewrite emit_gears_spec. }
  destruct (own_prop setup "gearRatios") as [| |b|x|s|a|items].
  - cbn [truthy]. rewrite bind_Ok. now rewrite app_nil_r.
  - cbn [truthy]. rewrite bind_Ok. now rewrite app_nil_r.
  - destruct b; cbn [truthy]; rewrite bind_Ok; now rewrite app_nil_r.
  - destruct (truthy (VNum x)); rewrite bind_Ok; now rewrite app_nil_r.
  - cbn [truthy]. destruct (negb (String.eqb s "")).
    + change (λ rawSetup : value, emit_gears (characters s) 0 rawSetup)
        with (emit_gears (characters s) 0).
      rewrite Hemit, bind_Ok. reflexivity.
    + rewrite bind_Ok. now rewrite app_nil_r.
  - reflexivity.
  - cbn [truthy]. destruct (0 <? length items)%nat.
    + change (λ rawSetup : value, emit_gears items 0 rawSetup)
        with (emit_gears items 0).
      rewrite Hemit, bind_Ok. reflexivity.
    + rewrite bind_Ok. now rewrite app_nil_r.
Qed.

(** *** The additional sections *)

(** The loop [for (const sectionName in setup.additionalSettings)
    rawSetup[sectionName] = setup.additionalSettings[sectionName]], as a
    function of the raw object *)
Definition merge_additional (ps : obj) (additionalSettings : value) : obj :=
  if truthy additionalSettings then
    match additionalSettings with
    | VObj a =>
        fold_left (fun acc sectionName => obj_set acc sectionName (obj_get a sectionName))
                  (obj_keys a) ps
    | VArr xs =>
        fold_left (fun acc i => obj_set acc (JsNumber.nat_to_string i) (nth i xs VUndefined))
                  (seq 0 (length xs)) ps
    | VStr s =>
        fold_left (fun acc i => obj_set acc (JsNumber.nat_to_string i) (string_index s i))
                  (seq 0 (String.length s)) ps
    | _ => ps
    end
  else ps.

Lemma fold_setProp {A} (key : A -> string) (val : A -> value) (l : list A) : forall ps,
  fold_left (fun acc x => rawSetup ← acc; setProp rawSetup (key x) (val x)) l (Ok (VObj ps))
  = Ok (VObj (fold_left (fun acc x => obj_set acc (key x) (val x)) l ps)).
Proof. induction l as [|x l IH]; intros ps; cbn [fold_left]; [reflexivity|apply IH]. Qed.

Lemma reverse_additional_spec setup ps :
  nullish setup = false ->
  reverse_additional setup (VObj ps)
  = Ok (VObj (merge_additional ps (own_prop setup "additionalSettings"))).
Proof.
  intros Hn. unfold reverse_additional, merge_additional.
  rewrite getProp_not_nullish, bind_Ok by exact Hn. cbn beta.
  destruct (own_prop setup "additionalSettings") as [| |b|x|s|a|xs];
    try (destruct (truthy _); reflexivity).
  - destruct (truthy (VStr s)); [|reflexivity].
    exact (fold_setProp JsNumber.nat_to_string (string_index s) _ ps).
  - cbn [truthy]. exact (fold_setProp (fun k => k) (obj_get a) _ ps).
  - cbn [truthy].
    exact (fold_setProp JsNumber.nat_to_string (fun i => nth i xs VUndefined) _ ps).
Qed.

(** *** The encoder as a function of the record *)

Section GenericEncode.

Variable clock : nat -> string.
Variable parser : SetupParser.

(** What [convertToSto] hands to the INI writer when the vehicle has no
    registered dialect *)
Definition generic_sto (setup : value) : obj :=
  merge_additional
    (sto_header clock setup ++ required_sections setup
     ++ differential_section setup ++ gears_section setup)
    (own_prop setup "additionalSettings").

Lemma shaped_not_nullish setup : shaped setup = true -> nullish setup = false.
Proof.
  unfold shaped, required_containers. cbn [forallb get_parts].
  destruct (nullish setup); [discriminate|reflexivity].
Qed.

Lemma convertToSto_generic setup :
  get_mapping parser (own_prop setup "carId") = None ->
  convertToSto_rawSetup clock parser setup =
  if shaped setup then
    match own_prop setup "gearRatios" with
    | VObj _ => Unmodelled
    | _ => Ok (VObj (generic_sto setup))
    end
  else Throw cannot_read.
Proof.
  intros Hm. destruct (nullish setup) eqn:Hn.
  - assert (Hs : shaped setup = false).
    { destruct (shaped setup) eqn:Hs; [|reflexivity].
      apply shaped_not_nullish in Hs. congruence. }
    rewrite Hs. unfold convertToSto_rawSetup, getProp. now rewrite Hn.
  - rewrite convertToSto_rawSetup_unfold, Hm by exact Hn.
    rewrite applyGenericMappingReverse_stages.
    unfold sto_header at 1. cbn zeta.
    rewrite (reverse_required_spec setup). cbn zeta.
    destruct (shaped setup); [|reflexivity].
    rewrite reverse_differential_spec by (exact Hn || reflexivity).
    rewrite reverse_gears_spec;
      [|exact Hn|unfold differential_section; cbn zeta;
                  destruct (truthy (own_prop setup "differential")); reflexivity].
    destruct (own_prop setup "gearRatios") eqn:Hg; try reflexivity;
      rewrite reverse_additional_spec by exact Hn;
      unfold generic_sto; rewrite <- !app_assoc; reflexivity.
Qed.

End GenericEncode.

(** ** What the generic encoder writes *)

(** The keys under which the additional settings are copied *)
Definition additional_keys (additionalSettings : value) : list string :=
  if truthy additionalSettings then
    match additionalSettings with
    | VObj a => obj_keys a
    | VArr xs => map JsNumber.nat_to_string (seq 0 (length xs))
    | VStr s => map JsNumber.nat_to_string (seq 0 (String.length s))
    | _ => []
    end
  else [].

Lemma fold_obj_set_other {A} (key : A -> string) (val : A -> value) (l : list A) :
  forall ps k,
    includes (map key l) k = false ->
    obj_get (fold_left (fun acc x => obj_set acc (key x) (val x)) l ps) k = obj_get ps k.
Proof.
  induction l as [|x l IH]; intros ps k H; cbn [fold_left]; [reflexivity|].
  unfold includes in H. cbn [map existsb] in H.
  apply orb_false_iff in H as [Hx Hl].
  rewrite IH by exact Hl. apply obj_get_set_ne.
  intros E. rewrite E, String.eqb_refl in Hx. discriminate.
Qed.

Lemma fold_obj_set_key (val : string -> value) (l : list string) :
  forall ps k,
    includes l k = true ->
    obj_get (fold_left (fun acc x => obj_set acc x (val x)) l ps) k = val k.
Proof.
  induction l as [|x l IH]; intros ps k H; cbn [fold_left]; [discriminate|].
  destruct (includes l k) eqn:Hl; [now apply IH|].
  rewrite (fold_obj_set_other (fun x => x) val) by now rewrite map_id.
  unfold includes in H, Hl. cbn [existsb] in H. rewrite Hl, orb_false_r in H.
  apply String.eqb_eq in H. subst x. apply obj_get_set_same.
Qed.

Lemma merge_additional_other ps additionalSettings k :
  includes (additional_keys additionalSettings) k = false ->
  obj_get (merge_additional ps additionalSettings) k = obj_get ps k.
Proof.
  unfold additional_keys, merge_additional.
  destruct (truthy additionalSettings); [|reflexivity].
  destruct additionalSettings as [| |b|x|s|a|xs]; try reflexivity; intros H.
  - now apply (fold_obj_set_other JsNumber.nat_to_string (string_index s)).
  - apply (fold_obj_set_other (fun x => x) (obj_get a)). now rewrite map_id.
  - now apply (fold_obj_set_other JsNumber.nat_to_string (fun i => nth i xs VUndefined)).
Qed.

Lemma merge_additional_key ps a k :
  includes (obj_keys a) k = true ->
  obj_get (merge_additional ps (VObj a)) k = obj_get a k.
Proof. intros H. cbn. now apply (fold_obj_set_key (obj_get a)). Qed.

(** The canonical field, the section and the key of every copy that the
    generic encoder makes *)
Definition generic_emits : list (string * string * string) := [
  ("tirePressures.frontLeft", "TIRE", "LEFT_FRONT");
  ("tirePressures.frontRight", "TIRE", "RIGHT_FRONT");
  ("tirePressures.rearLeft", "TIRE", "LEFT_REAR");
  ("tirePressures.rearRight", "TIRE", "RIGHT_REAR");
  ("suspension.front.springRate", "SUSPENSION", "SPRING_RATE_LF");
  ("suspension.front.rideHeight", "SUSPENSION", "RIDE_HEIGHT_LF");
  ("suspension.front.camber", "SUSPENSION", "CAMBER_LF");
  ("suspension.front.toe", "SUSPENSION", "TOE_IN_LF");
  ("suspension.front.antiRollBar", "SUSPENSION", "FRONT_ANTI_ROLL_BAR");
  ("suspension.rear.springRate", "SUSPENSION", "SPRING_RATE_LR");
  ("suspension.rear.rideHeight", "SUSPENSION", "RIDE_HEIGHT_LR");
  ("suspension.rear.camber", "SUSPENSION", "CAMBER_LR");
  ("suspension.rear.toe", "SUSPENSION", "TOE_IN_LR");
  ("suspension.rear.antiRollBar", "SUSPENSION", "REAR_ANTI_ROLL_BAR");
  ("dampers.front.bump", "SUSPENSION", "BUMP_LF");
  ("dampers.front.rebound", "SUSPENSION", "REBOUND_LF");
  ("dampers.rear.bump", "SUSPENSION", "BUMP_LR");
  ("dampers.rear.rebound", "SUSPENSION", "REBOUND_LR");
  ("aero.frontWing", "AERO", "FRONT_WING");
  ("aero.rearWing", "AERO", "REAR_WING");
  ("brakeBias", "BRAKE", "BIAS");
  ("differential.preload", "DIFFERENTIAL", "PRELOAD");
  ("differential.powerRamp", "DIFFERENTIAL", "POWER_RAMP");
  ("differential.coastRamp", "DIFFERENTIAL", "COAST_RAMP") ].

Ltac split_gears setup :=
  unfold gears_section;
  destruct (own_prop setup "gearRatios");
  try match goal with |- context [(0 <? ?n)%nat] => destruct (0 <? n)%nat end;
  try match goal with |- context [negb ?b] => destruct (negb b) end;
  reflexivity.

Ltac split_entry v :=
  let E := fresh "E" in
  destruct (is_undefined v) eqn:E;
  [apply is_undefined_true in E; try rewrite E in *|].

Lemma generic_sections_get clock setup path sec key :
  nullish setup = false ->
  In (path, sec, key) generic_emits ->
  get_parts (VObj (sto_header clock setup ++ required_sections setup
                   ++ differential_section setup ++ gears_section setup)) [sec; key]
  = getNestedProperty setup path.
Proof.
  intros Hn Hin. unfold generic_emits in Hin. cbn [In] in Hin.
  do 18 (destruct Hin as [Hin|Hin]; [injection Hin as <- <- <-; reflexivity|]).
  do 2 (destruct Hin as [Hin|Hin];
        [injection Hin as <- <- <-;
         unfold required_sections, opt_entry;
         change (getNestedProperty setup "aero.frontWing")
           with (get_parts setup ["aero"; "frontWing"]);
         change (getNestedProperty setup "aero.rearWing")
           with (get_parts setup ["aero"; "rearWing"]);
         cbn zeta;
         generalize (get_parts setup ["aero"; "frontWing"]); intros frontWing;
         generalize (get_parts setup ["aero"; "rearWing"]); intros rearWing;
         split_entry frontWing; split_entry rearWing; reflexivity|]).
  destruct Hin as [Hin|Hin]; [injection Hin as <- <- <-; reflexivity|].
  do 3 (destruct Hin as [Hin|Hin];
        [injection Hin as <- <- <-;
         unfold getNestedProperty; cbn [split_dot Ascii.eqb Bool.eqb];
         rewrite (get_parts_cons setup) by exact Hn;
         unfold differential_section, opt_entry; cbn zeta;
         generalize (own_prop setup "differential"); intros differential;
         destruct (truthy differential) eqn:Ht;
         [rewrite (get_parts_cons differential) by (now apply truthy_not_nullish);
          cbn [get_parts];
          generalize (own_prop differential "preload"); intros preload;
          generalize (own_prop differential "powerRamp"); intros powerRamp;
          generalize (own_prop differential "coastRamp"); intros coastRamp;
          split_entry powerRamp; split_entry coastRamp; reflexivity
         |transitivity VUndefined;
          [split_gears setup
          |destruct differential as [| |[|]|x|s|a|xs]; try discriminate;
           reflexivity]]|]).
  destruct Hin.
Qed.

Lemma shaped_false_iff setup :
  shaped setup = false <->
  exists container,
    In container required_containers /\ nullish (get_parts setup container) = true.
Proof.
  unfold shaped. generalize required_containers. intros l.
  induction l as [|c l IH]; cbn [forallb In].
  - split; [discriminate|intros (c & [] & _)].
  - destruct (nullish (get_parts setup c)) eqn:E; cbn [negb andb].
    + split; [eauto|reflexivity].
    + rewrite IH. split.
      * intros (c' & Hin & Hc). eauto.
      * intros (c' & [<-|Hin] & Hc); [congruence|eauto].
Qed.

Section GenericEncoded.

Variable clock : nat -> string.
Variable parser : SetupParser.

Lemma generic_sto_get setup path sec key :
  nullish setup = false ->
  In (path, sec, key) generic_emits ->
  includes (additional_keys (own_prop setup "additionalSettings")) sec = false ->
  get_parts (VObj (generic_sto clock setup)) [sec; key] = getNestedProperty setup path.
Proof.
  intros Hn Hin Hadd.
  rewrite <- (generic_sections_get clock setup path sec key Hn Hin).
  unfold generic_sto. rewrite !get_parts_obj. now rewrite merge_additional_other.
Qed.

(** X12: for a vehicle without a registered dialect, encoding a record that
    has its six containers writes each of the twenty-four canonical fields
    under one fixed section and key (the damper fields in the SUSPENSION
    section), with the value the record holds, unconverted; a field that the
    record lacks reads as undefined in the output too.  A section of the
    same name among the additional settings takes the place of the written
    one. *)
Theorem generic_encode_copies_fields (setup : value) :
  get_mapping parser (own_prop setup "carId") = None ->
  shaped setup = true ->
  (forall a, own_prop setup "gearRatios" <> VObj a) ->
  exists rawSetup,
    convertToSto_rawSetup clock parser setup = Ok rawSetup /\
    forall path sec key,
      In (path, sec, key) generic_emits ->
      includes (additional_keys (own_prop setup "additionalSettings")) sec = false ->
      get_parts rawSetup [sec; key] = getNestedProperty setup path.
Proof.
  intros Hm Hs Hg. exists (VObj (generic_sto clock setup)). split.
  - rewrite convertToSto_generic, Hs by exact Hm.
    destruct (own_prop setup "gearRatios") as [| | | | |a|]; try reflexivity.
    now destruct (Hg a).
  - intros path sec key Hin Hadd.
    apply generic_sto_get; [now apply shaped_not_nullish|exact Hin|exact Hadd].
Qed.

(** X13: for a vehicle without a registered dialect, encoding throws a
    TypeError exactly when the record lacks one of the six containers that
    the encoder reads without a guard: [tirePressures], [suspension.front],
    [suspension.rear], [dampers.front], [dampers.rear] or [aero]. *)
Theorem generic_encode_needs_containers (setup : value) :
  get_mapping parser (own_prop setup "carId") = None ->
  (exists container,
      In container required_containers /\ nullish (get_parts setup container) = true)
  <-> exists msg, convertToSto_rawSetup clock parser setup = Throw (TypeError msg).
Proof.
  intros Hm. rewrite <- shaped_false_iff, convertToSto_generic by exact Hm. split.
  - intros ->. eexists. reflexivity.
  - destruct (shaped setup); [|reflexivity].
    intros (msg & H). destruct (own_prop setup "gearRatios"); discriminate.
Qed.

End GenericEncoded.

(** A record of a vehicle without dialect, with its containers and three
    values *)
Definition sparse_record : value :=
  VObj [("carId", VStr "unknown_car"); ("trackId", VStr "spa"); ("name", VStr "Baseline");
        ("suspension", VObj [("front", VObj [("camber", VNum (-3))]); ("rear", VObj [])]);
        ("dampers", VObj [("front", VObj [("bump", VNum 7)]); ("rear", VObj [])]);
        ("tirePressures", VObj [("frontLeft", VNum 172)]);
        ("aero", VObj [])].

(** The same record without its [aero] container *)
Definition record_without_aero : value :=
  VObj [("carId", VStr "unknown_car"); ("trackId", VStr "spa"); ("name", VStr "Baseline");
        ("suspension", VObj [("front", VObj [("camber", VNum (-3))]); ("rear", VObj [])]);
        ("dampers", VObj [("front", VObj [("bump", VNum 7)]); ("rear", VObj [])]);
        ("tirePressures", VObj [("frontLeft", VNum 172)])].

Lemma generic_encode_copies_fields_witness :
  exists rawSetup,
    convertToSto_rawSetup sample_clock createDefaultParser sparse_record = Ok rawSetup /\
    get_parts rawSetup ["SUSPENSION"; "CAMBER_LF"] = VNum (-3) /\
    get_parts rawSetup ["SUSPENSION"; "BUMP_LF"] = VNum 7 /\
    get_parts rawSetup ["TIRE"; "RIGHT_FRONT"] = VUndefined.
Proof.
  destruct (generic_encode_copies_fields sample_clock createDefaultParser sparse_record)
    as (rawSetup & Hrun & Hget).
  - exact unknown_car_has_no_mapping.
  - reflexivity.
  - discriminate.
  - exists rawSetup. split; [exact Hrun|]. repeat split.
    + apply (Hget "suspension.front.camber"); [do 6 right; left|]; reflexivity.
    + apply (Hget "dampers.front.bump"); [do 14 right; left|]; reflexivity.
    + apply (Hget "tirePressures.frontRight"); [right; left|]; reflexivity.
Defined.

Lemma generic_encode_needs_containers_witness :
  exists msg,
    convertToSto_rawSetup sample_clock createDefaultParser record_without_aero
    = Throw (TypeError msg).
Proof.
  apply (proj1 (generic_encode_needs_containers sample_clock createDefaultParser
                  record_without_aero unknown_car_has_no_mapping)).
  exists ["aero"]. split; [do 5 right; left|]; reflexivity.
Defined.

(** ** Gear ratios and additional sections in the generic encoder *)

Lemma gear_entries_get items : forall i j,
  obj_get (gear_entries items i) (gear_key (S (i + j))) = nth j items VUndefined.
Proof.
  induction items as [|x items IH]; intros i j; cbn [gear_entries obj_get].
  - now destruct j.
  - rewrite gear_key_eqb. destruct j as [|j].
    + rewrite Nat.add_0_r, Nat.eqb_refl. reflexivity.
    + replace (S i =? S (i + S j))%nat with false
        by (symmetry; apply Nat.eqb_neq; lia).
      replace (S (i + S j)) with (S (S i + j)) by lia. apply IH.
Qed.

Lemma gear_entries_first items : forall i j,
  (j <= i)%nat -> obj_get (gear_entries items i) (gear_key j) = VUndefined.
Proof.
  induction items as [|x items IH]; intros i j Hj; cbn [gear_entries obj_get].
  - reflexivity.
  - rewrite gear_key_eqb.
    replace (S i =? j)%nat with false by (symmetry; apply Nat.eqb_neq; lia).
    apply IH. lia.
Qed.

Section GenericEncodedSections.

Variable clock : nat -> string.
Variable parser : SetupParser.

Lemma generic_sto_gears setup items :
  own_prop setup "gearRatios" = VArr items ->
  includes (additional_keys (own_prop setup "additionalSettings")) "GEARS" = false ->
  own_prop (VObj (generic_sto clock setup)) "GEARS"
  = if (0 <? length items)%nat then VObj (gear_entries items 0) else VUndefined.
Proof.
  intros Hg Hadd. unfold generic_sto. rewrite own_prop_obj.
  rewrite merge_additional_other by exact Hadd.
  unfold gears_section, differential_section. rewrite Hg. cbn zeta.
  destruct (truthy (own_prop setup "differential"));
    destruct (0 <? length items)%nat; reflexivity.
Qed.

(** X14: for a vehicle without a registered dialect, encoding writes the
    gear ratios of the record under GEAR_1, GEAR_2, ... in the order of the
    array, one key for each element and none besides; the GEARS section is
    left out when the array is empty. *)
Theorem generic_encode_numbers_gears (setup : value) (gearRatios : list value) :
  get_mapping parser (own_prop setup "carId") = None ->
  shaped setup = true ->
  own_prop setup "gearRatios" = VArr gearRatios ->
  includes (additional_keys (own_prop setup "additionalSettings")) "GEARS" = false ->
  exists rawSetup,
    convertToSto_rawSetup clock parser setup = Ok rawSetup /\
    (forall i, get_parts rawSetup ["GEARS"; gear_key (S i)] = nth i gearRatios VUndefined) /\
    get_parts rawSetup ["GEARS"; gear_key 0] = VUndefined /\
    (gearRatios = [] -> own_prop rawSetup "GEARS" = VUndefined).
Proof.
  intros Hm Hs Hg Hadd. exists (VObj (generic_sto clock setup)).
  split; [rewrite convertToSto_generic, Hs, Hg by exact Hm; reflexivity|].
  pose proof (generic_sto_gears setup gearRatios Hg Hadd) as Hgears.
  assert (Hkey : forall k,
    get_parts (VObj (generic_sto clock setup)) ["GEARS"; k]
    = obj_get (gear_entries gearRatios 0) k).
  { intros k. rewrite get_parts_cons, Hgears by reflexivity.
    destruct gearRatios; reflexivity. }
  repeat split.
  - intros i. rewrite Hkey. exact (gear_entries_get gearRatios 0 i).
  - rewrite Hkey. now apply gear_entries_first.
  - intros ->. exact Hgears.
Qed.

(** X15: for a vehicle without a registered dialect, every entry of the
    record's [additionalSettings] is written as a top-level section of the
    output, last, and so replaces whatever the encoder wrote under the same
    name before: a header key such as SETUPS or CAR, or a section such as
    TIRE. *)
Theorem generic_encode_additional_overrides (setup : value) (additionalSettings : obj) :
  get_mapping parser (own_prop setup "carId") = None ->
  shaped setup = true ->
  (forall a, own_prop setup "gearRatios" <> VObj a) ->
  own_prop setup "additionalSettings" = VObj additionalSettings ->
  exists rawSetup,
    convertToSto_rawSetup clock parser setup = Ok rawSetup /\
    forall sectionName,
      includes (obj_keys additionalSettings) sectionName = true ->
      own_prop rawSetup sectionName = obj_get additionalSettings sectionName.
Proof.
  intros Hm Hs Hg Hadd. exists (VObj (generic_sto clock setup)). split.
  - rewrite convertToSto_generic, Hs by exact Hm.
    destruct (own_prop setup "gearRatios") as [| | | | |a|]; try reflexivity.
    now destruct (Hg a).
  - intros sectionName Hin. unfold generic_sto. rewrite Hadd, own_prop_obj.
    now apply merge_additional_key.
Qed.

End GenericEncodedSections.

(** ** Decoding and encoding again, by the generic fallback *)

Lemma additional_of_has secs names : forall acc k,
  obj_has (additional_of secs names acc) k =
  includes names k && negb (includes known_sections k) || obj_has acc k.
Proof.
  induction names as [|n rest IH]; intros acc k; [reflexivity|].
  change (additional_of secs (n :: rest) acc)
    with (if includes known_sections n then additional_of secs rest acc
          else additional_of secs rest (obj_set acc n (obj_get secs n))).
  change (includes (n :: rest) k) with (String.eqb k n || includes rest k).
  destruct (includes known_sections n) eqn:En; rewrite IH.
  - destruct (String.eqb k n) eqn:Ek; [|reflexivity].
    apply String.eqb_eq in Ek. subst n. rewrite En. cbn [negb].
    now rewrite andb_false_r.
  - rewrite obj_has_set, (String.eqb_sym n k).
    destruct (String.eqb k n) eqn:Ek; cbn [orb].
    + apply String.eqb_eq in Ek. subst n. rewrite En. cbn [negb].
      rewrite andb_true_r. now rewrite !orb_true_r.
    + reflexivity.
Qed.

(** The section under which the generic encoder writes what the generic
    decoder read from [cluster] *)
Definition encoded_section (cluster : string) : string :=
  if String.eqb cluster "DAMPER" then "SUSPENSION" else cluster.

Lemma generic_probes_emitted path cluster k1 k2 :
  In (path, cluster, k1, k2) generic_probes ->
  In (path, encoded_section cluster, k1) generic_emits /\
  includes known_sections (encoded_section cluster) = true.
Proof.
  intros H. unfold generic_probes in H. cbn [In] in H.
  repeat (destruct H as [H|H];
          [injection H as <- <- <- <-; split; [cbn; tauto|reflexivity]|]).
  destruct H.
Qed.

Section GenericRoundTrip.

Variable clock : nat -> string.
Variable parser : SetupParser.

Lemma generic_setup_encoded rawSetup :
  get_mapping parser (carIdentifier (header rawSetup)) = None ->
  convertToSto_rawSetup clock parser (generic_setup clock rawSetup)
  = Ok (VObj (generic_sto clock (generic_setup clock rawSetup))).
Proof.
  intros Hm. rewrite convertToSto_generic by exact Hm.
  change (shaped (generic_setup clock rawSetup)) with true. cbn iota.
  rewrite generic_setup_gearRatios. now destruct (gears_of _).
Qed.

Lemma generic_setup_additional_keys rawSetup k :
  includes (additional_keys (own_prop (generic_setup clock rawSetup) "additionalSettings")) k
  = includes (obj_keys (sections rawSetup)) k && negb (includes known_sections k).
Proof.
  rewrite generic_setup_additionalSettings. cbn [additional_keys truthy].
  rewrite <- obj_has_includes, additional_of_has. cbn [obj_has]. apply orb_false_r.
Qed.

(** X16: decoding a table by the generic fallback and encoding the record
    again gives every probed field back as the number that decoding made of
    it, under the first of its two alias keys, and the brake bias under
    BIAS; the damper fields come back in the SUSPENSION section and no DAMPER
    section is written; a section that the fallback does not consume comes
    back as it was. *)
Theorem generic_decode_then_encode (rawSetup : SetupFile) :
  get_mapping parser (carIdentifier (header rawSetup)) = None ->
  exists setup encoded,
    convertToStructured clock parser rawSetup = Ok setup /\
    convertToSto_rawSetup clock parser setup = Ok encoded /\
    (forall path cluster k1 k2,
        In (path, cluster, k1, k2) generic_probes ->
        get_parts encoded [encoded_section cluster; k1]
        = VNum (parseNumber (alias2 (generic_section (sections rawSetup) cluster) k1 k2))) /\
    get_parts encoded ["BRAKE"; "BIAS"]
    = VNum (parseNumber (alias3 (generic_section (sections rawSetup) "BRAKE")
                           "BIAS" "BRAKE_BIAS" (VNum 50))) /\
    own_prop encoded "DAMPER" = VUndefined /\
    (forall sectionName,
        includes (obj_keys (sections rawSetup)) sectionName = true ->
        includes known_sections sectionName = false ->
        own_prop encoded sectionName = obj_get (sections rawSetup) sectionName).
Proof.
  intros Hm. exists (generic_setup clock rawSetup).
  exists (VObj (generic_sto clock (generic_setup clock rawSetup))).
  split; [now apply convertToStructured_generic|].
  split; [now apply generic_setup_encoded|].
  assert (Hknown : forall sec,
    includes known_sections sec = true ->
    includes (additional_keys
                (own_prop (generic_setup clock rawSetup) "additionalSettings")) sec = false).
  { intros sec Hsec. rewrite generic_setup_additional_keys, Hsec. apply andb_false_r. }
  repeat split.
  - intros path cluster k1 k2 Hin.
    destruct (generic_probes_emitted _ _ _ _ Hin) as [Hemit Hsec].
    rewrite (generic_sto_get clock _ path) by (reflexivity || exact Hemit || auto).
    now apply generic_setup_probe.
  - rewrite (generic_sto_get clock _ "brakeBias");
      [apply generic_setup_brakeBias|reflexivity|cbn; tauto|now apply Hknown].
  - unfold generic_sto. rewrite own_prop_obj.
    rewrite merge_additional_other by now apply Hknown.
    unfold differential_section. cbn zeta.
    destruct (truthy (own_prop (generic_setup clock rawSetup) "differential"));
      split_gears (generic_setup clock rawSetup).
  - intros sectionName Hin Hk. unfold generic_sto.
    rewrite generic_setup_additionalSettings, own_prop_obj.
    rewrite merge_additional_key.
    + rewrite additional_of_get. unfold includes at 1 in Hin. unfold includes at 1.
      now rewrite Hin, Hk.
    + rewrite <- obj_has_includes, additional_of_has, Hin, Hk. reflexivity.
Qed.

End GenericRoundTrip.

Lemma generic_encode_numbers_gears_witness :
  exists setup rawSetup,
    convertToStructured sample_clock createDefaultParser gears_with_a_hole = Ok setup /\
    convertToSto_rawSetup sample_clock createDefaultParser setup = Ok rawSetup /\
    get_parts rawSetup ["GEARS"; "GEAR_3"] = VNum 1.125 /\
    get_parts rawSetup ["GEARS"; "GEAR_4"] = VUndefined.
Proof.
  exists (generic_setup sample_clock gears_with_a_hole).
  destruct (generic_encode_numbers_gears sample_clock createDefaultParser
              (generic_setup sample_clock gears_with_a_hole)
              [VNum 3.5; VNum 2.25; VNum 1.125])
    as (rawSetup & Hrun & Hget & _).
  - exact unknown_car_has_no_mapping.
  - reflexivity.
  - vm_compute. reflexivity.
  - reflexivity.
  - exists rawSetup.
    split; [apply convertToStructured_generic; exact unknown_car_has_no_mapping|].
    split; [exact Hrun|]. split; [exact (Hget 2%nat)|exact (Hget 3%nat)].
Defined.

(** A table of a vehicle without dialect whose SETUPS section names the
    setup *)
Definition named_table : SetupFile := {|
  header := header empty_table;
  sections := [("SETUPS", VObj [("ACTIVE", VStr "Baseline")])]
|}.

(** The record decoded from it, renamed *)
Definition renamed_record : value :=
  match setNestedProperty (generic_setup sample_clock named_table) "name" (VStr "Race") with
  | Ok renamed => renamed
  | _ => VUndefined
  end.

Lemma generic_encode_additional_overrides_witness :
  exists setup rawSetup,
    convertToStructured sample_clock createDefaultParser named_table = Ok setup /\
    setNestedProperty setup "name" (VStr "Race") = Ok renamed_record /\
    getNestedProperty renamed_record "name" = VStr "Race" /\
    convertToSto_rawSetup sample_clock createDefaultParser renamed_record = Ok rawSetup /\
    get_parts rawSetup ["SETUPS"; "ACTIVE"] = VStr "Baseline".
Proof.
  exists (generic_setup sample_clock named_table).
  destruct (generic_encode_additional_overrides sample_clock createDefaultParser
              renamed_record [("SETUPS", VObj [("ACTIVE", VStr "Baseline")])])
    as (rawSetup & Hrun & Hget).
  - exact unknown_car_has_no_mapping.
  - reflexivity.
  - discriminate.
  - reflexivity.
  - exists rawSetup.
    split; [apply convertToStructured_generic; exact unknown_car_has_no_mapping|].
    split; [vm_compute; reflexivity|]. split; [reflexivity|]. split; [exact Hrun|].
    assert (Hn : nullish rawSetup = false).
    { destruct rawSetup; try reflexivity; discriminate (Hget "SETUPS" eq_refl). }
    rewrite get_parts_cons by exact Hn.
    rewrite (Hget "SETUPS") by reflexivity. reflexivity.
Defined.

(** A table of a vehicle without dialect that uses the second alias of the
    tire pressure, a DAMPER section, and a section of its own *)
Definition aliased_table : SetupFile := {|
  header := header empty_table;
  sections := [("TIRE", VObj [("PRESSURE_LF", VStr "200")]);
               ("DAMPER", VObj [("BUMP_LF", VStr "7")]);
               ("PIT", VObj [("FUEL", VStr "60")])]
|}.

Lemma generic_decode_then_encode_witness :
  exists setup encoded,
    convertToStructured sample_clock createDefaultParser aliased_table = Ok setup /\
    convertToSto_rawSetup sample_clock createDefaultParser setup = Ok encoded /\
    get_parts encoded ["TIRE"; "LEFT_FRONT"] = VNum 200 /\
    get_parts encoded ["SUSPENSION"; "BUMP_LF"] = VNum 7 /\
    own_prop encoded "DAMPER" = VUndefined /\
    own_prop encoded "PIT" = VObj [("FUEL", VStr "60")].
Proof.
  destruct (generic_decode_then_encode sample_clock createDefaultParser aliased_table
              unknown_car_has_no_mapping)
    as (setup & encoded & Hdecode & Hencode & Hprobe & _ & Hdamper & Hrest).
  exists setup, encoded. split; [exact Hdecode|]. split; [exact Hencode|].
  repeat split.
  - etransitivity.
    + apply (Hprobe "tirePressures.frontLeft" "TIRE" "LEFT_FRONT" "PRESSURE_LF").
      left. reflexivity.
    + vm_compute. reflexivity.
  - etransitivity.
    + apply (Hprobe "dampers.front.bump" "DAMPER" "BUMP_LF" "FRONT_BUMP").
      do 14 right. left. reflexivity.
    + vm_compute. reflexivity.
  - exact Hdamper.
  - rewrite (Hrest "PIT") by reflexivity. reflexivity.
Defined.

(** ** Encoding under a registered dialect *)

Section ReverseFresh.

Variable m : CarMappingConfig.
Variable setup : value.

(** The reverse mapping on a raw object that has none of the mapped sections
    yet: every mapped section is created, and holds the mapped keys whose
    canonical field is defined, and no other key. *)
Lemma reverse_field_mappings_fresh fm : forall ps,
  List.NoDup (map fst fm) ->
  (forall sec fields, In (sec, fields) fm ->
      List.NoDup (map snd fields) /\ toRaw_total m setup fields /\
      obj_get ps sec = VUndefined) ->
  exists ps',
    reverse_field_mappings m setup fm (VObj ps) = Ok (VObj ps') /\
    (forall k, ~ In k (map fst fm) -> obj_get ps' k = obj_get ps k) /\
    (forall sec fields, In (sec, fields) fm ->
        exists ch', obj_get ps' sec = VObj ch' /\
                    (forall t s, In (t, s) fields ->
                       obj_get ch' s = if is_undefined (getNestedProperty setup t)
                                       then VUndefined else raw_of m setup t) /\
                    (forall k, ~ In k (map snd fields) -> obj_get ch' k = VUndefined)).
Proof.
  induction fm as [|[sec fields] rest IH]; intros ps Hnd Hall.
  - exists ps. cbn. repeat split; auto. intros ? ? [].
  - cbn [map fst] in Hnd. apply List.NoDup_cons_iff in Hnd as [Hsec Hnd].
    destruct (Hall sec fields (or_introl eq_refl)) as (Hnds & Htot & Hinit).
    cbn [reverse_field_mappings].
    rewrite getProp_not_nullish by reflexivity. rewrite bind_Ok, own_prop_obj.
    rewrite Hinit. cbn [truthy negb setProp]. rewrite bind_Ok.
    destruct (reverse_section_mapping_spec m setup sec fields
                (obj_set ps sec (VObj [])) [] (obj_get_set_same _ _ _) Hnds Htot)
      as (ps1 & ch1 & Hrun1 & Hsec1 & Hfr1 & Hfc1 & Hent1).
    rewrite Hrun1, bind_Ok.
    assert (Hfr0 : forall k, k <> sec -> obj_get ps1 k = obj_get ps k).
    { intros k Hk. rewrite (Hfr1 k Hk). now apply obj_get_set_ne. }
    destruct (IH ps1 Hnd) as (ps' & Hrun & Hfr & Hent).
    { intros sec' fields' Hin.
      destruct (Hall sec' fields' (or_intror Hin)) as (Hn' & Ht' & Hi').
      split; [exact Hn'|]. split; [exact Ht'|].
      assert (Hne : sec' <> sec).
      { intros ->. apply Hsec. apply in_map_iff. now exists (sec, fields'). }
      now rewrite (Hfr0 _ Hne). }
    exists ps'. split; [exact Hrun|]. split.
    + intros k Hk.
      assert (Hne : k <> sec) by (intros ->; apply Hk; now left).
      rewrite Hfr by (intros Hin; apply Hk; now right).
      now apply Hfr0.
    + intros sec' fields' [Heq|Hin].
      * injection Heq as <- <-. exists ch1. split; [now rewrite (Hfr _ Hsec)|]. split.
        -- intros t s Hts. rewrite (Hent1 _ _ Hts). reflexivity.
        -- intros k Hk. now rewrite (Hfc1 k Hk).
      * now apply Hent.
Qed.

End ReverseFresh.

Section RegisteredEncode.

Variable clock : nat -> string.

Lemma convertToSto_shipped_sections setup m :
  nullish setup = false ->
  get_mapping createDefaultParser (own_prop setup "carId") = Some m ->
  (forall t transformation, transformation_of m t = Some transformation ->
      convertible (getNestedProperty setup t) = true) ->
  exists ps,
    convertToSto_rawSetup clock createDefaultParser setup = Ok (VObj ps) /\
    (forall k, ~ In k (map fst (fieldMappings m)) ->
               obj_get ps k = obj_get (sto_header clock setup) k) /\
    (forall sec fields, In (sec, fields) (fieldMappings m) ->
        exists ch, obj_get ps sec = VObj ch /\
                   (forall t s, In (t, s) fields ->
                      obj_get ch s = if is_undefined (getNestedProperty setup t)
                                     then VUndefined else raw_of m setup t) /\
                   (forall k, ~ In k (map snd fields) -> obj_get ch k = VUndefined)).
Proof.
  intros Hn Hm Hconv.
  pose proof (default_parser_shipped _ _ Hm) as Hship.
  rewrite convertToSto_rawSetup_unfold by assumption. rewrite Hm.
  unfold applyCarMappingReverse.
  apply (reverse_field_mappings_fresh m setup (fieldMappings m) (sto_header clock setup)
           (shipped_sections_distinct m Hship)).
  intros sec fields Hin.
  destruct (shipped_sections m sec fields Hship Hin) as [Hnd Hk].
  split; [exact Hnd|]. split.
  - intros t s tr _ _ Htr. eapply shipped_toRaw_total; eauto.
  - now rewrite sto_header_get.
Qed.

(** X17: under a registered dialect, encoding does not need the record to be
    complete: any record whose transformed fields (camber, and the spring
    rates of the Porsche) do not hold an object is encoded without an error,
    and [convertToSto] hands the raw object to the INI writer; every section
    of the mapping is created, and holds exactly the mapped keys whose
    canonical field is defined, each with the field's value after its
    transformation to raw. *)
Theorem dialect_encode_skips_missing_fields (ini_stringify : value -> result string)
    (setup : value) (m : CarMappingConfig) :
  nullish setup = false ->
  get_mapping createDefaultParser (own_prop setup "carId") = Some m ->
  (forall t transformation, transformation_of m t = Some transformation ->
      convertible (getNestedProperty setup t) = true) ->
  exists rawSetup,
    convertToSto_rawSetup clock createDefaultParser setup = Ok rawSetup /\
    Index.convertToSto ini_stringify clock setup = ini_stringify rawSetup /\
    forall sec fields,
      In (sec, fields) (fieldMappings m) ->
      exists section,
        own_prop rawSetup sec = VObj section /\
        (forall t s, In (t, s) fields ->
           obj_get section s = if is_undefined (getNestedProperty setup t)
                               then VUndefined else raw_of m setup t) /\
        (forall k, ~ In k (map snd fields) -> obj_get section k = VUndefined).
Proof.
  intros Hn Hm Hconv.
  destruct (convertToSto_shipped_sections setup m Hn Hm Hconv) as (ps & Hrun & _ & Hsec).
  exists (VObj ps). split; [exact Hrun|]. split; [|exact Hsec].
  unfold Index.convertToSto, convertToSto. cbn zeta. now rewrite Hrun.
Qed.

End RegisteredEncode.

(** A Ferrari record that holds nothing but its vehicle and a brake bias *)
Definition ferrari_stub : value :=
  VObj [("carId", VStr "ferrari_488_gt3"); ("brakeBias", VNum 55)].

Lemma dialect_encode_skips_missing_fields_witness :
  exists rawSetup,
    convertToSto_rawSetup sample_clock createDefaultParser ferrari_stub = Ok rawSetup /\
    get_parts rawSetup ["BRAKE"; "BIAS"] = VNum 55 /\
    own_prop rawSetup "TIRE" = VObj [] /\
    own_prop rawSetup "SUSPENSION" = VObj [].
Proof.
  destruct (dialect_encode_skips_missing_fields sample_clock (fun _ => Ok "")
              ferrari_stub ferrari488GT3Mapping)
    as (rawSetup & Hrun & _ & Hsec).
  - reflexivity.
  - exact default_parser_ferrari.
  - intros t tr Ht.
    cbv [transformation_of valueTransformations ferrari488GT3Mapping assoc] in Ht.
    destruct (String.eqb "suspension.front.camber" t) eqn:E1;
      [apply String.eqb_eq in E1; subst t; reflexivity|].
    destruct (String.eqb "suspension.rear.camber" t) eqn:E2;
      [apply String.eqb_eq in E2; subst t; reflexivity|discriminate].
  - exists rawSetup. split; [exact Hrun|].
    vm_compute in Hrun. injection Hrun as <-. repeat split.
Defined.

(** ** Decoding and encoding again, under a registered dialect *)

Section RegisteredRoundTrip.

Variable clock : nat -> string.

Lemma shipped_decode_encode rawSetup m :
  SetupFile_typed rawSetup = true ->
  get_mapping createDefaultParser (carIdentifier (header rawSetup)) = Some m ->
  exists setup ps,
    convertToStructured clock createDefaultParser rawSetup = Ok setup /\
    convertToSto_rawSetup clock createDefaultParser setup = Ok (VObj ps) /\
    nullish setup = false /\
    (forall q, forallb (fun p => diverges p q) (mapping_paths (fieldMappings m)) = true ->
               get_parts setup q = get_parts (initial_setup clock rawSetup) q) /\
    (forall k, includes sto_keys k = true ->
               obj_get ps k = obj_get (sto_header clock setup) k) /\
    (forall sec fields t s, In (sec, fields) (fieldMappings m) -> In (t, s) fields ->
        getNestedProperty setup t =
        if is_undefined (raw_value (sections rawSetup) sec s)
        then getNestedProperty (initial_setup clock rawSetup) t
        else converted m t (raw_value (sections rawSetup) sec s)) /\
    (forall sec fields t s, In (sec, fields) (fieldMappings m) -> In (t, s) fields ->
        get_parts (VObj ps) [sec; s] =
        if is_undefined (getNestedProperty setup t) then VUndefined
        else raw_of m setup t).
Proof.
  intros Ht Hm.
  pose proof (default_parser_shipped _ _ Hm) as Hship.
  destruct (convertToStructured_shipped clock rawSetup m Hm Ht)
    as (setup & Hrun & Hframe & Hent).
  assert (Hcar : get_parts setup ["carId"] = carIdentifier (header rawSetup)).
  { rewrite Hframe by (apply shipped_leave_top_level; cbn; auto). reflexivity. }
  assert (Hid : exists id, carIdentifier (header rawSetup) = VStr id).
  { destruct (carIdentifier (header rawSetup)); cbn in Hm; try discriminate. eauto. }
  destruct Hid as [id Hid]. rewrite Hid in Hcar.
  assert (Hn : nullish setup = false).
  { destruct setup; try reflexivity; discriminate. }
  assert (Hcar' : own_prop setup "carId" = carIdentifier (header rawSetup)).
  { rewrite Hid, <- Hcar. cbn [get_parts]. now rewrite Hn. }
  destruct (convertToSto_shipped_sections clock setup m Hn) as (ps & Henc & Hhdr & Hsec).
  { now rewrite Hcar'. }
  { intros t tr Htr.
    destruct (shipped_transformed_target m t tr Hship Htr)
      as (sec & fields & s & Hin & Hts & Hinit).
    rewrite (Hent sec fields t s Hin Hts), Hinit.
    destruct (is_undefined (raw_value (sections rawSetup) sec s)) eqn:Eu; [reflexivity|].
    destruct (shipped_converted_numeric m t tr _ Hship Htr
                (is_undefined_false_scalar rawSetup sec s Ht Eu)) as [x ->].
    reflexivity. }
  exists setup, ps. split; [exact Hrun|]. split; [exact Henc|]. split; [exact Hn|].
  split; [exact Hframe|]. split.
  { intros k Hk. apply Hhdr. intros Hin. apply in_map_iff in Hin as ([sec fields] & <- & Hin).
    destruct (shipped_sections m sec fields Hship Hin) as [_ Hno].
    cbn [fst] in Hk. congruence. }
  split; [exact Hent|].
  intros sec fields t s Hin Hts.
  destruct (Hsec sec fields Hin) as (ch & Hch & Hval & _).
  rewrite get_parts_obj, Hch, get_parts_obj. cbn [get_parts]. now apply Hval.
Qed.

(** X18: decoding a table under a registered dialect and encoding the
    record again gives, for every mapped key that the table holds: for a
    field without transformation the converted value (the number that a
    numeric text reads as, any other value unchanged); for a camber field
    the number that [parseFloat] reads from the raw value, exactly; for a
    spring rate of the Porsche that number multiplied and divided by 1000. *)
Theorem dialect_decode_then_encode (rawSetup : SetupFile) (m : CarMappingConfig)
    (sec : string) (fields : list (string * string)) (t s : string) :
  SetupFile_typed rawSetup = true ->
  get_mapping createDefaultParser (carIdentifier (header rawSetup)) = Some m ->
  In (sec, fields) (fieldMappings m) -> In (t, s) fields ->
  is_undefined (raw_value (sections rawSetup) sec s) = false ->
  exists setup encoded,
    convertToStructured clock createDefaultParser rawSetup = Ok setup /\
    convertToSto_rawSetup clock createDefaultParser setup = Ok encoded /\
    let raw := raw_value (sections rawSetup) sec s in
    (transformation_of m t = None /\
     get_parts encoded [sec; s] = default_conversion raw)
    \/ (transformation_of m t = Some sign_flip /\
        exists x, parseFloat raw = Ok x /\ get_parts encoded [sec; s] = VNum x)
    \/ (transformation_of m t = Some rescale_1000 /\
        exists x, parseFloat raw = Ok x /\
                  get_parts encoded [sec; s] = VNum (x * 1000 / 1000)).
Proof.
  intros Ht Hm Hin Hts Hu.
  pose proof (default_parser_shipped _ _ Hm) as Hship.
  pose proof (is_undefined_false_scalar rawSetup sec s Ht Hu) as Hscalar.
  destruct (shipped_decode_encode rawSetup m Ht Hm)
    as (setup & ps & Hrun & Henc & _ & _ & _ & Hent & Hraw).
  exists setup, (VObj ps). split; [exact Hrun|]. split; [exact Henc|]. cbn zeta.
  rewrite (Hraw sec fields t s Hin Hts).
  pose proof (Hent sec fields t s Hin Hts) as Hv. rewrite Hu in Hv.
  unfold raw_of. rewrite Hv. unfold converted, convert_field.
  destruct (scalar_parseFloat _ Hscalar) as [x Hx].
  destruct (transformation_of m t) as [tr|] eqn:Etr.
  - right.
    destruct (shipped_transformations m t tr Hship Etr) as [-> | [_ ->]].
    + left. split; [reflexivity|]. exists x. split; [exact Hx|].
      cbn [fromRaw toRaw sign_flip]. unfold negate_parsed. rewrite Hx. cbn.
      now rewrite float_opp_involutive.
    + right. split; [reflexivity|]. exists x. split; [exact Hx|].
      cbn [fromRaw toRaw rescale_1000]. unfold times_1000_parsed. rewrite Hx.
      reflexivity.
  - left. split; [reflexivity|].
    now rewrite default_conversion_defined.
Qed.

End RegisteredRoundTrip.

Lemma dialect_decode_then_encode_witness :
  exists setup encoded,
    convertToStructured sample_clock createDefaultParser ferrari_camber_table = Ok setup /\
    convertToSto_rawSetup sample_clock createDefaultParser setup = Ok encoded /\
    get_parts encoded ["SUSPENSION"; "CAMBER_LF"] = VNum 3.
Proof.
  destruct (dialect_decode_then_encode sample_clock ferrari_camber_table
              ferrari488GT3Mapping "SUSPENSION"
              (snd (nth 1 (fieldMappings ferrari488GT3Mapping) ("", [])))
              "suspension.front.camber" "CAMBER_LF")
    as (setup & encoded & Hdecode & Hencode & Hvalue).
  - reflexivity.
  - exact default_parser_ferrari.
  - right. left. reflexivity.
  - do 2 right. left. reflexivity.
  - reflexivity.
  - exists setup, encoded. split; [exact Hdecode|]. split; [exact Hencode|].
    cbn zeta in Hvalue.
    assert (Hflip : transformation_of ferrari488GT3Mapping "suspension.front.camber"
                    = Some sign_flip) by reflexivity.
    rewrite Hflip in Hvalue.
    destruct Hvalue as [[Hnone _] | [[_ (x & Hx & Hget)] | [Hrescale _]]].
    + discriminate Hnone.
    + rewrite Hget. vm_compute in Hx. now injection Hx as <-.
    + exfalso. injection Hrescale as Hrescale _.
      apply (f_equal (fun f => f (VNum 1))) in Hrescale.
      vm_compute in Hrescale. discriminate Hrescale.
Defined.

(** ** The two dialect tables *)

(** X19: both dialect tables are consistent.  Every transformation is
    attached to a canonical field that the table maps, and every required
    leaf of the record is mapped; no two entries write the same canonical
    path or a path inside another one; no section is named twice or carries
    the name of a header key, and no raw key occurs twice in a section. *)
Theorem shipped_tables_consistent (m : CarMappingConfig) :
  shipped m ->
  (forall t transformation,
      transformation_of m t = Some transformation -> is_target m t = true)
  /\ (forall path, In path required_leaves -> is_target m path = true)
  /\ pairwise_diverge (mapping_paths (fieldMappings m)) = true
  /\ List.NoDup (map fst (fieldMappings m))
  /\ (forall sec fields,
        In (sec, fields) (fieldMappings m) ->
        List.NoDup (map snd fields) /\ includes sto_keys sec = false).
Proof.
  intros Hm. repeat split.
  - intros t tr Ht.
    destruct Hm as [-> | ->];
      cbv [transformation_of valueTransformations ferrari488GT3Mapping
             porsche911GT3RMapping assoc] in Ht;
      repeat match type of Ht with
             | (if String.eqb ?a ?b then _ else _) = _ =>
                 let E := fresh "E" in
                 destruct (String.eqb a b) eqn:E;
                 [apply String.eqb_eq in E; subst t; reflexivity|]
             end;
      discriminate.
  - intros path Hin. unfold required_leaves in Hin. cbn [In] in Hin.
    destruct Hm as [-> | ->];
      repeat (destruct Hin as [Hin|Hin]; [subst path; reflexivity|]);
      destruct Hin.
  - now apply shipped_targets_independent.
  - now apply shipped_sections_distinct.
  - now apply (shipped_sections m sec fields).
  - now apply (shipped_sections m sec fields).
Qed.

Lemma shipped_tables_consistent_witness :
  is_target porsche911GT3RMapping "suspension.rear.springRate" = true
  /\ pairwise_diverge (mapping_paths (fieldMappings porsche911GT3RMapping)) = true.
Proof.
  destruct (shipped_tables_consistent porsche911GT3RMapping (or_intror eq_refl))
    as (Htr & _ & Hpaths & _).
  split; [|exact Hpaths].
  apply (Htr "suspension.rear.springRate" rescale_1000). reflexivity.
Defined.

(** ** Text without a number under a transformation *)

Lemma is_nan_eq x : is_nan x = true -> x = nan.
Proof.
  unfold is_nan. rewrite FloatAxioms.eqb_spec. intros H.
  apply Prim2SF_inj.
  destruct (Prim2SF x) as [sg|sg| |sg mx ex] eqn:E.
  - destruct sg; discriminate.
  - destruct sg; discriminate.
  - reflexivity.
  - unfold SFeqb, SFcompare in H.
    rewrite Z.compare_refl, Pos.compare_cont_refl in H.
    destruct sg; discriminate.
Qed.

(** X20: under a registered dialect a field with a transformation (camber,
    and the spring rates of the Porsche) whose raw value is a text without a
    numeric prefix decodes to NaN, without an error: not to zero, as under
    the generic fallback, and not to the text itself, as a field without
    transformation does. *)
Theorem transformed_text_without_number_is_nan (clock : nat -> string)
    (rawSetup : SetupFile) (m : CarMappingConfig) (sec : string)
    (fields : list (string * string)) (t s text : string)
    (transformation : Transformation) :
  SetupFile_typed rawSetup = true ->
  get_mapping createDefaultParser (carIdentifier (header rawSetup)) = Some m ->
  In (sec, fields) (fieldMappings m) -> In (t, s) fields ->
  transformation_of m t = Some transformation ->
  raw_value (sections rawSetup) sec s = VStr text ->
  is_nan (JsNumber.parseFloat_string text) = true ->
  exists setup,
    convertToStructured clock createDefaultParser rawSetup = Ok setup /\
    getNestedProperty setup t = VNum nan.
Proof.
  intros Ht Hm Hin Hts Htr Hraw Hnan.
  pose proof (default_parser_shipped _ _ Hm) as Hship.
  destruct (convertToStructured_shipped clock rawSetup m Hm Ht)
    as (setup & Hrun & _ & Hent).
  exists setup. split; [exact Hrun|].
  rewrite (Hent sec fields t s Hin Hts), Hraw. cbn [is_undefined].
  unfold converted, convert_field. rewrite Htr.
  apply is_nan_eq in Hnan.
  destruct (shipped_transformations m t transformation Hship Htr) as [-> | [_ ->]];
    cbn [fromRaw sign_flip rescale_1000]; unfold negate_parsed, times_1000_parsed;
    cbn [parseFloat]; rewrite Hnan; reflexivity.
Qed.

(** A Porsche table whose front spring rate is a word *)
Definition worded_spring_rate : SetupFile := {|
  header := {| version := VStr "1.0"; carIdentifier := VStr "porsche_911_gt3r";
               trackIdentifier := VStr "spa"; name := VStr "Baseline";
               timestamp := VStr "2024-01-01T00:00:00.000Z" |};
  sections := [("SUSPENSION", VObj [("FRONT_SPRING_RATE", VStr "stiff")])]
|}.

Lemma transformed_text_without_number_is_nan_witness :
  exists setup,
    convertToStructured sample_clock createDefaultParser worded_spring_rate = Ok setup /\
    getNestedProperty setup "suspension.front.springRate" = VNum nan.
Proof.
  apply (transformed_text_without_number_is_nan sample_clock worded_spring_rate
           porsche911GT3RMapping "SUSPENSION"
           (snd (nth 1 (fieldMappings porsche911GT3RMapping) ("", [])))
           "suspension.front.springRate" "FRONT_SPRING_RATE" "stiff" rescale_1000).
  - reflexivity.
  - exact default_parser_porsche.
  - right. left. reflexivity.
  - left. reflexivity.
  - reflexivity.
  - reflexivity.
  - vm_compute. reflexivity.
Defined.

(** ** Keys that the table lacks, after decoding and encoding *)

Ltac each_entry H :=
  cbn [In] in H;
  repeat (destruct H as [H|H]; [injection H as <- <-|]); [..|destruct H].

(** X21: decoding a table under a registered dialect and encoding the
    record again writes a mapped key that the table did not hold whenever
    its canonical field is a required leaf: with the leaf's default, zero or
    50 for the brake bias (after the transformation to raw, which turns the
    zero of a camber into minus zero); the mapped keys of the optional
    fields (rear wing, differential) stay absent. *)
Theorem dialect_round_trip_adds_defaults (clock : nat -> string) (rawSetup : SetupFile)
    (m : CarMappingConfig) (sec : string) (fields : list (string * string))
    (t s : string) :
  SetupFile_typed rawSetup = true ->
  get_mapping createDefaultParser (carIdentifier (header rawSetup)) = Some m ->
  In (sec, fields) (fieldMappings m) -> In (t, s) fields ->
  raw_value (sections rawSetup) sec s = VUndefined ->
  exists setup encoded,
    convertToStructured clock createDefaultParser rawSetup = Ok setup /\
    convertToSto_rawSetup clock createDefaultParser setup = Ok encoded /\
    if includes required_leaves t then
      exists x, get_parts encoded [sec; s] = VNum x /\
                PrimFloat.eqb x (default_leaf t) = true
    else get_parts encoded [sec; s] = VUndefined.
Proof.
  intros Ht Hm Hin Hts Hu.
  pose proof (default_parser_shipped _ _ Hm) as Hship.
  destruct (shipped_decode_encode clock rawSetup m Ht Hm)
    as (setup & ps & Hrun & Henc & _ & _ & _ & Hent & Hraw).
  exists setup, (VObj ps). split; [exact Hrun|]. split; [exact Henc|].
  rewrite (Hraw sec fields t s Hin Hts).
  pose proof (Hent sec fields t s Hin Hts) as Hv. rewrite Hu in Hv. cbn [is_undefined] in Hv.
  unfold raw_of. rewrite Hv. clear Hv Hraw Hent Henc Hrun Hu Hm Ht.
  destruct Hship as [-> | ->]; each_entry Hin; each_entry Hts;
    first [reflexivity | eexists; split; reflexivity].
Qed.

Lemma dialect_round_trip_adds_defaults_witness :
  exists setup encoded,
    convertToStructured sample_clock createDefaultParser ferrari_camber_table = Ok setup /\
    convertToSto_rawSetup sample_clock createDefaultParser setup = Ok encoded /\
    exists x, get_parts encoded ["SUSPENSION"; "CAMBER_LR"] = VNum x /\
              PrimFloat.eqb x 0 = true.
Proof.
  apply (dialect_round_trip_adds_defaults sample_clock ferrari_camber_table
           ferrari488GT3Mapping "SUSPENSION"
           (snd (nth 1 (fieldMappings ferrari488GT3Mapping) ("", [])))
           "suspension.rear.camber" "CAMBER_LR").
  - reflexivity.
  - exact default_parser_ferrari.
  - right. left. reflexivity.
  - do 7 right. left. reflexivity.
  - reflexivity.
Defined.

(** ** The header, after decoding and encoding under a dialect *)

(** X22: decoding a table under a registered dialect and encoding the
    record again writes the header from the record alone: CAR and TRACK are
    the header's vehicle and track, VERSION is the header's version ("1.0"
    when it had none), TIMESTAMP the header's timestamp (a reading of the
    clock when it had none), and the SETUPS section is rebuilt with the one
    key ACTIVE, holding the header's name; whatever else the SETUPS section
    of the table held is not written. *)
Theorem dialect_round_trip_header (clock : nat -> string) (rawSetup : SetupFile)
    (m : CarMappingConfig) :
  SetupFile_typed rawSetup = true ->
  get_mapping createDefaultParser (carIdentifier (header rawSetup)) = Some m ->
  exists setup encoded,
    convertToStructured clock createDefaultParser rawSetup = Ok setup /\
    convertToSto_rawSetup clock createDefaultParser setup = Ok encoded /\
    let h := header rawSetup in
    let modified := if truthy (timestamp h) then timestamp h else VStr (clock 2%nat) in
    own_prop encoded "CAR" = carIdentifier h /\
    own_prop encoded "TRACK" = trackIdentifier h /\
    own_prop encoded "SETUPS" = VObj [("ACTIVE", name h)] /\
    own_prop encoded "VERSION" = (if truthy (version h) then version h else VStr "1.0") /\
    own_prop encoded "TIMESTAMP" = (if truthy modified then modified else VStr (clock 3%nat)).
Proof.
  intros Ht Hm.
  pose proof (default_parser_shipped _ _ Hm) as Hship.
  destruct (shipped_decode_encode clock rawSetup m Ht Hm)
    as (setup & ps & Hrun & Henc & Hn & Hframe & Hhdr & _ & _).
  exists setup, (VObj ps). split; [exact Hrun|]. split; [exact Henc|].
  assert (Hq : forall k, In [k] [["carId"]; ["trackId"]; ["name"]; ["metadata"]] ->
               own_prop setup k = get_parts (initial_setup clock rawSetup) [k]).
  { intros k Hk. rewrite <- Hframe by now apply shipped_leave_identification.
    cbn [get_parts]. now rewrite Hn. }
  cbn zeta. rewrite !own_prop_obj, !Hhdr by reflexivity.
  unfold sto_header. cbn zeta. cbn [obj_get String.eqb Ascii.eqb Bool.eqb].
  rewrite !Hq by (cbn; auto 6).
  repeat split.
Qed.

Lemma dialect_round_trip_header_witness :
  exists setup encoded,
    convertToStructured sample_clock createDefaultParser ferrari_camber_table = Ok setup /\
    convertToSto_rawSetup sample_clock createDefaultParser setup = Ok encoded /\
    own_prop encoded "CAR" = VStr "ferrari_488_gt3" /\
    own_prop encoded "TRACK" = VStr "spa" /\
    own_prop encoded "SETUPS" = VObj [("ACTIVE", VStr "Baseline")] /\
    own_prop encoded "VERSION" = VStr "1.0" /\
    own_prop encoded "TIMESTAMP" = VStr "2024-01-01T00:00:00.000Z".
Proof.
  apply (dialect_round_trip_header sample_clock ferrari_camber_table ferrari488GT3Mapping).
  - reflexivity.
  - exact default_parser_ferrari.
Defined.
